(** * go-conflux-sdk: the client (client.go) and the call request (types)

    A shallow embedding of the retrying RPC transport, the chain query
    facade, the transaction default resolver, the batch revert-risk
    calculator and the contract deployment workflow, with the properties
    the specification states about them. *)

From Stdlib Require Import ZArith String Ascii List QArith Lia.
From stdpp Require Import base option list gmap strings.

Local Open Scope string_scope.
Local Open Scope Z_scope.

(** ** Data model (package types) *)

Definition Address := string.
Definition Hash := string.

(** Modelled from the spec: the declaration of [types.Epoch] is not part of
    the sources at hand; an epoch is a named tag or an epoch number. *)
Inductive Epoch :=
| EpochEarliest
| EpochLatestMined
| EpochLatestState
| EpochNumber (n : Z).

(** Modelled from the spec: [types.UnsignedTransaction] (its declaration is
    not part of the sources at hand) is a draft of optional fields; a nil
    pointer is [None].  [hexutil.Big] values are integers. *)
Record UnsignedTransaction := {
  tx_From : option Address;
  tx_Nonce : option Z;
  tx_GasPrice : option Z;
  tx_Gas : option Z;
  tx_Value : option Z;
  tx_StorageLimit : option Z;
  tx_EpochHeight : option Z;
  tx_ChainID : option Z;
  tx_To : option Address;
  tx_Data : list Byte.byte
}.

(** [new(types.UnsignedTransaction)] *)
Definition newUnsignedTransaction : UnsignedTransaction :=
  {| tx_From := None; tx_Nonce := None; tx_GasPrice := None; tx_Gas := None;
     tx_Value := None; tx_StorageLimit := None; tx_EpochHeight := None;
     tx_ChainID := None; tx_To := None; tx_Data := [] |}.

(** [types.ContractDeployOption]: the embedded transaction base (kept as a
    transaction whose [To] and [Data] are not used) and the timeout, a
    [time.Duration] in nanoseconds. *)
Record ContractDeployOption := {
  opt_UnsignedTransactionBase : UnsignedTransaction;
  opt_Timeout : Z
}.

(** [types.CallRequest] *)
Record CallRequest := {
  cr_From : option Address;
  cr_To : option Address;
  cr_GasPrice : option Z;
  cr_Gas : option Z;
  cr_Value : option Z;
  cr_Data : string;
  cr_Nonce : option Z;
  cr_StorageLimit : option Z
}.

(** [new(types.CallRequest)] *)
Definition newCallRequest : CallRequest :=
  {| cr_From := None; cr_To := None; cr_GasPrice := None; cr_Gas := None;
     cr_Value := None; cr_Data := EmptyString; cr_Nonce := None;
     cr_StorageLimit := None |}.

(** The parts of [types.Estimate], [types.Transaction] and
    [types.BlockSummary] that the client reads. *)
Record Estimate := {
  est_GasUsed : option Z;
  est_StorageCollateralized : option Z
}.

Record Transaction := {
  txn_Hash : Hash;
  txn_Status : option Z;
  txn_ContractCreated : option Address
}.

Record BlockSummary := {
  bs_Hash : Hash;
  bs_EpochNumber : option Z
}.

Definition zeroBlockSummary : BlockSummary :=
  {| bs_Hash := EmptyString; bs_EpochNumber := None |}.

(** ** Lower-case hexadecimal and decimal text *)

Module hex.

Definition digit (n : Z) : ascii :=
  if n <? 10 then ascii_of_nat (Z.to_nat (48 + n))
  else ascii_of_nat (Z.to_nat (87 + n)).

(** [hex.EncodeToString] *)
Fixpoint EncodeToString (bs : list Byte.byte) : string :=
  match bs with
  | [] => EmptyString
  | b :: bs' =>
      let n := Z.of_N (Byte.to_N b) in
      String (digit (n / 16)) (String (digit (n mod 16)) (EncodeToString bs'))
  end.

(** digits of a positive number in the given base, most significant first *)
Fixpoint digits (fuel : nat) (base : Z) (z : Z) (acc : string) : string :=
  match fuel with
  | O => acc
  | S fuel' =>
      let acc' := String (digit (z mod base)) acc in
      if z / base =? 0 then acc' else digits fuel' base (z / base) acc'
  end.

Definition render (base : Z) (z : Z) : string :=
  digits (S (Z.to_nat (Z.log2 z))) base z EmptyString.

End hex.

(** The [String] method of [big.Int]: decimal text. *)
Definition bigString (z : Z) : string :=
  if z <? 0 then "-" ++ hex.render 10 (- z) else hex.render 10 z.

(** ** Errors *)

(** RPC arguments ([interface{}] values handed to the transport). *)
Inductive Arg :=
| AAddress (a : Address)
| AHash (h : Hash)
| AEpoch (e : Epoch)
| ABool (b : bool)
| AHexData (s : string)
| ACallRequest (r : CallRequest).

(** The target of a batch element's [Result] pointer. *)
Inductive Slot :=
| SlotNil
| SlotRisk (i : nat)       (* &risks[i] *)
| SlotSummary (i : nat).   (* &summarys[i] *)

(** [rpc.BatchElem]; its [Error] field is written by the transport and
    never read by the client, so it is left out. *)
Record BatchElem := {
  be_Method : string;
  be_Args : list Arg;
  be_Result : Slot
}.

(** [make([]rpc.BatchElem, n)] fills with this value. *)
Definition zeroBatchElem : BatchElem :=
  {| be_Method := EmptyString; be_Args := []; be_Result := SlotNil |}.

(** An instant ([time.Time]) is kept apart from a duration ([time.Duration],
    nanoseconds as an integer). *)
Inductive Time := UnixNano (ns : Z).

Definition Millisecond : Z := 1000000.
Definition Second : Z := 1000 * Millisecond.

(** Generic JSON results as the client decodes them. *)
Inductive Json :=
| JNull
| JString (s : string)
| JEstimate (e : Estimate)
| JTransaction (t : Transaction)
| JBlockSummary (b : BlockSummary).

(** Operands of [fmt.Sprintf]. *)
Inductive Val :=
| VString (s : string)
| VArg (a : Arg)
| VArgs (args : list Arg)
| VBatch (b : list BatchElem)
| VTx (tx : UnsignedTransaction)
| VCallRequest (r : CallRequest)
| VAddressPtr (a : option Address)
| VHash (h : Hash)
| VBytes (bs : list Byte.byte)
| VJson (j : Json)
| VEpoch (e : Epoch)
| VTime (t : Time)
| VDuration (d : Z).

(** A message is the format with its operands ([fmt.Sprintf] is not
    unfolded to text). *)
Record Message := Sprintf { msg_format : string; msg_operands : list Val }.

(** [error] values: errors of the collaborators (transport, hexutil, JSON,
    ABI, account manager), [errors.New] and [types.WrapError]. *)
Inductive error :=
| External (what : string)
| errorsNew (msg : Message)
| WrapError (cause : error) (msg : Message).

(** A Go result pair [(value, error)]. *)
Inductive result (A : Type) :=
| Ok (a : A)
| Err (e : error).
Arguments Ok {A} a.
Arguments Err {A} e.

(** ** Package hexutil (go-ethereum), as far as the client relies on it *)

Module hexutil.

Definition ErrEmptyString := External "empty hex string".
Definition ErrMissingPrefix := External "hex string without 0x prefix".
Definition ErrEmptyNumber := External "hex string 0x without digits".
Definition ErrLeadingZero := External "hex number with leading zero digits".
Definition ErrSyntax := External "invalid hex string".
Definition ErrBig256Range := External "hex number > 256 bits".

Definition decodeNibble (c : ascii) : option Z :=
  let n := Z.of_nat (nat_of_ascii c) in
  if (48 <=? n) && (n <=? 57) then Some (n - 48)
  else if (65 <=? n) && (n <=? 70) then Some (n - 55)
  else if (97 <=? n) && (n <=? 102) then Some (n - 87)
  else None.

Fixpoint parseNibbles (raw : string) (acc : Z) : option Z :=
  match raw with
  | EmptyString => Some acc
  | String c raw' =>
      match decodeNibble c with
      | Some n => parseNibbles raw' (acc * 16 + n)
      | None => None
      end
  end.

Definition checkNumber (input : string) : result string :=
  match input with
  | EmptyString => Err ErrEmptyString
  | String c0 (String c1 raw) =>
      if Ascii.eqb c0 "0" && (Ascii.eqb c1 "x" || Ascii.eqb c1 "X") then
        match raw with
        | EmptyString => Err ErrEmptyNumber
        | String d (String _ _) =>
            if Ascii.eqb d "0" then Err ErrLeadingZero else Ok raw
        | _ => Ok raw
        end
      else Err ErrMissingPrefix
  | _ => Err ErrMissingPrefix
  end.

Definition DecodeBig (input : string) : result Z :=
  match checkNumber input with
  | Err e => Err e
  | Ok raw =>
      if (64 <? String.length raw)%nat then Err ErrBig256Range
      else match parseNibbles raw 0 with
           | Some z => Ok z
           | None => Err ErrSyntax
           end
  end.

Definition EncodeBig (z : Z) : string :=
  if z <? 0 then "-0x" ++ hex.render 16 (- z) else "0x" ++ hex.render 16 z.

Definition Encode (bs : list Byte.byte) : string :=
  "0x" ++ hex.EncodeToString bs.

End hexutil.

(** ** Package constants *)

(** Modelled from the spec: [constants.MaxUint256] is not part of the
    sources at hand; the maximum representable risk value is 2^256 - 1. *)
Definition MaxUint256 : Z := 2 ^ 256 - 1.

(** Modelled from the spec: [utils.CalcBlockRevertRate] is not part of the
    sources at hand; the revert rate is the risk divided by the maximum
    representable risk value, risk / (2^256 - 1), kept here as an exact
    rational in lowest terms.  [GetBlockRevertRateByHash] computes this
    quotient as a [big.Float] of 256 bits (client.go:396-399): that one is
    rounded, and agrees with the exact quotient at risk 0 and at the
    maximum risk. *)
Definition CalcBlockRevertRate (risk : Z) : Q :=
  Qred (Qdiv (inject_Z risk) (inject_Z MaxUint256)).

(** ** Package math/big: floats, as far as the client relies on them *)

Module big.

(** The [BitLen] method of [big.Int]: the length of the absolute value in
    bits; the bit length of 0 is 0. *)
Definition BitLen (x : Z) : Z :=
  if x =? 0 then 0 else Z.log2 (Z.abs x) + 1.

(** A finite [big.Float]: its precision, in mantissa bits, and its value. *)
Record Float := { Prec : Z; value : Q }.

(** [m * 2^(-s)] *)
Definition scaled (m s : Z) : Q :=
  if 0 <=? s then Qred (Qmake m (Z.to_pos (2 ^ s)))
  else inject_Z (m * 2 ^ (- s)).

(** [n / d] for positive [n] and [d], rounded to [prec] mantissa bits, to
    nearest and ties to even (the rounding mode of a new float): the
    mantissa is the quotient scaled by a power of two to [prec] bits, and
    one more when the remainder is over half of the divisor, or is half of
    it and the mantissa is odd. *)
Definition roundPos (prec n d : Z) : Q :=
  let s0 := prec + BitLen d - BitLen n in
  let s := if 2 ^ prec * (d * 2 ^ Z.max (- s0) 0) <=? n * 2 ^ Z.max s0 0
           then s0 - 1 else s0 in
  let num := n * 2 ^ Z.max s 0 in
  let den := d * 2 ^ Z.max (- s) 0 in
  let m := num / den in
  let r := num mod den in
  let up := (den <? 2 * r) || ((2 * r =? den) && Z.odd m) in
  scaled (if up then m + 1 else m) s.

Definition round (prec : Z) (q : Q) : Q :=
  match Qnum q with
  | 0 => 0%Q
  | Zpos n => roundPos prec (Zpos n) (Zpos (Qden q))
  | Zneg n => Qopp (roundPos prec (Zpos n) (Zpos (Qden q)))
  end.

(** [new(big.Float).SetInt(x)]: the precision of a new float is 0, so it
    becomes the larger of [x.BitLen()] and 64, and the value is exact. *)
Definition SetInt (x : Z) : Float :=
  {| Prec := Z.max (BitLen x) 64; value := inject_Z x |}.

(** [new(big.Float).Quo(x, y)] for a divisor that is not zero, as the
    client's is: the precision of a new float is 0, so it becomes the
    larger of the operands' precisions, and the value is the quotient
    rounded to it. *)
Definition Quo (x y : Float) : Float :=
  let prec := Z.max (Prec x) (Prec y) in
  {| Prec := prec; value := round prec (Qdiv (value x) (value y)) |}.

End big.

(** ** Field assignment on a transaction draft *)

Definition set_From (v : option Address) (tx : UnsignedTransaction) :=
  {| tx_From := v; tx_Nonce := tx_Nonce tx; tx_GasPrice := tx_GasPrice tx;
     tx_Gas := tx_Gas tx; tx_Value := tx_Value tx;
     tx_StorageLimit := tx_StorageLimit tx; tx_EpochHeight := tx_EpochHeight tx;
     tx_ChainID := tx_ChainID tx; tx_To := tx_To tx; tx_Data := tx_Data tx |}.

Definition set_Nonce (v : option Z) (tx : UnsignedTransaction) :=
  {| tx_From := tx_From tx; tx_Nonce := v; tx_GasPrice := tx_GasPrice tx;
     tx_Gas := tx_Gas tx; tx_Value := tx_Value tx;
     tx_StorageLimit := tx_StorageLimit tx; tx_EpochHeight := tx_EpochHeight tx;
     tx_ChainID := tx_ChainID tx; tx_To := tx_To tx; tx_Data := tx_Data tx |}.

Definition set_GasPrice (v : option Z) (tx : UnsignedTransaction) :=
  {| tx_From := tx_From tx; tx_Nonce := tx_Nonce tx; tx_GasPrice := v;
     tx_Gas := tx_Gas tx; tx_Value := tx_Value tx;
     tx_StorageLimit := tx_StorageLimit tx; tx_EpochHeight := tx_EpochHeight tx;
     tx_ChainID := tx_ChainID tx; tx_To := tx_To tx; tx_Data := tx_Data tx |}.

Definition set_Gas (v : option Z) (tx : UnsignedTransaction) :=
  {| tx_From := tx_From tx; tx_Nonce := tx_Nonce tx; tx_GasPrice := tx_GasPrice tx;
     tx_Gas := v; tx_Value := tx_Value tx;
     tx_StorageLimit := tx_StorageLimit tx; tx_EpochHeight := tx_EpochHeight tx;
     tx_ChainID := tx_ChainID tx; tx_To := tx_To tx; tx_Data := tx_Data tx |}.

Definition set_StorageLimit (v : option Z) (tx : UnsignedTransaction) :=
  {| tx_From := tx_From tx; tx_Nonce := tx_Nonce tx; tx_GasPrice := tx_GasPrice tx;
     tx_Gas := tx_Gas tx; tx_Value := tx_Value tx;
     tx_StorageLimit := v; tx_EpochHeight := tx_EpochHeight tx;
     tx_ChainID := tx_ChainID tx; tx_To := tx_To tx; tx_Data := tx_Data tx |}.

Definition set_EpochHeight (v : option Z) (tx : UnsignedTransaction) :=
  {| tx_From := tx_From tx; tx_Nonce := tx_Nonce tx; tx_GasPrice := tx_GasPrice tx;
     tx_Gas := tx_Gas tx; tx_Value := tx_Value tx;
     tx_StorageLimit := tx_StorageLimit tx; tx_EpochHeight := v;
     tx_ChainID := tx_ChainID tx; tx_To := tx_To tx; tx_Data := tx_Data tx |}.

Definition set_Data (v : list Byte.byte) (tx : UnsignedTransaction) :=
  {| tx_From := tx_From tx; tx_Nonce := tx_Nonce tx; tx_GasPrice := tx_GasPrice tx;
     tx_Gas := tx_Gas tx; tx_Value := tx_Value tx;
     tx_StorageLimit := tx_StorageLimit tx; tx_EpochHeight := tx_EpochHeight tx;
     tx_ChainID := tx_ChainID tx; tx_To := tx_To tx; tx_Data := v |}.

Definition set_To (v : option Address) (tx : UnsignedTransaction) :=
  {| tx_From := tx_From tx; tx_Nonce := tx_Nonce tx; tx_GasPrice := tx_GasPrice tx;
     tx_Gas := tx_Gas tx; tx_Value := tx_Value tx;
     tx_StorageLimit := tx_StorageLimit tx; tx_EpochHeight := tx_EpochHeight tx;
     tx_ChainID := tx_ChainID tx; tx_To := v; tx_Data := tx_Data tx |}.

Definition set_Value (v : option Z) (tx : UnsignedTransaction) :=
  {| tx_From := tx_From tx; tx_Nonce := tx_Nonce tx; tx_GasPrice := tx_GasPrice tx;
     tx_Gas := tx_Gas tx; tx_Value := v;
     tx_StorageLimit := tx_StorageLimit tx; tx_EpochHeight := tx_EpochHeight tx;
     tx_ChainID := tx_ChainID tx; tx_To := tx_To tx; tx_Data := tx_Data tx |}.

(** [tx.UnsignedTransactionBase = base]: every field but [To] and [Data]. *)
Definition set_UnsignedTransactionBase (base tx : UnsignedTransaction) :=
  {| tx_From := tx_From base; tx_Nonce := tx_Nonce base;
     tx_GasPrice := tx_GasPrice base; tx_Gas := tx_Gas base;
     tx_Value := tx_Value base; tx_StorageLimit := tx_StorageLimit base;
     tx_EpochHeight := tx_EpochHeight base; tx_ChainID := tx_ChainID base;
     tx_To := tx_To tx; tx_Data := tx_Data tx |}.

(** ** The call request (types) *)

(** [FillByUnsignedTx] fills the request's fields by [tx]. *)
Definition FillByUnsignedTx (request : CallRequest)
    (tx : option UnsignedTransaction) : CallRequest :=
  match tx with
  | Some tx =>
      {| cr_From := tx_From tx;
         cr_To := tx_To tx;
         cr_GasPrice := tx_GasPrice tx;
         cr_Value := tx_Value tx;
         cr_StorageLimit := tx_StorageLimit tx;
         cr_Gas := match tx_Gas tx with
                   | Some g => Some g
                   | None => cr_Gas request
                   end;
         cr_Data := "0x" ++ hex.EncodeToString (tx_Data tx);
         cr_Nonce := match tx_Nonce tx with
                     | Some n => Some n
                     | None => cr_Nonce request
                     end |}
  | None => request
  end.

(** ** Collaborators *)

(** The [AccountManagerOperator] interface, as the client uses it. *)
Record AccountManagerOperator := {
  GetDefault : result (option Address);
  SignTransaction : UnsignedTransaction -> result (list Byte.byte)
}.

(** The [Cmp] method of [big.Int]. *)
Definition Cmp (x y : Z) : Z :=
  match x ?= y with
  | Lt => -1
  | Eq => 0
  | Gt => 1
  end.

(** ** The node, the world and the monad of client code *)

(** What the transport sends for one call: the method and its arguments. *)
Record Request := { req_Method : string; req_Args : list Arg }.

Definition requestOf (be : BatchElem) : Request :=
  {| req_Method := be_Method be; req_Args := be_Args be |}.

(** The answer to one element of a batch: the element's own error, or the
    JSON to be decoded into the element's result. *)
Inductive ElemResponse :=
| ElemError (e : error)
| ElemResult (j : Json).

(** What client code does to the outside, in order. *)
Inductive Event :=
| EvCall (req : Request) (r : result Json)
| EvBatchCall (b : list BatchElem) (r : result (list ElemResponse))
| EvSleep (d : Z)
| EvAfter (d : Z)      (* time.After(d) *)
| EvTick (d : Z)       (* time.Tick(d) *)
| EvDoneSend           (* doneChan <- struct{}{} *)
| EvDoneClose.         (* close(doneChan) *)

(** How a piece of Go code ends: it returns, it panics, or the model's fuel
    for a loop runs out before the loop is left. *)
Inductive Run (A : Type) :=
| Returned (a : A)
| Panicked (reason : string)
| OutOfFuel.
Arguments Returned {A} a.
Arguments Panicked {A} reason.
Arguments OutOfFuel {A}.

(** A timer channel ([<-chan time.Time]) made by [time.After] or
    [time.Tick], known by its duration. *)
Record TimerChan := { timer_d : Z }.

(** What a [select] on the timeout and the ticker receives: the instant the
    timeout fired, or a tick. *)
Inductive SelectEvent :=
| FromTimeout (t : Time)
| FromTicker.

(** The [Uint64] method of [big.Int]: the low 64 bits of the magnitude. *)
Definition Uint64 (z : Z) : Z := Z.abs z mod 2 ^ 64.

(** Code that touches nothing outside: it returns or panics. *)
Definition bindR {A B} (m : Run A) (k : A -> Run B) : Run B :=
  match m with
  | Returned a => k a
  | Panicked reason => Panicked reason
  | OutOfFuel => OutOfFuel
  end.

Notation "x <~ m ;; k" := (bindR m (fun x => k))
  (at level 100, m at next level, right associativity).

(** Dereferencing a pointer. *)
Definition deref {A} (p : option A) : Run A :=
  match p with
  | Some a => Returned a
  | None => Panicked "invalid memory address or nil pointer dereference"
  end.

(** [xs[i]] and [xs[i] = x] on a slice. *)
Definition index {A} (xs : list A) (i : nat) : Run A :=
  match xs !! i with
  | Some x => Returned x
  | None => Panicked "index out of range"
  end.

Definition assign {A} (xs : list A) (i : nat) (x : A) : Run (list A) :=
  if decide (i < length xs)%nat then Returned (<[i:=x]> xs)
  else Panicked "index out of range".

(** [for i := range xs], from index [i] for [n] rounds, on the variables
    [s] the body assigns. *)
Fixpoint forRange {St} (body : nat -> St -> Run St) (i n : nat) (s : St)
  : Run St :=
  match n with
  | O => Returned s
  | S n' =>
      s' <~ body i s ;;
      forRange body (S i) n' s'
  end.

(** The same with a body that may leave the function with an error. *)
Fixpoint forRangeErr {St} (body : nat -> St -> Run (result St)) (i n : nat)
    (s : St) : Run (result St) :=
  match n with
  | O => Returned (Ok s)
  | S n' =>
      r <~ body i s ;;
      match r with
      | Ok s' => forRangeErr body (S i) n' s'
      | Err err => Returned (Err err)
      end
  end.

(** [for _, x := range xs] *)
Fixpoint forEach {A St} (body : A -> St -> Run St) (xs : list A) (s : St)
  : Run St :=
  match xs with
  | [] => Returned s
  | x :: xs' =>
      s' <~ body x s ;;
      forEach body xs' s'
  end.

Section Client.

(** The node behind [rpc.Client]: a state, and for each call or batch a new
    state with either a transport error or the answer. *)
Context {Node : Type}.
Variable node_call : Request -> Node -> Node * result Json.
Variable node_batch : list Request -> Node -> Node * result (list ElemResponse).

(** The ABI collaborator (go-ethereum's [abi.ABI]): parsing the ABI JSON and
    packing constructor arguments. *)
Context {ABI Param : Type}.
Variable abi_UnmarshalJSON : list Byte.byte -> result ABI.
Variable abi_Pack : ABI -> string -> list Param -> result (list Byte.byte).

(** [constants.MinGasprice] and the [ApplyDefault] method of
    [types.UnsignedTransaction] are not part of the sources at hand; they
    are parameters of the development. *)
Variable MinGasprice : Z.
Variable ApplyDefault : UnsignedTransaction -> UnsignedTransaction.

(** [Contract]; the client it is bound to is the deploying client. *)
Record Contract := { ct_ABI : ABI; ct_Address : option Address }.

(** [ContractDeployResult], the record the deployment goroutine fills in
    and the caller reads; [DoneChannel] is followed in the trace. *)
Record ContractDeployResult := {
  TransactionHash : option Hash;
  Error : option error;
  DeployedContract : option Contract
}.

(** The world: the node, what has been done to the outside so far, and the
    deployment result shared between the goroutine and its caller. *)
Record World := {
  node : Node;
  trace : list Event;
  deployResult : ContractDeployResult
}.

Definition M (A : Type) : Type := World -> Run A * World.

Definition ret {A} (a : A) : M A := fun w => (Returned a, w).

Definition bind {A B} (m : M A) (k : A -> M B) : M B :=
  fun w =>
    match m w with
    | (Returned a, w') => k a w'
    | (Panicked reason, w') => (Panicked reason, w')
    | (OutOfFuel, w') => (OutOfFuel, w')
    end.

Definition panic {A} (reason : string) : M A := fun w => (Panicked reason, w).

Definition lift {A} (r : Run A) : M A := fun w => (r, w).

Definition outOfFuel {A} : M A := fun w => (OutOfFuel, w).

Definition emit (ev : Event) (w : World) : World :=
  {| node := node w; trace := trace w ++ [ev]; deployResult := deployResult w |}.

Notation "x <- m ;; k" := (bind m (fun x => k))
  (at level 100, m at next level, right associativity).

(** [time.Sleep] *)
Definition Sleep (d : Z) : M unit := fun w => (Returned tt, emit (EvSleep d) w).

(** *** The direct transport, [rpc.Client] *)

Definition rpcClient_Call (method : string) (args : list Arg) : M (result Json) :=
  fun w =>
    let req := {| req_Method := method; req_Args := args |} in
    let '(n, r) := node_call req (node w) in
    (Returned r, emit (EvCall req r)
                      {| node := n; trace := trace w;
                         deployResult := deployResult w |}).

Definition rpcClient_BatchCall (b : list BatchElem) : M (result (list ElemResponse)) :=
  fun w =>
    let '(n, r) := node_batch (map requestOf b) (node w) in
    (Returned r, emit (EvBatchCall b r)
                      {| node := n; trace := trace w;
                         deployResult := deployResult w |}).

(** *** The retrying transport *)

(** [rpcClientWithRetry]; its [inner] client is the direct transport above. *)
Record rpcClientWithRetry := { retryCount : Z; interval : Z }.

(** The [for] loop of [Call] (client.go:90-104), entered with [remain]. *)
Fixpoint Call_loop (fuel : nat) (r : rpcClientWithRetry) (method : string)
    (args : list Arg) (remain : Z) : M (result Json) :=
  match fuel with
  | O => outOfFuel
  | S fuel' =>
      res <- rpcClient_Call method args ;;
      match res with
      | Ok j => ret (Ok j)
      | Err err =>
          let remain := remain - 1 in
          if remain =? 0 then
            let msg := Sprintf "timeout when call %v with args %v"
                               [VString method; VArgs args] in
            ret (Err (WrapError err msg))
          else
            _ <- (if 0 <? interval r then Sleep (interval r) else ret tt) ;;
            Call_loop fuel' r method args remain
      end
  end.

Definition Call (r : rpcClientWithRetry) (method : string) (args : list Arg)
  : M (result Json) :=
  res <- rpcClient_Call method args ;;
  match res with
  | Ok j => ret (Ok j)
  | Err err =>
      if retryCount r <=? 0 then ret (Err err)
      else Call_loop (Z.to_nat (retryCount r)) r method args (retryCount r)
  end.

(** The [for] loop of [BatchCall] (client.go:118-132). *)
Fixpoint BatchCall_loop (fuel : nat) (r : rpcClientWithRetry)
    (b : list BatchElem) (remain : Z) : M (result (list ElemResponse)) :=
  match fuel with
  | O => outOfFuel
  | S fuel' =>
      res <- rpcClient_BatchCall b ;;
      match res with
      | Ok rs => ret (Ok rs)
      | Err err =>
          let remain := remain - 1 in
          if remain =? 0 then
            let msg := Sprintf "timeout when batch call %+v" [VBatch b] in
            ret (Err (WrapError err msg))
          else
            _ <- (if 0 <? interval r then Sleep (interval r) else ret tt) ;;
            BatchCall_loop fuel' r b remain
      end
  end.

Definition BatchCall (r : rpcClientWithRetry) (b : list BatchElem)
  : M (result (list ElemResponse)) :=
  res <- rpcClient_BatchCall b ;;
  match res with
  | Ok rs => ret (Ok rs)
  | Err err =>
      if retryCount r <=? 0 then ret (Err err)
      else BatchCall_loop (Z.to_nat (retryCount r)) r b (retryCount r)
  end.

(** The [rpcRequester] interface of the client and its two implementations. *)
Record rpcRequester := {
  rr_Call : string -> list Arg -> M (result Json);
  rr_BatchCall : list BatchElem -> M (result (list ElemResponse))
}.

Definition directRequester : rpcRequester :=
  {| rr_Call := rpcClient_Call; rr_BatchCall := rpcClient_BatchCall |}.

Definition retryRequester (r : rpcClientWithRetry) : rpcRequester :=
  {| rr_Call := Call r; rr_BatchCall := BatchCall r |}.

(** Attempts made on the inner transport, counted in a trace. *)
Definition isAttempt (ev : Event) : bool :=
  match ev with
  | EvCall _ _ | EvBatchCall _ _ => true
  | _ => false
  end.

Definition attempts (tr : list Event) : nat := length (filter isAttempt tr).

(** ** The client *)

Record Client := {
  nodeURL : string;
  requester : rpcRequester;
  accountManager : option AccountManagerOperator
}.


Definition BatchCallRPC (client : Client) (b : list BatchElem)
  : M (result (list ElemResponse)) :=
  rr_BatchCall (requester client) b.

(** The type assertion [result.(string)]. *)
Definition assertString (j : Json) : M string :=
  match j with
  | JString s => ret s
  | _ => panic "interface conversion: interface {} is not string"
  end.

(** [unmarshalRPCResult], by the type of its target: JSON of the target's
    shape decodes and [null] leaves the zero value.  What [json.Unmarshal]
    makes of an object of another shape depends on the fields of the target
    struct, whose declaration is not part of the sources at hand (keys it
    does not know are skipped); such an answer is kept as a failure here,
    and the properties below do not depend on that branch. *)
Definition unmarshalError (j : Json) : error :=
  WrapError (External "json: cannot unmarshal")
            (Sprintf "json unmarshal %v error" [VJson j]).

Definition unmarshalEstimate (j : Json) : result Estimate :=
  match j with
  | JEstimate e => Ok e
  | JNull => Ok {| est_GasUsed := None; est_StorageCollateralized := None |}
  | _ => Err (unmarshalError j)
  end.

Definition unmarshalTransaction (j : Json) : result Transaction :=
  match j with
  | JTransaction t => Ok t
  | JNull => Ok {| txn_Hash := EmptyString; txn_Status := None;
                   txn_ContractCreated := None |}
  | _ => Err (unmarshalError j)
  end.

(** [GetGasPrice] returns the recent mean gas price. *)
Definition GetGasPrice (client : Client) : M (result Z) :=
  res <- rr_Call (requester client) "cfx_gasPrice" [] ;;
  match res with
  | Err err => ret (Err (WrapError err (Sprintf "rpc request cfx_gasPrice error" [])))
  | Ok result =>
      s <- assertString result ;;
      ret (hexutil.DecodeBig s)
  end.

(** [GetNextNonce] returns the next transaction nonce of address
    ([types.WrapErrorf] wraps as [types.WrapError] does). *)
Definition GetNextNonce (client : Client) (address : Address)
    (epoch : option Epoch) : M (result Z) :=
  let args := [AAddress address] in
  let args := match epoch with
              | Some e => (args ++ [AEpoch e])%list
              | None => args
              end in
  res <- rr_Call (requester client) "cfx_getNextNonce" args ;;
  match res with
  | Err err =>
      ret (Err (WrapError err (Sprintf "rpc request cfx_getNextNonce %+v error"
                                       [VArg (AAddress address)])))
  | Ok result =>
      s <- assertString result ;;
      ret (hexutil.DecodeBig s)
  end.

(** [GetEpochNumber] returns the highest or specified epoch number. *)
Definition GetEpochNumber (client : Client) (epoch : list Epoch) : M (result Z) :=
  let args := match epoch with
              | e :: _ => [AEpoch e]
              | [] => []
              end in
  res <- rr_Call (requester client) "cfx_epochNumber" args ;;
  match res with
  | Err err =>
      ret (Err (WrapError err (Sprintf "rpc cfx_epochNumber %+v error" [VArgs args])))
  | Ok result =>
      s <- assertString result ;;
      ret (hexutil.DecodeBig s)
  end.

(** [GetTransactionByHash] returns transaction for the specified txHash.
    If the transaction is not found, return nil. *)
Definition GetTransactionByHash (client : Client) (txHash : Hash)
  : M (result (option Transaction)) :=
  res <- rr_Call (requester client) "cfx_getTransactionByHash" [AHash txHash] ;;
  match res with
  | Err err =>
      ret (Err (WrapError err (Sprintf "rpc cfx_getTransactionByHash {%+v} error"
                                       [VHash txHash])))
  | Ok JNull => ret (Ok None)
  | Ok result =>
      match unmarshalTransaction result with
      | Err err =>
          ret (Err (WrapError err (Sprintf "UnmarshalRPCResult %+v error"
                                           [VJson result])))
      | Ok tx => ret (Ok (Some tx))
      end
  end.

(** [EstimateGasAndCollateral] excutes a message call "request" and returns
    the amount of the gas used and storage for collateral. *)
Definition EstimateGasAndCollateral (client : Client) (request : CallRequest)
  : M (result Estimate) :=
  let args := [ACallRequest request] in
  res <- rr_Call (requester client) "cfx_estimateGasAndCollateral" args ;;
  match res with
  | Err err =>
      ret (Err (WrapError err
                  (Sprintf "rpc cfx_estimateGasAndCollateral of {%+v} error"
                           [VArgs args])))
  | Ok result =>
      match unmarshalEstimate result with
      | Err err =>
          ret (Err (WrapError err (Sprintf "UnmarshalRPCResult %+v error"
                                           [VJson result])))
      | Ok estimate => ret (Ok estimate)
      end
  end.

(** [SendRawTransaction] sends signed transaction and returns its hash. *)
Definition SendRawTransaction (client : Client) (rawData : list Byte.byte)
  : M (result Hash) :=
  res <- rr_Call (requester client) "cfx_sendRawTransaction"
                 [AHexData (hexutil.Encode rawData)] ;;
  match res with
  | Err err =>
      ret (Err (WrapError err (Sprintf "rpc cfx_sendRawTransaction 0x%+x error"
                                       [VBytes rawData])))
  | Ok result =>
      s <- assertString result ;;
      ret (Ok s)
  end.

(** ** Transaction default resolution *)

(** A step of the resolver leaves the draft as far as it got and the error
    it returns, if any; the next step runs when there is none. *)
Definition Resolved : Type := UnsignedTransaction * option error.

Definition andThen (m : M Resolved) (k : UnsignedTransaction -> M Resolved)
  : M Resolved :=
  p <- m ;;
  match snd p with
  | Some err => ret (fst p, Some err)
  | None => k (fst p)
  end.

(** [if tx.From == nil { ... }] (client.go:659-671) *)
Definition resolveFrom (client : Client) (tx : UnsignedTransaction) : M Resolved :=
  match tx_From tx with
  | None =>
      match accountManager client with
      | Some am =>
          match GetDefault am with
          | Err err =>
              ret (tx, Some (WrapError err (Sprintf "get default account error" [])))
          | Ok None =>
              ret (tx, Some (errorsNew
                               (Sprintf "no account exist in keystore directory" [])))
          | Ok (Some defaultAccount) =>
              ret (set_From (Some defaultAccount) tx, None)
          end
      | None => ret (tx, None)
      end
  | Some _ => ret (tx, None)
  end.

(** [if tx.Nonce == nil { ... }] (client.go:673-681) *)
Definition resolveNonce (client : Client) (tx : UnsignedTransaction) : M Resolved :=
  match tx_Nonce tx with
  | None =>
      from <- lift (deref (tx_From tx)) ;;
      res <- GetNextNonce client from None ;;
      match res with
      | Err err =>
          ret (tx, Some (WrapError err (Sprintf "get nonce of {%+v} error"
                                                [VAddressPtr (tx_From tx)])))
      | Ok nonce => ret (set_Nonce (Some nonce) tx, None)
      end
  | Some _ => ret (tx, None)
  end.

(** [if tx.GasPrice == nil { ... }] (client.go:683-696) *)
Definition resolveGasPrice (client : Client) (tx : UnsignedTransaction) : M Resolved :=
  match tx_GasPrice tx with
  | None =>
      res <- GetGasPrice client ;;
      match res with
      | Err err =>
          ret (tx, Some (WrapError err (Sprintf "get gas price error" [])))
      | Ok gasPrice =>
          let gasPrice :=
            if Cmp gasPrice MinGasprice <? 1 then MinGasprice else gasPrice in
          ret (set_GasPrice (Some gasPrice) tx, None)
      end
  | Some _ => ret (tx, None)
  end.

(** [if tx.EpochHeight == nil { ... }] (client.go:698-705) *)
Definition resolveEpochHeight (client : Client) (tx : UnsignedTransaction)
  : M Resolved :=
  match tx_EpochHeight tx with
  | None =>
      res <- GetEpochNumber client [EpochLatestState] ;;
      match res with
      | Err err =>
          ret (tx, Some (WrapError err (Sprintf "get epoch number of {%+v} error"
                                                [VEpoch EpochLatestState])))
      | Ok epoch => ret (set_EpochHeight (Some epoch) tx, None)
      end
  | Some _ => ret (tx, None)
  end.

(** [if tx.StorageLimit == nil || tx.Gas == nil { ... }] (client.go:708-725) *)
Definition resolveGasAndStorage (client : Client) (tx : UnsignedTransaction)
  : M Resolved :=
  match tx_StorageLimit tx, tx_Gas tx with
  | Some _, Some _ => ret (tx, None)
  | _, _ =>
      let callReq := FillByUnsignedTx newCallRequest (Some tx) in
      res <- EstimateGasAndCollateral client callReq ;;
      match res with
      | Err err =>
          ret (tx, Some (WrapError err
                           (Sprintf "get estimate gas and collateral by {%+v} error"
                                    [VCallRequest callReq])))
      | Ok sm =>
          let tx := match tx_Gas tx with
                    | None => set_Gas (est_GasUsed sm) tx
                    | Some _ => tx
                    end in
          let tx := match tx_StorageLimit tx with
                    | None => set_StorageLimit (est_StorageCollateralized sm) tx
                    | Some _ => tx
                    end in
          ret (tx, None)
      end
  end.

(** [ApplyUnsignedTransactionDefault] set empty fields to value fetched from
    conflux node.  The receiver may be nil. *)
Definition ApplyUnsignedTransactionDefault (client : option Client)
    (tx : UnsignedTransaction) : M Resolved :=
  match client with
  | Some client =>
      andThen (resolveFrom client tx) (fun tx =>
      andThen (resolveNonce client tx) (fun tx =>
      andThen (resolveGasPrice client tx) (fun tx =>
      andThen (resolveEpochHeight client tx) (fun tx =>
      andThen (resolveGasAndStorage client tx) (fun tx =>
      ret (ApplyDefault tx, None))))))
  | None => ret (tx, None)
  end.

(** [SendTransaction] signs and sends transaction to conflux node and
    returns the transaction hash, next to the draft as it left it. *)
Definition SendTransaction (client : Client) (tx : UnsignedTransaction)
  : M (UnsignedTransaction * result Hash) :=
  p <- ApplyUnsignedTransactionDefault (Some client) tx ;;
  let tx := fst p in
  match snd p with
  | Some err =>
      ret (tx, Err (WrapError err
                      (Sprintf "apply transaction {%+v} default fields error"
                               [VTx tx])))
  | None =>
      match accountManager client with
      | None =>
          ret (tx, Err (errorsNew (Sprintf
            "sign transaction need account manager, please call SetAccountManager to set it."
            [])))
      | Some am =>
          match SignTransaction am tx with
          | Err err =>
              ret (tx, Err (WrapError err (Sprintf "sign transaction {%+v} error"
                                                   [VTx tx])))
          | Ok rawData =>
              res <- SendRawTransaction client rawData ;;
              match res with
              | Err err =>
                  ret (tx, Err (WrapError err
                                  (Sprintf "send raw transaction 0x%+x error"
                                           [VBytes rawData])))
              | Ok txhash => ret (tx, Ok txhash)
              end
          end
      end
  end.

(** ** Batch revert rates *)

(** What the transport does with the answers of a batch: an answer that
    decodes into the element's result is stored there, any other leaves the
    target as it was. *)
Definition storeRisk (risks : list string) (be : BatchElem) (resp : ElemResponse)
  : list string :=
  match be_Result be, resp with
  | SlotRisk i, ElemResult (JString s) => <[i:=s]> risks
  | _, _ => risks
  end.

Definition storeSummary (summarys : list BlockSummary) (be : BatchElem)
    (resp : ElemResponse) : list BlockSummary :=
  match be_Result be, resp with
  | SlotSummary i, ElemResult (JBlockSummary b) => <[i:=b]> summarys
  | _, _ => summarys
  end.

Fixpoint storeAll {A} (store : A -> BatchElem -> ElemResponse -> A) (mem : A)
    (b : list BatchElem) (resps : list ElemResponse) : A :=
  match b, resps with
  | be :: b', resp :: resps' => storeAll store (store mem be resp) b' resps'
  | _, _ => mem
  end.

(** The first loop (client.go:887-902): one element per hash that is not
    nil; a nil hash gets the maximum risk without a request. *)
Definition riskElems (blockhashs : list (option Hash))
  : Run (list BatchElem * list string) :=
  let bElems : list BatchElem := [] in
  let risks := replicate (length blockhashs) EmptyString in
  forRange (fun i '(bElems, risks) =>
      h <~ index blockhashs i ;;
      match h with
      | None =>
          risks <~ assign risks i (hexutil.EncodeBig MaxUint256) ;;
          Returned (bElems, risks)
      | Some hash =>
          let be := {| be_Method := "cfx_getConfirmationRiskByHash";
                       be_Args := [AHash hash];
                       be_Result := SlotRisk i |} in
          Returned ((bElems ++ [be])%list, risks)
      end)
    0%nat (length blockhashs) (bElems, risks).

(** The second loop (client.go:909-920): the hashes without a risk, and for
    each hash the positions that wait for it. *)
Definition noRiskOf (blockhashs : list (option Hash)) (risks : list string)
  : Run (list (option Hash) * gmap Hash (list nat)) :=
  forRange (fun i '(noRiskBlockhashs, indexMap) =>
      r <~ index risks i ;;
      if (String.length r =? 0)%nat then
        h <~ index blockhashs i ;;
        let noRiskBlockhashs := (noRiskBlockhashs ++ [h])%list in
        key <~ deref h ;;
        let indexMap : gmap Hash (list nat) :=
          match indexMap !! key with
          | None => <[key:=[]]> indexMap
          | Some _ => indexMap
          end in
        let indexMap : gmap Hash (list nat) :=
          <[key:=(default [] (indexMap !! key) ++ [i])%list]> indexMap in
        Returned (noRiskBlockhashs, indexMap)
      else Returned (noRiskBlockhashs, indexMap))
    0%nat (length blockhashs) ([], ∅).

(** The elements of the block summary batch (client.go:925-934): [make]
    with a length, then [append]. *)
Definition summaryElems (noRiskBlockhashs : list (option Hash))
  : Run (list BatchElem) :=
  let bElems := replicate (length noRiskBlockhashs) zeroBatchElem in
  forRange (fun i bElems =>
      h <~ index noRiskBlockhashs i ;;
      hash <~ deref h ;;
      let be := {| be_Method := "cfx_getBlockByHash";
                   be_Args := [AHash hash; ABool false];
                   be_Result := SlotSummary i |} in
      Returned (bElems ++ [be])%list)
    0%nat (length noRiskBlockhashs) bElems.

(** The loop over the answered batch (client.go:940-953): the risk of each
    summary goes to the positions of its hash. *)
Definition spreadRisks (bElems : list BatchElem) (summarys : list BlockSummary)
    (indexMap : gmap Hash (list nat)) (risks : list string) : Run (list string) :=
  forRange (fun i risks =>
      summary <~ index summarys i ;;
      let indexs := default [] (indexMap !! bs_Hash summary) in
      let risk := match bs_EpochNumber summary with
                  | Some _ => bigString 0
                  | None => bigString MaxUint256
                  end in
      forEach (fun iRisks risks => assign risks iRisks risk) indexs risks)
    0%nat (length bElems) risks.

(** The last loop (client.go:957-965): risk to revert rate. *)
Definition ratesOf (risks : list string) : Run (result (list (option Q))) :=
  let rates : list (option Q) := replicate (length risks) None in
  forRangeErr (fun i rates =>
      r <~ index risks i ;;
      match hexutil.DecodeBig r with
      | Err err =>
          Returned (Err (WrapError err
                           (Sprintf "create big int by risk value %v error"
                                    [VString r])))
      | Ok b =>
          rates <~ assign rates i (Some (CalcBlockRevertRate b)) ;;
          Returned (Ok rates)
      end)
    0%nat (length risks) rates.

(** [if len(noRiskBlockhashs) > 0 { ... }]: the risks afterwards, or the
    error the function returns. *)
Definition fallback (client : Client) (noRiskBlockhashs : list (option Hash))
    (indexMap : gmap Hash (list nat)) (risks : list string)
  : M (result (list string)) :=
  let summarys := replicate (length noRiskBlockhashs) zeroBlockSummary in
  bElems <- lift (summaryElems noRiskBlockhashs) ;;
  res <- BatchCallRPC client bElems ;;
  match res with
  | Err err =>
      ret (Err (WrapError err
                  (Sprintf "batch call cfx_getBlockByHash with BatchItem %v error"
                           [VBatch bElems])))
  | Ok resps =>
      let summarys := storeAll storeSummary summarys bElems resps in
      risks <- lift (spreadRisks bElems summarys indexMap risks) ;;
      ret (Ok risks)
  end.

Definition BatchGetBlockRevertRates (client : Client)
    (blockhashs : list (option Hash)) : M (result (list (option Q))) :=
  if (length blockhashs =? 0)%nat then ret (Ok [])
  else
    st <- lift (riskElems blockhashs) ;;
    let '(bElems, risks) := st in
    res <- BatchCallRPC client bElems ;;
    match res with
    | Err err =>
        ret (Err (WrapError err
          (Sprintf "batch call cfx_getConfirmationRiskByHash with BatchItem %v error"
                   [VBatch bElems])))
    | Ok resps =>
        let risks := storeAll storeRisk risks bElems resps in
        st <- lift (noRiskOf blockhashs risks) ;;
        let '(noRiskBlockhashs, indexMap) := st in
        res <- (if (0 <? length noRiskBlockhashs)%nat
                then fallback client noRiskBlockhashs indexMap risks
                else ret (Ok risks)) ;;
        match res with
        | Err err => ret (Err err)
        | Ok risks => lift (ratesOf risks)
        end
    end.

(** ** Contract deployment *)

Definition setTransactionHash (h : Hash) : M unit := fun w =>
  (Returned tt,
   {| node := node w; trace := trace w;
      deployResult := {| TransactionHash := Some h;
                         Error := Error (deployResult w);
                         DeployedContract := DeployedContract (deployResult w) |} |}).

Definition setError (err : error) : M unit := fun w =>
  (Returned tt,
   {| node := node w; trace := trace w;
      deployResult := {| TransactionHash := TransactionHash (deployResult w);
                         Error := Some err;
                         DeployedContract := DeployedContract (deployResult w) |} |}).

Definition setDeployedContract (c : Contract) : M unit := fun w =>
  (Returned tt,
   {| node := node w; trace := trace w;
      deployResult := {| TransactionHash := TransactionHash (deployResult w);
                         Error := Error (deployResult w);
                         DeployedContract := Some c |} |}).

(** [time.After] and [time.Tick] *)
Definition After (d : Z) : M TimerChan := fun w =>
  (Returned {| timer_d := d |}, emit (EvAfter d) w).

Definition Tick (d : Z) : M TimerChan := fun w =>
  (Returned {| timer_d := d |}, emit (EvTick d) w).

(** [defer]: the deferred call runs when the body returns and when it
    panics; the panic goes on after it. *)
Definition withDefer {A} (body : M A) (deferred : M unit) : M A := fun w =>
  match body w with
  | (Returned a, w') =>
      match deferred w' with
      | (Returned _, w'') => (Returned a, w'')
      | (Panicked reason, w'') => (Panicked reason, w'')
      | (OutOfFuel, w'') => (OutOfFuel, w'')
      end
  | (Panicked reason, w') => (Panicked reason, snd (deferred w'))
  | (OutOfFuel, w') => (OutOfFuel, w')
  end.

(** The choice of the timeout channel (client.go:797-800). *)
Definition deployTimeout (option : option ContractDeployOption) : M TimerChan :=
  timeout <- After (3600 * Second) ;;
  match option with
  | Some o =>
      if negb (opt_Timeout o =? 0) then After (opt_Timeout o) else ret timeout
  | None => ret timeout
  end.

(** [case <-ticker:] (client.go:812-829); [true] when the goroutine returns,
    [false] when the loop goes on. *)
Definition onTick (client : Client) (abi : ABI) (txhash : Hash) : M bool :=
  res <- GetTransactionByHash client txhash ;;
  match res with
  | Err err =>
      _ <- setError (WrapError err
                       (Sprintf "get transaction receipt of txhash %+v error"
                                [VHash txhash])) ;;
      ret true
  | Ok transaction =>
      transaction <- lift (deref transaction) ;;
      match txn_Status transaction with
      | Some status =>
          if Uint64 status =? 1 then
            _ <- setError (errorsNew
                   (Sprintf "transaction is packed but it is failed,the txhash is %+v"
                            [VHash txhash])) ;;
            ret true
          else
            _ <- setDeployedContract
                   {| ct_ABI := abi;
                      ct_Address := txn_ContractCreated transaction |} ;;
            ret true
      | None => ret false
      end
  end.

(** The [for { select { ... } }] loop, against what the select receives;
    when nothing more is received the goroutine stays in the loop. *)
Fixpoint deployLoop (script : list SelectEvent) (client : Client) (abi : ABI)
    (txhash : Hash) (timeout ticker : TimerChan) : M unit :=
  match script with
  | [] => outOfFuel
  | FromTimeout t :: _ =>
      setError (errorsNew
                  (Sprintf "deploy contract time out after %v, txhash is %+v"
                           [VTime t; VHash txhash]))
  | FromTicker :: script' =>
      done <- onTick client abi txhash ;;
      if done then ret tt
      else deployLoop script' client abi txhash timeout ticker
  end.

(** The body of the goroutine (client.go:760-831).  The operand of the
    constructor encoding error, the arguments, is opaque here. *)
Definition deployBody (client : Client) (option : option ContractDeployOption)
    (abiJSON bytecode : list Byte.byte) (constroctorParams : list Param)
    (script : list SelectEvent) : M unit :=
  match abi_UnmarshalJSON abiJSON with
  | Err err =>
      setError (WrapError err (Sprintf "unmarshal json {%+v} to ABI error"
                                       [VBytes abiJSON]))
  | Ok abi =>
      let tx := newUnsignedTransaction in
      let tx := match option with
                | Some o =>
                    set_UnsignedTransactionBase (opt_UnsignedTransactionBase o) tx
                | None => tx
                end in
      let packed : result (list Byte.byte) :=
        if (0 <? length constroctorParams)%nat then
          match abi_Pack abi EmptyString constroctorParams with
          | Err err => Err err
          | Ok input => Ok (bytecode ++ input)%list
          end
        else Ok bytecode in
      match packed with
      | Err err =>
          setError (WrapError err (Sprintf "encode constrctor with args %+v error" []))
      | Ok bytecode =>
          let tx := set_Data bytecode tx in
          p <- SendTransaction client tx ;;
          let tx := fst p in
          match snd p with
          | Err err =>
              setError (WrapError err (Sprintf "send transaction {%+v} error"
                                               [VTx tx]))
          | Ok txhash =>
              _ <- setTransactionHash txhash ;;
              timeout <- deployTimeout option ;;
              ticker <- Tick (2000 * Millisecond) ;;
              deployLoop script client abi txhash timeout ticker
          end
      end
  end.

(** [DeployContract]: the result starts empty; the goroutine runs the body
    and, deferred, sends on the done channel and closes it. *)
Definition DeployContract (client : Client) (option : option ContractDeployOption)
    (abiJSON bytecode : list Byte.byte) (constroctorParams : list Param)
    (script : list SelectEvent) : M unit := fun w =>
  let w := {| node := node w; trace := trace w;
              deployResult := {| TransactionHash := None; Error := None;
                                 DeployedContract := None |} |} in
  withDefer (deployBody client option abiJSON bytecode constroctorParams script)
            (fun w => (Returned tt, emit EvDoneClose (emit EvDoneSend w))) w.

(** ** More of the client: construction, single-hash risk, draft creation *)

(** [rpc.Dial], the collaborator that connects: no error, or the error. *)
Variable rpc_Dial : string -> option error.

(** [NewClientWithRetry] creates a retryable new instance of Client with
    specified conflux node url and retry options; the retryInterval will be
    set to 1 second if pass 0. *)
Definition NewClientWithRetry (url : string) (retryCount : Z)
    (retryInterval : Z) : result Client :=
  match rpc_Dial url with
  | Some err => Err (WrapError err (Sprintf "dail failed" []))
  | None =>
      if retryCount =? 0 then
        Ok {| nodeURL := url; requester := directRequester;
              accountManager := None |}
      else
        let retryInterval :=
          if retryInterval =? 0 then Second else retryInterval in
        Ok {| nodeURL := url;
              requester := retryRequester {| retryCount := retryCount;
                                             interval := retryInterval |};
              accountManager := None |}
  end.

(** [NewClient] creates a new instance of Client with specified conflux
    node url. *)
Definition NewClient (url : string) : result Client :=
  NewClientWithRetry url 0 0.

Definition unmarshalBlockSummary (j : Json) : result BlockSummary :=
  match j with
  | JBlockSummary b => Ok b
  | JNull => Ok zeroBlockSummary
  | _ => Err (unmarshalError j)
  end.

(** [GetBlockSummaryByHash] returns the block summary of specified
    blockHash.  If the block is not found, return nil. *)
Definition GetBlockSummaryByHash (client : Client) (blockHash : Hash)
  : M (result (option BlockSummary)) :=
  res <- rr_Call (requester client) "cfx_getBlockByHash"
                 [AHash blockHash; ABool false] ;;
  match res with
  | Err err =>
      ret (Err (WrapError err (Sprintf "rpc cfx_getBlockByHash %+v error"
                                       [VHash blockHash])))
  | Ok JNull => ret (Ok None)
  | Ok result =>
      match unmarshalBlockSummary result with
      | Err err =>
          ret (Err (WrapError err (Sprintf "UnmarshalRPCResult %+v error"
                                           [VJson result])))
      | Ok block => ret (Ok (Some block))
      end
  end.

(** [GetBlockConfirmRiskByHash] indicates the risk coefficient that the
    pivot block of the epoch where the block is located becomes an normal
    block.  Its diagnostic print to standard output is not followed. *)
Definition GetBlockConfirmRiskByHash (client : Client) (blockhash : Hash)
  : M (result Z) :=
  let args := [AHash blockhash] in
  res <- rr_Call (requester client) "cfx_getConfirmationRiskByHash" args ;;
  match res with
  | Err err =>
      ret (Err (WrapError err
                  (Sprintf "rpc cfx_getConfirmationRiskByHash %+v error"
                           [VArgs args])))
  | Ok JNull =>
      res <- GetBlockSummaryByHash client blockhash ;;
      match res with
      | Err err =>
          ret (Err (WrapError err (Sprintf "get block by hash %+v error"
                                           [VHash blockhash])))
      | Ok (Some block) =>
          match bs_EpochNumber block with
          | Some _ => ret (Ok 0)
          | None => ret (Ok MaxUint256)
          end
      | Ok None => ret (Ok MaxUint256)
      end
  | Ok result =>
      s <- assertString result ;;
      ret (hexutil.DecodeBig s)
  end.

(** [GetBlockRevertRateByHash] indicates the probability that the pivot
    block of the epoch where the block is located becomes an ordinary
    block: confirm risk coefficient / (2^256-1), as a [big.Float].  A risk
    that came without an error is never nil, so the rate is there whenever
    there is no error. *)
Definition GetBlockRevertRateByHash (client : Client) (blockHash : Hash)
  : M (result (option big.Float)) :=
  res <- GetBlockConfirmRiskByHash client blockHash ;;
  match res with
  | Err err =>
      ret (Err (WrapError err
                  (Sprintf "get block confirmation risk by hash %+v error"
                           [VHash blockHash])))
  | Ok risk =>
      let riskFloat := big.SetInt risk in
      let maxUint256Float := big.SetInt MaxUint256 in
      let riskRate := big.Quo riskFloat maxUint256Float in
      ret (Ok (Some riskRate))
  end.

(** [CreateUnsignedTransaction] creates an unsigned transaction by
    parameters, and the other fields will be set to values fetched from
    conflux node. *)
Definition CreateUnsignedTransaction (client : option Client)
    (from to : Address) (amount : option Z) (data : list Byte.byte)
  : M (result UnsignedTransaction) :=
  let tx := newUnsignedTransaction in
  let tx := set_From (Some from) tx in
  let tx := set_To (Some to) tx in
  let tx := set_Value amount tx in
  let tx := set_Data data tx in
  p <- ApplyUnsignedTransactionDefault client tx ;;
  match snd p with
  | Some err =>
      ret (Err (WrapError err
                  (Sprintf "apply default field of transaction {%+v} error"
                           [VTx (fst p)])))
  | None => ret (Ok (fst p))
  end.

End Client.

(** ** Concrete nodes and collaborators, for running the client *)

Module Scenario.

(** A node that refuses every call. *)
Definition down_call (req : Request) (n : nat) : nat * result Json :=
  (S n, Err (External "connection refused")).

Definition down_batch (reqs : list Request) (n : nat)
  : nat * result (list ElemResponse) :=
  (S n, Err (External "connection refused")).

(** A node that refuses the first [k] calls and answers from then on. *)
Definition flaky_call (k : nat) (req : Request) (n : nat) : nat * result Json :=
  (S n, if (n <? k)%nat then Err (External "connection refused")
        else Ok (JString "0x2a")).

Definition flaky_batch (k : nat) (reqs : list Request) (n : nat)
  : nat * result (list ElemResponse) :=
  (S n, if (n <? k)%nat then Err (External "connection refused")
        else Ok (map (fun _ => ElemResult (JString "0x0")) reqs)).

Definition emptyResult : @ContractDeployResult unit :=
  {| TransactionHash := None; Error := None; DeployedContract := None |}.

Definition start {Node} (n : Node) : @World Node unit :=
  {| node := n; trace := []; deployResult := emptyResult |}.

(** A node that answers: a gas price of 0, nonce 7, epoch 100, an
    estimate of 21000 gas and no storage, a hash for a raw transaction,
    and [txAnswer] for a transaction looked up by hash. *)
Definition chain_call (txAnswer : Json) (req : Request) (n : nat)
  : nat * result Json :=
  let m := req_Method req in
  (S n,
   if String.eqb m "cfx_gasPrice" then Ok (JString "0x0")
   else if String.eqb m "cfx_getNextNonce" then Ok (JString "0x7")
   else if String.eqb m "cfx_epochNumber" then Ok (JString "0x64")
   else if String.eqb m "cfx_estimateGasAndCollateral" then
     Ok (JEstimate {| est_GasUsed := Some 21000;
                      est_StorageCollateralized := Some 0 |})
   else if String.eqb m "cfx_sendRawTransaction" then Ok (JString "0x1234")
   else if String.eqb m "cfx_getTransactionByHash" then Ok txAnswer
   else Err (External "method not found")).

(** The answer to one element of a batch, from the risk and the block
    summary the node has for a hash. *)
Definition chain_elem (riskOf summaryOf : Hash -> Json) (req : Request)
  : ElemResponse :=
  let m := req_Method req in
  if String.eqb m "cfx_getConfirmationRiskByHash" then
    match req_Args req with
    | [AHash h] => ElemResult (riskOf h)
    | _ => ElemError (External "invalid params")
    end
  else if String.eqb m "cfx_getBlockByHash" then
    match req_Args req with
    | [AHash h; ABool _] => ElemResult (summaryOf h)
    | _ => ElemError (External "invalid params")
    end
  else ElemError (External "method not found").

Definition chain_batch (riskOf summaryOf : Hash -> Json) (reqs : list Request)
    (n : nat) : nat * result (list ElemResponse) :=
  (S n, Ok (map (chain_elem riskOf summaryOf) reqs)).

(** A node whose risks move while it answers a batch: the element at place
    [k] of a batch is answered with the risk [k]. *)
Definition drifting_batch (reqs : list Request) (n : nat)
  : nat * result (list ElemResponse) :=
  (S n, Ok (imap (fun k _ => ElemResult (JString (hexutil.EncodeBig (Z.of_nat k))))
                 reqs)).

(** A transaction the node knows without a status, the same mined with the
    status [s], a node that always has it without a status, and a node
    that has it mined from its state [after] on. *)
Definition pendingTx : Transaction :=
  {| txn_Hash := "0x1234"; txn_Status := None; txn_ContractCreated := None |}.

Definition minedTx (s : Z) : Transaction :=
  {| txn_Hash := "0x1234"; txn_Status := Some s;
     txn_ContractCreated := Some "0x8d10" |}.

Definition pending_call (req : Request) (n : nat) : nat * result Json :=
  (S n, Ok (JTransaction pendingTx)).

Definition mining_call (after : nat) (s : Z) (req : Request) (n : nat)
  : nat * result Json :=
  (S n, Ok (JTransaction (if (n <? after)%nat then pendingTx else minedTx s))).

(** The answering node with one method out of order. *)
Definition partial_call (bad : string) (req : Request) (n : nat)
  : nat * result Json :=
  if String.eqb (req_Method req) bad
  then (S n, Err (External "connection refused"))
  else chain_call JNull req n.

Definition noRisk (h : Hash) : Json := JNull.
Definition noSummary (h : Hash) : Json := JNull.

(** A node for which every block is certain, one whose blocks are all on
    the pivot chain at epoch 5, and one whose blocks are in no epoch. *)
Definition zeroRisk (h : Hash) : Json := JString "0x0".

Definition onPivot (h : Hash) : Json :=
  JBlockSummary {| bs_Hash := h; bs_EpochNumber := Some 5 |}.

Definition offPivot (h : Hash) : Json :=
  JBlockSummary {| bs_Hash := h; bs_EpochNumber := None |}.

(** The answering node, also asked one hash at a time for its risk and its
    block summary. *)
Definition risk_call (riskOf summaryOf : Hash -> Json) (req : Request) (n : nat)
  : nat * result Json :=
  match chain_elem riskOf summaryOf req with
  | ElemResult j => (S n, Ok j)
  | ElemError _ => chain_call JNull req n
  end.

(** An account manager with a default account, and one whose keystore is
    empty. *)
Definition keystore : AccountManagerOperator :=
  {| GetDefault := Ok (Some "0x1a2b");
     SignTransaction := fun _ => Ok [Byte.x01] |}.

Definition emptyKeystore : AccountManagerOperator :=
  {| GetDefault := Ok None;
     SignTransaction := fun _ => Err (External "no account") |}.

(** A client on the direct transport of the answering node. *)
Definition client (txAnswer : Json) (riskOf summaryOf : Hash -> Json)
    (am : option AccountManagerOperator) : @Client nat unit :=
  {| nodeURL := "http://localhost:12537";
     requester := directRequester (chain_call txAnswer)
                                  (chain_batch riskOf summaryOf);
     accountManager := am |}.

(** The minimum gas price the source's comment names, and an
    [ApplyDefault] that gives [Value] and [ChainID] a zero when unset. *)
Definition minGasprice : Z := 1.

Definition applyDefault (tx : UnsignedTransaction) : UnsignedTransaction :=
  {| tx_From := tx_From tx; tx_Nonce := tx_Nonce tx;
     tx_GasPrice := tx_GasPrice tx; tx_Gas := tx_Gas tx;
     tx_Value := match tx_Value tx with Some v => Some v | None => Some 0 end;
     tx_StorageLimit := tx_StorageLimit tx;
     tx_EpochHeight := tx_EpochHeight tx;
     tx_ChainID := match tx_ChainID tx with Some c => Some c | None => Some 0 end;
     tx_To := tx_To tx; tx_Data := tx_Data tx |}.

(** A draft with every field the resolver fills already set. *)
Definition fullTx : UnsignedTransaction :=
  {| tx_From := Some "0x19f4"; tx_Nonce := Some 3; tx_GasPrice := Some 10;
     tx_Gas := Some 50000; tx_Value := None; tx_StorageLimit := Some 64;
     tx_EpochHeight := Some 90; tx_ChainID := None; tx_To := Some "0x160e";
     tx_Data := [] |}.

Definition abiUnmarshal (abiJSON : list Byte.byte) : result unit := Ok tt.

Definition abiPack (abi : unit) (name : string) (params : list unit)
  : result (list Byte.byte) := Ok [].

End Scenario.

(** ** Vocabulary of the properties *)

Local Open Scope list_scope.

(** Every field set in [tx] has the same value in [tx']. *)
Definition keeps (tx tx' : UnsignedTransaction) : Prop :=
  (forall v, tx_From tx = Some v -> tx_From tx' = Some v)
  /\ (forall v, tx_Nonce tx = Some v -> tx_Nonce tx' = Some v)
  /\ (forall v, tx_GasPrice tx = Some v -> tx_GasPrice tx' = Some v)
  /\ (forall v, tx_Gas tx = Some v -> tx_Gas tx' = Some v)
  /\ (forall v, tx_Value tx = Some v -> tx_Value tx' = Some v)
  /\ (forall v, tx_StorageLimit tx = Some v -> tx_StorageLimit tx' = Some v)
  /\ (forall v, tx_EpochHeight tx = Some v -> tx_EpochHeight tx' = Some v)
  /\ (forall v, tx_ChainID tx = Some v -> tx_ChainID tx' = Some v)
  /\ (forall v, tx_To tx = Some v -> tx_To tx' = Some v)
  /\ (tx_Data tx <> [] -> tx_Data tx' = tx_Data tx).

(** Every field the resolver fills is set. *)
Definition populated (tx : UnsignedTransaction) : Prop :=
  is_Some (tx_From tx) /\ is_Some (tx_Nonce tx) /\ is_Some (tx_GasPrice tx)
  /\ is_Some (tx_EpochHeight tx) /\ is_Some (tx_StorageLimit tx)
  /\ is_Some (tx_Gas tx).

(** A step that, wherever it returns, has kept the set fields of [tx0]. *)
Definition Keeps {Node ABI : Type} (tx0 : UnsignedTransaction)
    (m : @M Node ABI Resolved) : Prop :=
  forall (w w' : World) p, m w = (Returned p, w') -> keeps tx0 (fst p).

(** The element asked for the hash at position [i]. *)
Definition riskElem (h : Hash) (i : nat) : BatchElem :=
  {| be_Method := "cfx_getConfirmationRiskByHash";
     be_Args := [AHash h];
     be_Result := SlotRisk i |}.

(** The elements of the risk batch for the hashes from position [i] on. *)
Fixpoint elemsFrom (i : nat) (hs : list (option Hash)) : list BatchElem :=
  match hs with
  | [] => []
  | None :: hs' => elemsFrom (S i) hs'
  | Some h :: hs' => riskElem h i :: elemsFrom (S i) hs'
  end.

(** The risk text of a position before the batch is answered. *)
Definition initialRisk (h : option Hash) : string :=
  match h with
  | None => hexutil.EncodeBig MaxUint256
  | Some _ => EmptyString
  end.

(** The risk text an answer leaves in its target. *)
Definition riskText (resp : option ElemResponse) : string :=
  match resp with
  | Some (ElemResult (JString s)) => s
  | _ => EmptyString
  end.

(** The risk texts after the batch is answered by [resps]. *)
Fixpoint answeredRisks (hs : list (option Hash)) (resps : list ElemResponse)
  : list string :=
  match hs with
  | [] => []
  | None :: hs' => hexutil.EncodeBig MaxUint256 :: answeredRisks hs' resps
  | Some _ :: hs' => riskText (head resps) :: answeredRisks hs' (tail resps)
  end.

(** The rate of a risk text, when it decodes. *)
Definition rateOf (r : string) : option Q :=
  match hexutil.DecodeBig r with
  | Ok b => Some (CalcBlockRevertRate b)
  | Err _ => None
  end.

(** The place in the risk batch of the element for position [i]. *)
Definition rank (hs : list (option Hash)) (i : nat) : nat :=
  length (filter is_Some (take i hs)).

(** The inner transport fails [k] times from the node state [n] on, then
    answers [j]. *)
Fixpoint failsThenAnswers {Node Req Ans : Type}
    (inner : Req -> Node -> Node * result Ans) (req : Req)
    (k : nat) (n : Node) (j : Ans) : Prop :=
  match k with
  | O => exists n', inner req n = (n', Ok j)
  | S k' => exists n' e, inner req n = (n', Err e)
                         /\ failsThenAnswers inner req k' n' j
  end.

(** The pauses in a trace. *)
Definition isSleep (ev : Event) : bool :=
  match ev with
  | EvSleep _ => true
  | _ => false
  end.

Definition sleeps (tr : list Event) : nat := length (filter isSleep tr).



(** The method of a call event, and the methods called in a trace. *)
Definition callMethod (ev : Event) : option string :=
  match ev with
  | EvCall req _ => Some (req_Method req)
  | _ => None
  end.

Definition callMethods (tr : list Event) : list string := omap callMethod tr.

(** A call that was answered. *)
Definition okCall (ev : Event) : Prop :=
  match ev with
  | EvCall _ (Ok _) => True
  | _ => False
  end.

(** The error at the bottom of the wrappings. *)
Fixpoint rootCause (e : error) : error :=
  match e with
  | WrapError cause _ => rootCause cause
  | _ => e
  end.

(** The methods the resolver calls, in its order. *)
Definition resolverMethods : list string :=
  ["cfx_getNextNonce"; "cfx_gasPrice"; "cfx_epochNumber";
   "cfx_estimateGasAndCollateral"].

(** What a resolver step does to the trace: it appends calls only, of the
    methods [ms] in that order; a call that fails is the last one, and the
    step then returns an error with the call's error at the bottom. *)
Definition Traced {Node ABI : Type} (ms : list string)
    (m : @M Node ABI Resolved) : Prop :=
  forall (w w' : World) out,
    m w = (out, w') ->
    exists evs,
      trace w' = trace w ++ evs
      /\ sublist (callMethods evs) ms
      /\ length (callMethods evs) = length evs
      /\ (Forall okCall evs
          \/ exists evs0 req e tx err,
               evs = evs0 ++ [EvCall req (Err e)]
               /\ Forall okCall evs0
               /\ out = Returned (tx, Some err)
               /\ rootCause err = rootCause e).

(** The node has the transaction without a status for [k] lookups from the
    state [n] on, and answers the next lookup with [t], ending in [n']. *)
Fixpoint pendingThen {Node : Type}
    (node_call : Request -> Node -> Node * result Json) (req : Request)
    (k : nat) (n : Node) (t : Transaction) (n' : Node) : Prop :=
  match k with
  | O => node_call req n = (n', Ok (JTransaction t))
  | S k' => exists n1 t0, node_call req n = (n1, Ok (JTransaction t0))
                          /\ txn_Status t0 = None
                          /\ pendingThen node_call req k' n1 t n'
  end.

(** The lookup a polling tick makes. *)
Definition lookupOf (txhash : Hash) : Request :=
  {| req_Method := "cfx_getTransactionByHash"; req_Args := [AHash txhash] |}.

(** The world after one lookup, answered [r] by the node, now in [n]. *)
Definition afterLookup {Node ABI : Type} (txhash : Hash) (w : @World Node ABI)
    (n : Node) (r : result Json) : @World Node ABI :=
  emit (EvCall (lookupOf txhash) r)
       {| node := n; trace := trace w; deployResult := deployResult w |}.

(** The result record after a tick found the status [s] on [t]. *)
Definition resultAtStatus {ABI : Type} (abi : ABI) (txhash : Hash)
    (t : Transaction) (s : Z) (res : @ContractDeployResult ABI)
  : @ContractDeployResult ABI :=
  if Uint64 s =? 1 then
    {| TransactionHash := TransactionHash res;
       Error := Some (errorsNew
         (Sprintf "transaction is packed but it is failed,the txhash is %+v"
                  [VHash txhash]));
       DeployedContract := DeployedContract res |}
  else
    {| TransactionHash := TransactionHash res;
       Error := Error res;
       DeployedContract := Some {| ct_ABI := abi;
                                   ct_Address := txn_ContractCreated t |} |}.

(** The result record after the timeout fired at [t]. *)
Definition resultAtTimeout {ABI : Type} (txhash : Hash) (t : Time)
    (res : @ContractDeployResult ABI) : @ContractDeployResult ABI :=
  {| TransactionHash := TransactionHash res;
     Error := Some (errorsNew
       (Sprintf "deploy contract time out after %v, txhash is %+v"
                [VTime t; VHash txhash]));
     DeployedContract := DeployedContract res |}.

Ltac keeps_set :=
  unfold keeps; simpl; repeat split; intros; auto; congruence.

(** Case analysis on what the code under a hypothesis branches on. *)
Ltac branch H :=
  repeat match type of H with
         | context [match ?x with _ => _ end] =>
             destruct x eqn:?; simpl in H; try discriminate H
         end.

(** ** The retrying transport: attempts and the final error *)

Section RetryProperties.

Context {Node ABI : Type}.
Variable node_call : Request -> Node -> Node * result Json.
Variable node_batch : list Request -> Node -> Node * result (list ElemResponse).
Variable r : rpcClientWithRetry.

Local Abbreviation World := (@World Node ABI).

Lemma attempts_emit (ev : Event) (w : World) :
  attempts (trace (emit ev w)) = (attempts (trace w) + (if isAttempt ev then 1 else 0))%nat.
Proof.
  unfold attempts, emit; simpl.
  rewrite filter_app, length_app. simpl.
  destruct (isAttempt ev) eqn:E.
  - rewrite filter_cons_True by (rewrite E; exact I). reflexivity.
  - rewrite filter_cons_False by (rewrite E; auto). reflexivity.
Qed.

Lemma last_emit (ev : Event) (w : World) : last (trace (emit ev w)) = Some ev.
Proof. unfold emit; simpl. apply last_snoc. Qed.

(** The pause between two attempts is no attempt. *)
Lemma pause_attempts (w : World) :
  exists w', (if 0 <? interval r then Sleep (interval r) else ret tt) w = (Returned tt, w')
             /\ attempts (trace w') = attempts (trace w).
Proof.
  destruct (0 <? interval r).
  - eexists; split; [reflexivity|]. rewrite attempts_emit. simpl. lia.
  - eexists; split; [reflexivity|]. reflexivity.
Qed.

Section Single.

Variables (method : string) (args : list Arg).

Let req := {| req_Method := method; req_Args := args |}.
Let msg := Sprintf "timeout when call %v with args %v" [VString method; VArgs args].

Hypothesis always_fails : forall n, exists n' e, node_call req n = (n', Err e).

Lemma rpcClient_Call_fails (w : World) :
  exists e w', rpcClient_Call node_call method args w = (Returned (Err e), w')
               /\ attempts (trace w') = S (attempts (trace w))
               /\ last (trace w') = Some (EvCall req (Err e)).
Proof.
  destruct (always_fails (node w)) as (n' & e & H).
  exists e. eexists. unfold rpcClient_Call. fold req. rewrite H.
  split; [reflexivity|]. split.
  - rewrite attempts_emit. simpl. unfold attempts. simpl. lia.
  - apply last_emit.
Qed.

Lemma Call_loop_exhausts (fuel : nat) :
  forall (remain : Z) (w : World),
    0 < remain -> (Z.to_nat remain <= fuel)%nat ->
    exists e w',
      Call_loop node_call fuel r method args remain w
        = (Returned (Err (WrapError e msg)), w')
      /\ attempts (trace w') = (attempts (trace w) + Z.to_nat remain)%nat
      /\ last (trace w') = Some (EvCall req (Err e)).
Proof.
  induction fuel as [|fuel IH]; intros remain w Hpos Hfuel; [lia|].
  destruct (rpcClient_Call_fails w) as (e & w1 & Hc & Ha & Hl).
  simpl. unfold bind at 1. rewrite Hc.
  destruct (remain - 1 =? 0) eqn:E.
  - apply Z.eqb_eq in E. exists e, w1. split; [reflexivity|]. split; [|exact Hl].
    rewrite Ha. replace remain with 1 by lia. simpl. lia.
  - apply Z.eqb_neq in E.
    destruct (pause_attempts w1) as (w2 & Hp & Hpa).
    unfold bind at 1. rewrite Hp.
    destruct (IH (remain - 1) w2) as (e' & w' & Hr & Ha' & Hl'); [lia|lia|].
    exists e', w'. split; [exact Hr|]. split; [|exact Hl'].
    rewrite Ha', Hpa, Ha. lia.
Qed.

Lemma Call_exhausts (w : World) :
  0 <= retryCount r ->
  exists e w',
    Call node_call r method args w
      = (Returned (Err (if retryCount r =? 0 then e else WrapError e msg)), w')
    /\ attempts (trace w') = (attempts (trace w) + Z.to_nat (retryCount r) + 1)%nat
    /\ last (trace w') = Some (EvCall req (Err e)).
Proof.
  intros Hn.
  destruct (rpcClient_Call_fails w) as (e & w1 & Hc & Ha & Hl).
  unfold Call, bind. rewrite Hc.
  destruct (retryCount r <=? 0) eqn:E.
  - apply Z.leb_le in E. assert (retryCount r = 0) as -> by lia.
    exists e, w1. simpl. split; [reflexivity|]. split; [lia|exact Hl].
  - apply Z.leb_gt in E.
    destruct (Call_loop_exhausts (Z.to_nat (retryCount r)) (retryCount r) w1)
      as (e' & w' & Hr & Ha' & Hl'); [lia|lia|].
    exists e', w'. rewrite Hr.
    destruct (retryCount r =? 0) eqn:E0; [apply Z.eqb_eq in E0; lia|].
    split; [reflexivity|]. split; [lia|exact Hl'].
Qed.

End Single.

Section Batch.

Variable b : list BatchElem.

Let msg := Sprintf "timeout when batch call %+v" [VBatch b].

Hypothesis always_fails :
  forall n, exists n' e, node_batch (map requestOf b) n = (n', Err e).

Lemma rpcClient_BatchCall_fails (w : World) :
  exists e w', rpcClient_BatchCall node_batch b w = (Returned (Err e), w')
               /\ attempts (trace w') = S (attempts (trace w))
               /\ last (trace w') = Some (EvBatchCall b (Err e)).
Proof.
  destruct (always_fails (node w)) as (n' & e & H).
  exists e. eexists. unfold rpcClient_BatchCall. rewrite H.
  split; [reflexivity|]. split.
  - rewrite attempts_emit. simpl. unfold attempts. simpl. lia.
  - apply last_emit.
Qed.

Lemma BatchCall_loop_exhausts (fuel : nat) :
  forall (remain : Z) (w : World),
    0 < remain -> (Z.to_nat remain <= fuel)%nat ->
    exists e w',
      BatchCall_loop node_batch fuel r b remain w
        = (Returned (Err (WrapError e msg)), w')
      /\ attempts (trace w') = (attempts (trace w) + Z.to_nat remain)%nat
      /\ last (trace w') = Some (EvBatchCall b (Err e)).
Proof.
  induction fuel as [|fuel IH]; intros remain w Hpos Hfuel; [lia|].
  destruct (rpcClient_BatchCall_fails w) as (e & w1 & Hc & Ha & Hl).
  simpl. unfold bind at 1. rewrite Hc.
  destruct (remain - 1 =? 0) eqn:E.
  - apply Z.eqb_eq in E. exists e, w1. split; [reflexivity|]. split; [|exact Hl].
    rewrite Ha. replace remain with 1 by lia. simpl. lia.
  - apply Z.eqb_neq in E.
    destruct (pause_attempts w1) as (w2 & Hp & Hpa).
    unfold bind at 1. rewrite Hp.
    destruct (IH (remain - 1) w2) as (e' & w' & Hr & Ha' & Hl'); [lia|lia|].
    exists e', w'. split; [exact Hr|]. split; [|exact Hl'].
    rewrite Ha', Hpa, Ha. lia.
Qed.

Lemma BatchCall_exhausts (w : World) :
  0 <= retryCount r ->
  exists e w',
    BatchCall node_batch r b w
      = (Returned (Err (if retryCount r =? 0 then e else WrapError e msg)), w')
    /\ attempts (trace w') = (attempts (trace w) + Z.to_nat (retryCount r) + 1)%nat
    /\ last (trace w') = Some (EvBatchCall b (Err e)).
Proof.
  intros Hn.
  destruct (rpcClient_BatchCall_fails w) as (e & w1 & Hc & Ha & Hl).
  unfold BatchCall, bind. rewrite Hc.
  destruct (retryCount r <=? 0) eqn:E.
  - apply Z.leb_le in E. assert (retryCount r = 0) as -> by lia.
    exists e, w1. simpl. split; [reflexivity|]. split; [lia|exact Hl].
  - apply Z.leb_gt in E.
    destruct (BatchCall_loop_exhausts (Z.to_nat (retryCount r)) (retryCount r) w1)
      as (e' & w' & Hr & Ha' & Hl'); [lia|lia|].
    exists e', w'. rewrite Hr.
    destruct (retryCount r =? 0) eqn:E0; [apply Z.eqb_eq in E0; lia|].
    split; [reflexivity|]. split; [lia|exact Hl'].
Qed.

End Batch.

End RetryProperties.

(** C4, as amended: for every retry budget N >= 0 and an inner transport
    that fails on every attempt, one [Call] and one [BatchCall] each return
    an error after exactly N + 1 attempts on the inner transport.  With
    N >= 1 the error wraps the error of the last attempt with the timeout
    message that carries the method and arguments (or the batch); with
    N = 0 the only attempt's error is returned as it is, not wrapped. *)
Theorem retry_makes_N_plus_1_attempts
    {Node ABI : Type}
    (node_call : Request -> Node -> Node * result Json)
    (node_batch : list Request -> Node -> Node * result (list ElemResponse))
    (r : rpcClientWithRetry) (method : string) (args : list Arg)
    (b : list BatchElem) (w : @World Node ABI) :
  0 <= retryCount r ->
  (forall n, exists n' e,
      node_call {| req_Method := method; req_Args := args |} n = (n', Err e)) ->
  (forall n, exists n' e, node_batch (map requestOf b) n = (n', Err e)) ->
  (exists e w',
      Call node_call r method args w
        = (Returned (Err (if retryCount r =? 0 then e
                          else WrapError e
                                 (Sprintf "timeout when call %v with args %v"
                                          [VString method; VArgs args]))), w')
      /\ attempts (trace w') = (attempts (trace w) + Z.to_nat (retryCount r) + 1)%nat
      /\ last (trace w')
         = Some (EvCall {| req_Method := method; req_Args := args |} (Err e)))
  /\
  (exists e w',
      BatchCall node_batch r b w
        = (Returned (Err (if retryCount r =? 0 then e
                          else WrapError e
                                 (Sprintf "timeout when batch call %+v" [VBatch b]))),
           w')
      /\ attempts (trace w') = (attempts (trace w) + Z.to_nat (retryCount r) + 1)%nat
      /\ last (trace w') = Some (EvBatchCall b (Err e))).
Proof.
  intros Hn Hc Hb. split.
  - apply Call_exhausts; assumption.
  - apply BatchCall_exhausts; assumption.
Qed.

Lemma retry_makes_N_plus_1_attempts_witness :
  let r := {| retryCount := 2; interval := 0 |} in
  let b := [{| be_Method := "cfx_getConfirmationRiskByHash";
               be_Args := [AHash "0xaa"]; be_Result := SlotRisk 0 |}] in
  let w := Scenario.start 0%nat in
  0 <= retryCount r
  /\ (exists e w',
        Call Scenario.down_call r "cfx_gasPrice" [] w
          = (Returned (Err (WrapError e
                              (Sprintf "timeout when call %v with args %v"
                                       [VString "cfx_gasPrice"; VArgs []]))), w')
        /\ attempts (trace w') = 3%nat)
  /\ (exists e w',
        BatchCall Scenario.down_batch r b w
          = (Returned (Err (WrapError e (Sprintf "timeout when batch call %+v"
                                                 [VBatch b]))), w')
        /\ attempts (trace w') = 3%nat).
Proof.
  intros r b w.
  assert (H0 : 0 <= retryCount r) by (simpl; lia).
  destruct (retry_makes_N_plus_1_attempts Scenario.down_call Scenario.down_batch
              r "cfx_gasPrice" [] b w H0
              (fun n => ex_intro _ (S n) (ex_intro _ _ eq_refl))
              (fun n => ex_intro _ (S n) (ex_intro _ _ eq_refl)))
    as [(e1 & w1 & Hc & Ha & _) (e2 & w2 & Hb & Hb' & _)].
  split; [exact H0|]. split.
  - exists e1, w1. split; [exact Hc | exact Ha].
  - exists e2, w2. split; [exact Hb | exact Hb'].
Defined.

(** C4 as stated fails: with a budget of 0 the error that comes back is the
    inner transport's own error, it is not wrapped with the method and the
    arguments. *)
Lemma retry_budget_zero_not_wrapped :
  ~ (forall N : Z, 0 <= N ->
       exists e w',
         Call Scenario.down_call {| retryCount := N; interval := 0 |}
              "cfx_gasPrice" [] (Scenario.start 0%nat)
         = (Returned (Err (WrapError e
                             (Sprintf "timeout when call %v with args %v"
                                      [VString "cfx_gasPrice"; VArgs []]))), w')).
Proof.
  intros H. destruct (H 0 ltac:(lia)) as (e & w' & Heq).
  vm_compute in Heq. discriminate Heq.
Qed.

(** ** Default resolution: fields that are set stay as they are *)

Lemma keeps_refl tx : keeps tx tx.
Proof. unfold keeps; repeat split; auto. Qed.

Lemma keeps_trans tx1 tx2 tx3 : keeps tx1 tx2 -> keeps tx2 tx3 -> keeps tx1 tx3.
Proof.
  unfold keeps.
  intros (a1 & a2 & a3 & a4 & a5 & a6 & a7 & a8 & a9 & a10)
         (b1 & b2 & b3 & b4 & b5 & b6 & b7 & b8 & b9 & b10).
  repeat split; intros; auto.
  rewrite b10; [auto|]. rewrite a10; auto.
Qed.

Section ResolverProperties.

Context {Node ABI : Type}.
Variable MinGasprice : Z.
Variable ApplyDefault : UnsignedTransaction -> UnsignedTransaction.
Variable client : @Client Node ABI.

Local Abbreviation World := (@World Node ABI).
Local Abbreviation M := (@M Node ABI).

Lemma andThen_Keeps tx0 (m : M Resolved) (k : UnsignedTransaction -> M Resolved) :
  Keeps tx0 m -> (forall tx, keeps tx0 tx -> Keeps tx0 (k tx)) ->
  Keeps tx0 (andThen m k).
Proof.
  intros Hm Hk w w' p H. unfold andThen, bind in H.
  destruct (m w) as [[q| |] w1] eqn:E; try discriminate H.
  specialize (Hm _ _ _ E).
  destruct (snd q) eqn:Es.
  - inversion H; subst. exact Hm.
  - exact (Hk _ Hm _ _ _ H).
Qed.

Lemma resolveFrom_Keeps tx : Keeps tx (resolveFrom client tx).
Proof.
  intros w w' p H. unfold resolveFrom, ret in H. branch H;
    inversion H; subst; simpl; try apply keeps_refl; keeps_set.
Qed.

Lemma resolveNonce_Keeps tx : Keeps tx (resolveNonce client tx).
Proof.
  intros w w' p H.
  unfold resolveNonce, GetNextNonce, assertString, bind, lift, ret, panic in H.
  branch H; inversion H; subst; simpl; try apply keeps_refl; keeps_set.
Qed.

Lemma resolveGasPrice_Keeps tx : Keeps tx (resolveGasPrice MinGasprice client tx).
Proof.
  intros w w' p H.
  unfold resolveGasPrice, GetGasPrice, assertString, bind, lift, ret, panic in H.
  branch H; inversion H; subst; simpl; try apply keeps_refl; keeps_set.
Qed.

Lemma resolveEpochHeight_Keeps tx : Keeps tx (resolveEpochHeight client tx).
Proof.
  intros w w' p H.
  unfold resolveEpochHeight, GetEpochNumber, assertString, bind, lift, ret, panic in H.
  branch H; inversion H; subst; simpl; try apply keeps_refl; keeps_set.
Qed.

Lemma resolveGasAndStorage_Keeps tx : Keeps tx (resolveGasAndStorage client tx).
Proof.
  intros w w' p H.
  unfold resolveGasAndStorage, EstimateGasAndCollateral, bind, lift, ret, panic in H.
  branch H; inversion H; subst; simpl; try apply keeps_refl; keeps_set.
Qed.

Hypothesis ApplyDefault_keeps : forall tx, keeps tx (ApplyDefault tx).

Lemma ApplyUnsignedTransactionDefault_Keeps tx :
  Keeps tx (ApplyUnsignedTransactionDefault MinGasprice ApplyDefault
              (Some client) tx).
Proof.
  unfold ApplyUnsignedTransactionDefault.
  apply andThen_Keeps; [apply resolveFrom_Keeps|]. intros tx1 K1.
  apply andThen_Keeps;
    [intros w w' p H; eapply keeps_trans; [exact K1|];
     eapply resolveNonce_Keeps; exact H|].
  intros tx2 K2.
  apply andThen_Keeps;
    [intros w w' p H; eapply keeps_trans; [exact K2|];
     eapply resolveGasPrice_Keeps; exact H|].
  intros tx3 K3.
  apply andThen_Keeps;
    [intros w w' p H; eapply keeps_trans; [exact K3|];
     eapply resolveEpochHeight_Keeps; exact H|].
  intros tx4 K4.
  apply andThen_Keeps;
    [intros w w' p H; eapply keeps_trans; [exact K4|];
     eapply resolveGasAndStorage_Keeps; exact H|].
  intros tx5 K5 w w' p H. inversion H; subst; simpl.
  eapply keeps_trans; [exact K5|apply ApplyDefault_keeps].
Qed.

Lemma populated_no_call (c : option Client) tx (w : World) :
  populated tx ->
  exists tx', ApplyUnsignedTransactionDefault MinGasprice ApplyDefault c tx w
              = (Returned (tx', None), w).
Proof.
  intros (Hf & Hn & Hg & He & Hs & Hgas).
  destruct tx as [f n g gas v sl eh ch to d]; simpl in *.
  destruct Hf as [? ->], Hn as [? ->], Hg as [? ->], He as [? ->],
           Hs as [? ->], Hgas as [? ->].
  destruct c as [c|]; eexists; reflexivity.
Qed.

(** What [andThen] returned without an error came through both parts. *)
Lemma andThen_ok (m : M Resolved) (k : UnsignedTransaction -> M Resolved)
    (w w' : World) p :
  andThen m k w = (Returned p, w') -> snd p = None ->
  exists q w1, m w = (Returned q, w1) /\ snd q = None
               /\ k (fst q) w1 = (Returned p, w').
Proof.
  intros H Hp. unfold andThen, bind in H.
  destruct (m w) as [[q| |] w1] eqn:E; try discriminate H.
  destruct (snd q) eqn:Es.
  - inversion H; subst. simpl in Hp. discriminate Hp.
  - exists q, w1. auto.
Qed.

Lemma floor_is_max (price : Z) :
  (if Cmp price MinGasprice <? 1 then MinGasprice else price)
  = Z.max price MinGasprice.
Proof.
  unfold Cmp. destruct (Z.compare_spec price MinGasprice); simpl; lia.
Qed.

(** The gas price step on an unset price: the node's price, raised to the
    minimum. *)
Lemma resolveGasPrice_floor tx (w w1 : World) (price : Z) :
  tx_GasPrice tx = None ->
  GetGasPrice client w = (Returned (Ok price), w1) ->
  resolveGasPrice MinGasprice client tx w
  = (Returned (set_GasPrice (Some (Z.max price MinGasprice)) tx, None), w1).
Proof.
  intros Hnone Hget. unfold resolveGasPrice. rewrite Hnone.
  unfold bind. rewrite Hget. rewrite floor_is_max. reflexivity.
Qed.

Lemma resolveGasPrice_ok tx (w w' : World) p :
  tx_GasPrice tx = None ->
  resolveGasPrice MinGasprice client tx w = (Returned p, w') -> snd p = None ->
  exists price, GetGasPrice client w = (Returned (Ok price), w')
                /\ fst p = set_GasPrice (Some (Z.max price MinGasprice)) tx.
Proof.
  intros Hnone H Hp. unfold resolveGasPrice in H. rewrite Hnone in H.
  unfold bind in H.
  destruct (GetGasPrice client w) as [[[price|e]| |] w1] eqn:E;
    try discriminate H.
  - rewrite floor_is_max in H. inversion H; subst. exists price. auto.
  - inversion H; subst. discriminate Hp.
Qed.

Lemma resolveFrom_GasPrice tx (w w' : World) p :
  resolveFrom client tx w = (Returned p, w') ->
  tx_GasPrice (fst p) = tx_GasPrice tx.
Proof.
  intros H. unfold resolveFrom, ret in H. branch H; inversion H; subst; reflexivity.
Qed.

Lemma resolveNonce_GasPrice tx (w w' : World) p :
  resolveNonce client tx w = (Returned p, w') ->
  tx_GasPrice (fst p) = tx_GasPrice tx.
Proof.
  intros H.
  unfold resolveNonce, GetNextNonce, assertString, bind, lift, ret, panic in H.
  branch H; inversion H; subst; reflexivity.
Qed.

End ResolverProperties.

(** C6: default resolution never overwrites a field that was set on entry
    (wherever it returns, with or without an error, every field that was
    set has its value), and on a draft whose resolvable fields are all set
    it returns without error and leaves the world as it was: no call is
    made.  [ApplyDefault], which is not part of the sources at hand, is
    taken to keep set fields as well. *)
Theorem resolution_keeps_set_fields
    {Node ABI : Type} (MinGasprice : Z)
    (ApplyDefault : UnsignedTransaction -> UnsignedTransaction)
    (client : option (@Client Node ABI)) (tx : UnsignedTransaction)
    (w : @World Node ABI) :
  (forall t, keeps t (ApplyDefault t)) ->
  (forall p w',
      ApplyUnsignedTransactionDefault MinGasprice ApplyDefault client tx w
      = (Returned p, w') -> keeps tx (fst p))
  /\ (populated tx ->
      exists tx',
        ApplyUnsignedTransactionDefault MinGasprice ApplyDefault client tx w
        = (Returned (tx', None), w)).
Proof.
  intros HA. split.
  - intros p w' H. destruct client as [c|].
    + exact (ApplyUnsignedTransactionDefault_Keeps MinGasprice ApplyDefault c HA
               tx w w' p H).
    + inversion H; subst. apply keeps_refl.
  - apply populated_no_call.
Qed.

Lemma applyDefault_keeps t : keeps t (Scenario.applyDefault t).
Proof.
  unfold keeps, Scenario.applyDefault; simpl.
  repeat split; intros; auto.
  - rewrite H. reflexivity.
  - rewrite H. reflexivity.
Defined.

Lemma populated_fullTx : populated Scenario.fullTx.
Proof. unfold populated; simpl. repeat split; eexists; reflexivity. Defined.

Lemma resolution_keeps_set_fields_witness :
  let c := Some (Scenario.client JNull Scenario.noRisk Scenario.noSummary None) in
  let w := Scenario.start 0%nat in
  (forall t, keeps t (Scenario.applyDefault t))
  /\ populated Scenario.fullTx
  /\ (forall p w',
        ApplyUnsignedTransactionDefault Scenario.minGasprice Scenario.applyDefault
          c Scenario.fullTx w = (Returned p, w') -> keeps Scenario.fullTx (fst p))
  /\ (exists tx',
        ApplyUnsignedTransactionDefault Scenario.minGasprice Scenario.applyDefault
          c Scenario.fullTx w = (Returned (tx', None), w)).
Proof.
  intros c w.
  destruct (resolution_keeps_set_fields Scenario.minGasprice Scenario.applyDefault
              c Scenario.fullTx w applyDefault_keeps) as [H1 H2].
  split; [exact applyDefault_keeps|].
  split; [exact populated_fullTx|].
  split; [exact H1|exact (H2 populated_fullTx)].
Defined.

(** C5: in default resolution with [gasPrice] unset, the price the node
    reports is raised to the minimum: the gas price step sets
    max(node price, minimum), and a resolution that returns without error
    leaves that value in the draft; below the minimum it is the minimum, at
    or above it the node's value.  [ApplyDefault], which is not part of the
    sources at hand, is taken to keep set fields. *)
Theorem gas_price_is_floored
    {Node ABI : Type} (MinGasprice : Z)
    (ApplyDefault : UnsignedTransaction -> UnsignedTransaction)
    (client : @Client Node ABI) (tx : UnsignedTransaction) :
  (forall t, keeps t (ApplyDefault t)) ->
  tx_GasPrice tx = None ->
  (forall (w w1 : World) price,
      GetGasPrice client w = (Returned (Ok price), w1) ->
      resolveGasPrice MinGasprice client tx w
      = (Returned (set_GasPrice (Some (Z.max price MinGasprice)) tx, None), w1))
  /\ (forall (w w' : World) p,
        ApplyUnsignedTransactionDefault MinGasprice ApplyDefault (Some client) tx w
        = (Returned p, w') ->
        snd p = None ->
        exists (w1 w2 : World) price,
          GetGasPrice client w1 = (Returned (Ok price), w2)
          /\ tx_GasPrice (fst p) = Some (Z.max price MinGasprice)
          /\ (price < MinGasprice -> tx_GasPrice (fst p) = Some MinGasprice)
          /\ (MinGasprice <= price -> tx_GasPrice (fst p) = Some price)).
Proof.
  intros HA Hnone. split.
  - intros w w1 price Hget. apply resolveGasPrice_floor; assumption.
  - intros w w' p H Hp. unfold ApplyUnsignedTransactionDefault in H.
    apply andThen_ok in H; [|exact Hp]. destruct H as (q1 & w1 & H1 & _ & H).
    apply andThen_ok in H; [|exact Hp]. destruct H as (q2 & w2 & H2 & _ & H).
    apply andThen_ok in H; [|exact Hp]. destruct H as (q3 & w3 & H3 & E3 & H).
    apply resolveFrom_GasPrice in H1. apply resolveNonce_GasPrice in H2.
    apply resolveGasPrice_ok in H3; [|congruence|exact E3].
    destruct H3 as (price & Hget & Hq3).
    assert (K : keeps (fst q3) (fst p)).
    { revert H. generalize w3 w' p. clear -HA. intros w3 w' p.
      apply (andThen_Keeps (fst q3)).
      - apply resolveEpochHeight_Keeps.
      - intros tx4 K4. apply andThen_Keeps.
        + intros v v' r Hr. eapply keeps_trans; [exact K4|].
          eapply resolveGasAndStorage_Keeps; exact Hr.
        + intros tx5 K5 v v' r Hr. inversion Hr; subst; simpl.
          eapply keeps_trans; [exact K5|apply HA]. }
    destruct K as (_ & _ & Kg & _).
    specialize (Kg (Z.max price MinGasprice)).
    rewrite Hq3 in Kg. simpl in Kg. specialize (Kg eq_refl).
    exists w2, w3, price. split; [exact Hget|]. split; [exact Kg|].
    split; intros Hc; rewrite Kg; f_equal; lia.
Qed.

Lemma gas_price_is_floored_witness :
  let c := Scenario.client JNull Scenario.noRisk Scenario.noSummary
                           (Some Scenario.keystore) in
  (forall t, keeps t (Scenario.applyDefault t))
  /\ tx_GasPrice newUnsignedTransaction = None
  /\ exists p w',
       ApplyUnsignedTransactionDefault Scenario.minGasprice Scenario.applyDefault
         (Some c) newUnsignedTransaction (Scenario.start 0%nat) = (Returned p, w')
       /\ snd p = None
       /\ exists (w1 w2 : World) price,
            GetGasPrice c w1 = (Returned (Ok price), w2)
            /\ tx_GasPrice (fst p) = Some (Z.max price Scenario.minGasprice).
Proof.
  intros c.
  destruct (gas_price_is_floored Scenario.minGasprice Scenario.applyDefault c
              newUnsignedTransaction applyDefault_keeps eq_refl) as [_ Hrun].
  split; [exact applyDefault_keeps|]. split; [reflexivity|].
  destruct (ApplyUnsignedTransactionDefault Scenario.minGasprice
              Scenario.applyDefault (Some c) newUnsignedTransaction
              (Scenario.start 0%nat)) as [[p| |] w'] eqn:E;
    [|vm_compute in E; discriminate E|vm_compute in E; discriminate E].
  assert (Hp : snd p = None).
  { vm_compute in E. inversion E; subst. reflexivity. }
  exists p, w'. split; [reflexivity|]. split; [exact Hp|].
  destruct (Hrun _ _ _ E Hp) as (w1 & w2 & price & Hg & Hv & _).
  exists w1, w2, price. split; [exact Hg|exact Hv].
Defined.

(** ** Default resolution without a default identity *)

(** An account manager whose keystore is empty is reported, and nothing
    is asked of the node. *)
Lemma empty_keystore_is_reported
    {Node ABI : Type} (MinGasprice : Z)
    (ApplyDefault : UnsignedTransaction -> UnsignedTransaction)
    (client : @Client Node ABI) (am : AccountManagerOperator)
    (tx : UnsignedTransaction) (w : World) :
  accountManager client = Some am -> GetDefault am = Ok None ->
  tx_From tx = None ->
  ApplyUnsignedTransactionDefault MinGasprice ApplyDefault (Some client) tx w
  = (Returned (tx, Some (errorsNew
                           (Sprintf "no account exist in keystore directory" []))),
     w).
Proof.
  intros Ham Hdef Hfrom.
  unfold ApplyUnsignedTransactionDefault, andThen, bind, resolveFrom.
  rewrite Hfrom, Ham, Hdef. reflexivity.
Qed.

(** C3 on the code, at a client without an account manager and a draft
    without [from]: with the nonce unset the resolver panics on the nil
    [from] before any call; with the nonce set it goes on through the later
    steps (gas price, epoch, estimate) and returns no error, [from] still
    unset.  No "no default identity" error is returned in either case. *)
Theorem no_account_manager_is_not_reported :
  let c := Scenario.client JNull Scenario.noRisk Scenario.noSummary None in
  let run := ApplyUnsignedTransactionDefault Scenario.minGasprice
               Scenario.applyDefault (Some c) in
  run newUnsignedTransaction (Scenario.start 0%nat)
  = (Panicked "invalid memory address or nil pointer dereference",
     Scenario.start 0%nat)
  /\ exists tx' w',
       run (set_Nonce (Some 3) newUnsignedTransaction) (Scenario.start 0%nat)
       = (Returned (tx', None), w')
       /\ tx_From tx' = None
       /\ attempts (trace w') = 3%nat.
Proof.
  split.
  - vm_compute. reflexivity.
  - eexists. eexists. split; [vm_compute; reflexivity|].
    split; reflexivity.
Qed.

(** C7 on the code, at a client without an account manager and a draft
    with the nonce set but [from] and [gas] unset: the estimation call is
    made, and its request carries no [from]. *)
Theorem estimate_is_attempted_without_from :
  let c := Scenario.client JNull Scenario.noRisk Scenario.noSummary None in
  exists tx' w' callReq answer,
    ApplyUnsignedTransactionDefault Scenario.minGasprice Scenario.applyDefault
      (Some c) (set_Nonce (Some 3) newUnsignedTransaction) (Scenario.start 0%nat)
    = (Returned (tx', None), w')
    /\ last (trace w')
       = Some (EvCall {| req_Method := "cfx_estimateGasAndCollateral";
                         req_Args := [ACallRequest callReq] |} answer)
    /\ cr_From callReq = None
    /\ tx_From tx' = None.
Proof.
  do 4 eexists. split; [vm_compute; reflexivity|].
  split; [reflexivity|]. split; reflexivity.
Qed.

(** ** Default resolution: the estimate comes last *)

Section OrderProperties.

Context {Node ABI : Type}.
Variable MinGasprice : Z.
Variable ApplyDefault : UnsignedTransaction -> UnsignedTransaction.
Variable client : @Client Node ABI.

Lemma resolveFrom_sets tx (w w' : @World Node ABI) q :
  resolveFrom client tx w = (Returned q, w') -> snd q = None ->
  is_Some (tx_From tx) \/ is_Some (accountManager client) ->
  is_Some (tx_From (fst q)).
Proof.
  intros H Hq Hcan. unfold resolveFrom, ret in H.
  branch H; inversion H; subst; simpl in *; try discriminate Hq;
    try (eexists; reflexivity).
  - rewrite Heqo. eexists; reflexivity.
  - destruct Hcan as [[? Hc]|[? Hc]]; discriminate Hc.
Qed.

Lemma resolveNonce_sets tx (w w' : @World Node ABI) q :
  resolveNonce client tx w = (Returned q, w') -> snd q = None ->
  is_Some (tx_Nonce (fst q)).
Proof.
  intros H Hq.
  unfold resolveNonce, GetNextNonce, assertString, bind, lift, ret, panic in H.
  branch H; inversion H; subst; simpl in *; try discriminate Hq;
    try (eexists; reflexivity).
  rewrite Heqo. eexists; reflexivity.
Qed.

Lemma resolveGasPrice_sets tx (w w' : @World Node ABI) q :
  resolveGasPrice MinGasprice client tx w = (Returned q, w') -> snd q = None ->
  is_Some (tx_GasPrice (fst q)).
Proof.
  intros H Hq.
  unfold resolveGasPrice, GetGasPrice, assertString, bind, lift, ret, panic in H.
  branch H; inversion H; subst; simpl in *; try discriminate Hq;
    try (eexists; reflexivity).
  rewrite Heqo. eexists; reflexivity.
Qed.

Lemma resolveEpochHeight_sets tx (w w' : @World Node ABI) q :
  resolveEpochHeight client tx w = (Returned q, w') -> snd q = None ->
  is_Some (tx_EpochHeight (fst q)).
Proof.
  intros H Hq.
  unfold resolveEpochHeight, GetEpochNumber, assertString, bind, lift, ret, panic in H.
  branch H; inversion H; subst; simpl in *; try discriminate Hq;
    try (eexists; reflexivity).
  rewrite Heqo. eexists; reflexivity.
Qed.

(** In a resolution that returns without error, the estimation step runs
    on a draft whose nonce, gas price and epoch height are set, and whose
    [from] is set when it was set on entry or an account manager is
    configured; its request is filled from that draft. *)
Lemma estimate_after_the_other_fields tx (w w' : @World Node ABI) p :
  ApplyUnsignedTransactionDefault MinGasprice ApplyDefault (Some client) tx w
  = (Returned p, w') ->
  snd p = None ->
  exists tx4 (w4 : @World Node ABI) q5,
    resolveGasAndStorage client tx4 w4 = (Returned q5, w')
    /\ p = (ApplyDefault (fst q5), None)
    /\ is_Some (tx_Nonce tx4) /\ is_Some (tx_GasPrice tx4)
    /\ is_Some (tx_EpochHeight tx4)
    /\ (is_Some (tx_From tx) \/ is_Some (accountManager client) ->
        is_Some (tx_From tx4)).
Proof.
  intros H Hp. unfold ApplyUnsignedTransactionDefault in H.
  apply andThen_ok in H; [|exact Hp]. destruct H as (q1 & w1 & H1 & E1 & H).
  apply andThen_ok in H; [|exact Hp]. destruct H as (q2 & w2 & H2 & E2 & H).
  apply andThen_ok in H; [|exact Hp]. destruct H as (q3 & w3 & H3 & E3 & H).
  apply andThen_ok in H; [|exact Hp]. destruct H as (q4 & w4 & H4 & E4 & H).
  apply andThen_ok in H; [|exact Hp]. destruct H as (q5 & w5 & H5 & E5 & H).
  inversion H; subst p w'. clear H.
  pose proof (resolveNonce_Keeps client _ _ _ _ H2) as K2.
  pose proof (resolveGasPrice_Keeps MinGasprice client _ _ _ _ H3) as K3.
  pose proof (resolveEpochHeight_Keeps client _ _ _ _ H4) as K4.
  pose proof (keeps_trans _ _ _ K3 K4) as K34.
  pose proof (keeps_trans _ _ _ K2 K34) as K234.
  exists (fst q4), w4, q5. split; [exact H5|]. split; [reflexivity|].
  split; [|split; [|split]].
  - destruct (resolveNonce_sets _ _ _ _ H2 E2) as [v Hv].
    destruct K34 as (_ & Kn & _). exists v. exact (Kn _ Hv).
  - destruct (resolveGasPrice_sets _ _ _ _ H3 E3) as [v Hv].
    destruct K4 as (_ & _ & Kg & _). exists v. exact (Kg _ Hv).
  - exact (resolveEpochHeight_sets _ _ _ _ H4 E4).
  - intros Hcan.
    destruct (resolveFrom_sets _ _ _ _ H1 E1 Hcan) as [v Hv].
    destruct K234 as (Kf & _). exists v. exact (Kf _ Hv).
Qed.

End OrderProperties.

(** ** The deployment workflow: a polling tick, the timeout, the outcome *)

Section TickProperties.

Context {Node ABI : Type}.
Variable client : @Client Node ABI.
Variables (abi : ABI) (txhash : Hash).

(** A tick whose lookup succeeds with no transaction dereferences the nil
    transaction. *)
Lemma tick_absent_panics (w w1 : World) :
  rr_Call (requester client) "cfx_getTransactionByHash" [AHash txhash] w
  = (Returned (Ok JNull), w1) ->
  onTick client abi txhash w
  = (Panicked "invalid memory address or nil pointer dereference", w1).
Proof.
  intros H. unfold onTick, GetTransactionByHash, bind. rewrite H. reflexivity.
Qed.

(** A tick that finds the transaction with its status unset changes
    nothing and lets the loop go on. *)
Lemma tick_status_unset_continues (w w1 : World) (t : Transaction) :
  rr_Call (requester client) "cfx_getTransactionByHash" [AHash txhash] w
  = (Returned (Ok (JTransaction t)), w1) ->
  txn_Status t = None ->
  onTick client abi txhash w = (Returned false, w1).
Proof.
  intros H Hs. unfold onTick, GetTransactionByHash, bind. rewrite H. simpl.
  unfold bind, lift. simpl. rewrite Hs. reflexivity.
Qed.

(** The timeout channel is the one-hour timer unless the option carries a
    timeout other than zero. *)
Lemma deployTimeout_choice (option : option ContractDeployOption)
    (w : @World Node ABI) :
  fst (deployTimeout option w)
  = Returned {| timer_d := match option with
                           | Some o => if opt_Timeout o =? 0 then 3600 * Second
                                       else opt_Timeout o
                           | None => 3600 * Second
                           end |}.
Proof.
  unfold deployTimeout, bind, After. simpl.
  destruct option as [o|]; [|reflexivity].
  destruct (opt_Timeout o =? 0); reflexivity.
Qed.

End TickProperties.

(** C2 on the code, at a tick whose lookup succeeds with no transaction
    (the node answers null): the tick panics on the nil transaction, it
    does not stay in the polling loop. *)
Theorem tick_on_absent_transaction_panics :
  let c := Scenario.client JNull Scenario.noRisk Scenario.noSummary
                           (Some Scenario.keystore) in
  GetTransactionByHash c "0x1234" (Scenario.start 0%nat)
  = (Returned (Ok None),
     emit (EvCall {| req_Method := "cfx_getTransactionByHash";
                     req_Args := [AHash "0x1234"] |} (Ok JNull))
          {| node := 1%nat; trace := [];
             deployResult := Scenario.emptyResult |})
  /\ fst (onTick c tt "0x1234" (Scenario.start 0%nat))
     = Panicked "invalid memory address or nil pointer dereference".
Proof. split; vm_compute; reflexivity. Qed.

(** C9 on the code, at a deployment without an option whose transaction
    stays without a status until the timeout fires at the instant [5000]:
    the timer armed is the one-hour timer, and the error carries the
    instant the timer channel delivered and the transaction hash, not a
    duration. *)
Theorem timeout_error_names_the_instant :
  let pending := JTransaction {| txn_Hash := "0x1234"; txn_Status := None;
                                 txn_ContractCreated := None |} in
  let c := Scenario.client pending Scenario.noRisk Scenario.noSummary
                           (Some Scenario.keystore) in
  exists w',
    DeployContract Scenario.abiUnmarshal Scenario.abiPack Scenario.minGasprice
      Scenario.applyDefault c None [] [Byte.x60] []
      [FromTicker; FromTimeout (UnixNano 5000)] (Scenario.start 0%nat)
    = (Returned tt, w')
    /\ In (EvAfter (3600 * Second)) (trace w')
    /\ Error (deployResult w')
       = Some (errorsNew
                 (Sprintf "deploy contract time out after %v, txhash is %+v"
                          [VTime (UnixNano 5000); VHash "0x1234"])).
Proof.
  eexists. split; [vm_compute; reflexivity|].
  split; [|reflexivity]. simpl. tauto.
Qed.

(** X13: wherever the goroutine ends, by return or by panic, the last
    things it does are the send on the done channel and its close. *)
Lemma done_is_sent_and_closed
    {Node ABI Param : Type}
    (abi_UnmarshalJSON : list Byte.byte -> result ABI)
    (abi_Pack : ABI -> string -> list Param -> result (list Byte.byte))
    (MinGasprice : Z) (ApplyDefault : UnsignedTransaction -> UnsignedTransaction)
    (client : @Client Node ABI) (option : option ContractDeployOption)
    (abiJSON bytecode : list Byte.byte) (constroctorParams : list Param)
    (script : list SelectEvent) (w w' : World) (out : Run unit) :
  DeployContract abi_UnmarshalJSON abi_Pack MinGasprice ApplyDefault client
    option abiJSON bytecode constroctorParams script w = (out, w') ->
  out <> OutOfFuel ->
  exists evs, trace w' = evs ++ [EvDoneSend; EvDoneClose].
Proof.
  intros H Hout. unfold DeployContract, withDefer in H.
  match type of H with
  | context [deployBody ?a ?b ?c ?d ?e ?f ?g ?h ?i ?j ?k] =>
      destruct (deployBody a b c d e f g h i j k) as [[[]|reason|] w1]
  end; inversion H; subst; try congruence;
    exists (trace w1); unfold emit; simpl; rewrite <- app_assoc; reflexivity.
Qed.

(** C10 on the code, at a deployment whose first tick finds no
    transaction: the goroutine panics; the deferred send and close on the
    done channel run, and the result holds the transaction hash but neither
    an error nor a contract, so none of the four outcomes is delivered. *)
Theorem deployment_can_end_in_a_panic :
  let c := Scenario.client JNull Scenario.noRisk Scenario.noSummary
                           (Some Scenario.keystore) in
  exists w',
    DeployContract Scenario.abiUnmarshal Scenario.abiPack Scenario.minGasprice
      Scenario.applyDefault c None [] [Byte.x60] [] [FromTicker]
      (Scenario.start 0%nat)
    = (Panicked "invalid memory address or nil pointer dereference", w')
    /\ deployResult w'
       = {| TransactionHash := Some "0x1234"; Error := None;
            DeployedContract := None |}
    /\ exists evs, trace w' = (evs ++ [EvDoneSend; EvDoneClose])%list.
Proof.
  eexists. split; [vm_compute; reflexivity|].
  split; [reflexivity|]. simpl.
  match goal with
  | |- exists evs, ?l = _ => exists (removelast (removelast l))
  end.
  reflexivity.
Qed.

(** ** Batch revert rates: the loops in closed form *)

Lemma index_middle {A} (pre : list A) (x : A) (suf : list A) :
  index (pre ++ x :: suf) (length pre) = Returned x.
Proof. unfold index. rewrite list_lookup_middle; reflexivity. Qed.

Lemma assign_middle {A} (pre : list A) (x y : A) (suf : list A) :
  assign (pre ++ x :: suf) (length pre) y = Returned (pre ++ y :: suf).
Proof.
  unfold assign. rewrite decide_True.
  - rewrite insert_app_r_alt by lia. rewrite Nat.sub_diag. reflexivity.
  - rewrite length_app. simpl. lia.
Qed.

Lemma assign_at {A} (pre : list A) (x y : A) (suf : list A) (n : nat) :
  length pre = n ->
  assign (pre ++ x :: suf) n y = Returned (pre ++ y :: suf).
Proof. intros <-. apply assign_middle. Qed.

Lemma riskElems_loop (hs : list (option Hash)) :
  forall suf pre bElems,
    hs = (pre ++ suf)%list ->
    forRange (fun i '(bElems, risks) =>
        h <~ index hs i ;;
        match h with
        | None =>
            risks <~ assign risks i (hexutil.EncodeBig MaxUint256) ;;
            Returned (bElems, risks)
        | Some hash =>
            let be := {| be_Method := "cfx_getConfirmationRiskByHash";
                         be_Args := [AHash hash];
                         be_Result := SlotRisk i |} in
            Returned ((bElems ++ [be])%list, risks)
        end)
      (length pre) (length suf)
      (bElems, (map initialRisk pre ++ replicate (length suf) EmptyString)%list)
    = Returned ((bElems ++ elemsFrom (length pre) suf)%list,
                (map initialRisk pre ++ map initialRisk suf)%list).
Proof.
  induction suf as [|h suf IH]; intros pre bElems Hhs.
  - simpl. rewrite !app_nil_r. reflexivity.
  - simpl forRange. rewrite Hhs at 1. rewrite index_middle. simpl bindR.
    assert (Hlen : length (map initialRisk pre) = length pre) by apply length_map.
    assert (Hhs' : hs = ((pre ++ [h]) ++ suf)%list)
      by (rewrite <- app_assoc; exact Hhs).
    specialize (IH (pre ++ [h])%list).
    rewrite length_app in IH. simpl in IH. rewrite Nat.add_1_r in IH.
    rewrite map_app in IH. simpl in IH.
    destruct h as [hash|].
    + specialize (IH (bElems ++ [riskElem hash (length pre)])%list Hhs').
      rewrite <- !app_assoc in IH. exact IH.
    + simpl replicate. rewrite (assign_at _ _ _ _ _ Hlen). simpl bindR.
      specialize (IH bElems Hhs').
      rewrite <- !app_assoc in IH. exact IH.
Qed.

Lemma riskElems_spec (hs : list (option Hash)) :
  riskElems hs = Returned (elemsFrom 0 hs, map initialRisk hs).
Proof.
  unfold riskElems.
  exact (riskElems_loop hs hs [] [] eq_refl).
Qed.
Lemma answeredRisks_nil (hs : list (option Hash)) :
  answeredRisks hs [] = map initialRisk hs.
Proof.
  induction hs as [|[h|] hs IH]; simpl; [reflexivity| |]; rewrite IH; reflexivity.
Qed.

Lemma storeRisk_middle (pre : list string) (suf : list string) (h : Hash)
    (resp : ElemResponse) :
  storeRisk (pre ++ EmptyString :: suf) (riskElem h (length pre)) resp
  = pre ++ riskText (Some resp) :: suf.
Proof.
  unfold storeRisk. simpl.
  destruct resp as [e|[|s| | |]]; try reflexivity.
  rewrite insert_app_r_alt by lia. rewrite Nat.sub_diag. reflexivity.
Qed.

Lemma storeAll_risks (hs : list (option Hash)) :
  forall (pre : list string) (resps : list ElemResponse),
    storeAll storeRisk (pre ++ map initialRisk hs)
             (elemsFrom (length pre) hs) resps
    = pre ++ answeredRisks hs resps.
Proof.
  induction hs as [|[h|] hs IH]; intros pre resps.
  - simpl. destruct resps; reflexivity.
  - simpl. destruct resps as [|resp resps].
    + rewrite answeredRisks_nil. reflexivity.
    + rewrite storeRisk_middle. simpl.
      specialize (IH (pre ++ [riskText (Some resp)]) resps).
      rewrite length_app in IH. simpl in IH. rewrite Nat.add_1_r in IH.
      rewrite <- !app_assoc in IH. exact IH.
  - simpl.
    specialize (IH (pre ++ [hexutil.EncodeBig MaxUint256]) resps).
    rewrite length_app in IH. simpl in IH. rewrite Nat.add_1_r in IH.
    rewrite <- !app_assoc in IH. exact IH.
Qed.

Lemma answeredRisks_length (hs : list (option Hash)) :
  forall resps, length (answeredRisks hs resps) = length hs.
Proof.
  induction hs as [|[h|] hs IH]; intros resps; simpl; [reflexivity| |];
    rewrite IH; reflexivity.
Qed.

(** A nil position keeps the maximum risk, whatever the batch answers. *)
Lemma answeredRisks_placeholder (hs : list (option Hash)) :
  forall resps i,
    hs !! i = Some None ->
    answeredRisks hs resps !! i = Some (hexutil.EncodeBig MaxUint256).
Proof.
  induction hs as [|[h|] hs IH]; intros resps [|i] H; simpl in *;
    try discriminate H; try reflexivity; apply IH; exact H.
Qed.

(** A position with a hash has its element at its rank in the batch, and
    holds what the answer at that rank left. *)
Lemma answeredRisks_hash (hs : list (option Hash)) :
  forall off resps i h,
    hs !! i = Some (Some h) ->
    elemsFrom off hs !! rank hs i = Some (riskElem h (off + i))
    /\ answeredRisks hs resps !! i = Some (riskText (resps !! rank hs i)).
Proof.
  unfold rank.
  induction hs as [|[h0|] hs IH]; intros off resps [|i] h H; simpl in *;
    try discriminate H.
  - inversion H; subst. rewrite Nat.add_0_r. split; [reflexivity|].
    destruct resps; reflexivity.
  - destruct (IH (S off) (tail resps) i h H) as [H1 H2].
    rewrite Nat.add_succ_r. split; [exact H1|].
    rewrite H2. destruct resps; reflexivity.
  - destruct (IH (S off) resps i h H) as [H1 H2].
    rewrite Nat.add_succ_r. split; assumption.
Qed.

(** Every element of the risk batch asks for the hash of a position that
    is not nil. *)
Lemma elemsFrom_positions (hs : list (option Hash)) :
  forall off be,
    be ∈ elemsFrom off hs ->
    exists i h, hs !! i = Some (Some h) /\ be = riskElem h (off + i).
Proof.
  induction hs as [|[h0|] hs IH]; intros off be H; simpl in H.
  - inversion H.
  - apply elem_of_cons in H. destruct H as [->|H].
    + exists 0%nat, h0. rewrite Nat.add_0_r. split; reflexivity.
    + destruct (IH _ _ H) as (i & h & Hi & ->).
      exists (S i), h. rewrite Nat.add_succ_r. split; [exact Hi|reflexivity].
  - destruct (IH _ _ H) as (i & h & Hi & ->).
    exists (S i), h. rewrite Nat.add_succ_r. split; [exact Hi|reflexivity].
Qed.

Lemma ratesOf_loop (risks : list string) :
  forall suf pre rates,
    risks = pre ++ suf ->
    forRangeErr (fun i rates =>
        r <~ index risks i ;;
        match hexutil.DecodeBig r with
        | Err err =>
            Returned (Err (WrapError err
                             (Sprintf "create big int by risk value %v error"
                                      [VString r])))
        | Ok b =>
            rates <~ assign rates i (Some (CalcBlockRevertRate b)) ;;
            Returned (Ok rates)
        end)
      (length pre) (length suf)
      (map rateOf pre ++ replicate (length suf) None)
    = Returned (Ok rates) ->
    rates = map rateOf (pre ++ suf).
Proof.
  induction suf as [|r suf IH]; intros pre rates Hr H.
  - simpl in H. inversion H. rewrite !app_nil_r. reflexivity.
  - simpl forRangeErr in H. rewrite Hr in H at 1. rewrite index_middle in H.
    simpl bindR in H.
    destruct (hexutil.DecodeBig r) as [b|e] eqn:E; [|discriminate H].
    simpl replicate in H.
    rewrite (assign_at _ _ _ _ _ (length_map rateOf pre)) in H. simpl bindR in H.
    assert (Hrate : rateOf r = Some (CalcBlockRevertRate b))
      by (unfold rateOf; rewrite E; reflexivity).
    rewrite <- Hrate in H.
    specialize (IH (pre ++ [r]) rates).
    rewrite length_app, map_app in IH. simpl in IH. rewrite Nat.add_1_r in IH.
    rewrite <- !app_assoc in IH. simpl in IH.
    apply IH; [exact Hr|exact H].
Qed.

Lemma ratesOf_spec (risks : list string) (rates : list (option Q)) :
  ratesOf risks = Returned (Ok rates) -> rates = map rateOf risks.
Proof.
  unfold ratesOf. intros H.
  apply (ratesOf_loop risks risks [] rates eq_refl). exact H.
Qed.

(** A range that reaches a round whose body does not return does not
    return. *)
Lemma forRange_stuck {St} (body : nat -> St -> Run St) (j : nat) :
  (forall s s', body j s <> Returned s') ->
  forall n i s s',
    (i <= j < i + n)%nat -> forRange body i n s <> Returned s'.
Proof.
  intros Hj. induction n as [|n IH]; intros i s s' Hr; [lia|].
  simpl. destruct (body i s) as [s1| |] eqn:E; simpl; try discriminate.
  destruct (decide (i = j)) as [->|Hne].
  - exfalso. exact (Hj _ _ E).
  - apply IH. lia.
Qed.

(** Rounds that each append one element make the slice that much longer. *)
Lemma forRange_grows {A} (body : nat -> list A -> Run (list A)) :
  (forall i s s', body i s = Returned s' -> length s' = S (length s)) ->
  forall n i s s',
    forRange body i n s = Returned s' -> length s' = (length s + n)%nat.
Proof.
  intros Hb. induction n as [|n IH]; intros i s s' H; simpl in H.
  - inversion H. lia.
  - destruct (body i s) as [s1| |] eqn:E; simpl in H; try discriminate H.
    apply Hb in E. apply IH in H. lia.
Qed.

Lemma summaryElems_length (noRiskBlockhashs : list (option Hash))
    (bElems : list BatchElem) :
  summaryElems noRiskBlockhashs = Returned bElems ->
  length bElems = (length noRiskBlockhashs + length noRiskBlockhashs)%nat.
Proof.
  unfold summaryElems. intros H.
  apply forRange_grows in H.
  - rewrite length_replicate in H. exact H.
  - intros i s s' Hb.
    destruct (index noRiskBlockhashs i) as [h| |]; simpl in Hb; try discriminate Hb.
    destruct (deref h) as [hash| |]; simpl in Hb; try discriminate Hb.
    inversion Hb. rewrite length_app. simpl. lia.
Qed.

Lemma storeAll_summarys_length (b : list BatchElem) :
  forall (summarys : list BlockSummary) (resps : list ElemResponse),
    length (storeAll storeSummary summarys b resps) = length summarys.
Proof.
  induction b as [|be b IH]; intros summarys resps; simpl; [reflexivity|].
  destruct resps as [|resp resps]; [reflexivity|].
  rewrite IH. unfold storeSummary.
  destruct (be_Result be); try reflexivity.
  destruct resp as [e|[| | | |bs]]; try reflexivity.
  apply length_insert.
Qed.

(** The loop over the answered batch runs over more elements than there
    are summaries: it does not return. *)
Lemma spreadRisks_stuck (bElems : list BatchElem) (summarys : list BlockSummary)
    (indexMap : gmap Hash (list nat)) (risks risks' : list string) :
  (length summarys < length bElems)%nat ->
  spreadRisks bElems summarys indexMap risks <> Returned risks'.
Proof.
  intros Hlen. unfold spreadRisks.
  apply (forRange_stuck _ (length summarys)); [|lia].
  intros s s'. unfold index. rewrite lookup_ge_None_2 by lia. discriminate.
Qed.

Section FallbackProperties.

Context {Node ABI : Type}.
Variable client : @Client Node ABI.

(** With at least one hash without a risk, the fallback never hands risks
    back: the batch fails, or the loop over its elements panics. *)
Lemma fallback_never_succeeds (noRiskBlockhashs : list (option Hash))
    (indexMap : gmap Hash (list nat)) (risks risks' : list string)
    (w w' : World) :
  (0 < length noRiskBlockhashs)%nat ->
  fallback client noRiskBlockhashs indexMap risks w <> (Returned (Ok risks'), w').
Proof.
  intros Hpos H. unfold fallback, bind, lift in H.
  destruct (summaryElems noRiskBlockhashs) as [bElems| |] eqn:Eb;
    try discriminate H.
  apply summaryElems_length in Eb.
  destruct (BatchCallRPC client bElems w) as [[[resps|e]| |] w1];
    try discriminate H.
  match type of H with
  | context [spreadRisks ?b ?s ?m ?r] =>
      destruct (spreadRisks b s m r) as [r1| |] eqn:Es; try discriminate H
  end.
  apply spreadRisks_stuck in Es; [exact Es|].
  rewrite storeAll_summarys_length, length_replicate. lia.
Qed.

End FallbackProperties.

Lemma lookup_map {A B} (f : A -> B) (l : list A) :
  forall i, map f l !! i = option_map f (l !! i).
Proof.
  induction l as [|x l IH]; intros [|i]; simpl; try reflexivity. apply IH.
Qed.

Lemma rateOf_max : rateOf (hexutil.EncodeBig MaxUint256) = Some 1%Q.
Proof. vm_compute. reflexivity. Qed.

Lemma rateOf_empty : rateOf EmptyString = None.
Proof. reflexivity. Qed.

Section RatesProperties.

Context {Node ABI : Type}.
Variable client : @Client Node ABI.

(** A call that returns rates made one batch call, for the elements of the
    hashes that are not nil, and the rates are those of the risk texts the
    answers left. *)
Lemma BatchGetBlockRevertRates_ok (hs : list (option Hash)) (w w' : World)
    (rates : list (option Q)) :
  hs <> [] ->
  BatchGetBlockRevertRates client hs w = (Returned (Ok rates), w') ->
  exists resps,
    BatchCallRPC client (elemsFrom 0 hs) w = (Returned (Ok resps), w')
    /\ ratesOf (answeredRisks hs resps) = Returned (Ok rates).
Proof.
  intros Hne H. unfold BatchGetBlockRevertRates in H.
  destruct (length hs =? 0)%nat eqn:E0.
  { apply Nat.eqb_eq in E0. destruct hs; [congruence|discriminate E0]. }
  rewrite riskElems_spec in H. unfold bind at 1, lift at 1 in H.
  unfold bind at 1 in H.
  destruct (BatchCallRPC client (elemsFrom 0 hs) w) as [[[resps|e]| |] w1] eqn:Eb;
    try discriminate H.
  pose proof (storeAll_risks hs [] resps) as Hst. simpl in Hst. rewrite Hst in H.
  unfold bind at 1, lift at 1 in H.
  destruct (noRiskOf hs (answeredRisks hs resps)) as [[noRisk indexMap]| |];
    try discriminate H.
  unfold bind at 1 in H.
  destruct (0 <? length noRisk)%nat eqn:En.
  - apply Nat.ltb_lt in En.
    destruct (fallback client noRisk indexMap (answeredRisks hs resps) w1)
      as [[[risks'|e]| |] w2] eqn:Ef; try discriminate H.
    exfalso. exact (fallback_never_succeeds client _ _ _ _ _ _ En Ef).
  - unfold ret, lift in H. inversion H; subst. exists resps. split; reflexivity.
Qed.

End RatesProperties.

Lemma decode_all (risks : list string) :
  forall suf pre rates,
    risks = pre ++ suf ->
    forRangeErr (fun i rates =>
        r <~ index risks i ;;
        match hexutil.DecodeBig r with
        | Err err =>
            Returned (Err (WrapError err
                             (Sprintf "create big int by risk value %v error"
                                      [VString r])))
        | Ok b =>
            rates <~ assign rates i (Some (CalcBlockRevertRate b)) ;;
            Returned (Ok rates)
        end)
      (length pre) (length suf)
      (map rateOf pre ++ replicate (length suf) None)
    = Returned (Ok rates) ->
    forall r, r ∈ suf -> exists b, hexutil.DecodeBig r = Ok b.
Proof.
  induction suf as [|r0 suf IH]; intros pre rates Hr H r Hin.
  - inversion Hin.
  - simpl forRangeErr in H. rewrite Hr in H at 1. rewrite index_middle in H.
    simpl bindR in H.
    destruct (hexutil.DecodeBig r0) as [b|e] eqn:E; [|discriminate H].
    apply elem_of_cons in Hin. destruct Hin as [->|Hin]; [exists b; exact E|].
    simpl replicate in H.
    rewrite (assign_at _ _ _ _ _ (length_map rateOf pre)) in H. simpl bindR in H.
    assert (Hrate : rateOf r0 = Some (CalcBlockRevertRate b))
      by (unfold rateOf; rewrite E; reflexivity).
    rewrite <- Hrate in H.
    specialize (IH (pre ++ [r0]) rates).
    rewrite length_app, map_app in IH. simpl in IH. rewrite Nat.add_1_r in IH.
    rewrite <- !app_assoc in IH. simpl in IH.
    exact (IH Hr H r Hin).
Qed.

(** An answer whose risk text decodes is a string. *)
Lemma riskText_decoded (resp : option ElemResponse) (b : Z) :
  hexutil.DecodeBig (riskText resp) = Ok b ->
  exists s, resp = Some (ElemResult (JString s)) /\ hexutil.DecodeBig s = Ok b.
Proof.
  destruct resp as [[e|[|s| | |]]|]; simpl; intros H; try discriminate H.
  exists s. split; [reflexivity|exact H].
Qed.

(** C8: an empty input returns an empty result and leaves the world as it
    was (no call); the risk batch has elements only for positions that are
    not nil; and when rates are returned, there are as many as hashes,
    every nil position has the rate 1, one batch call was made for those
    elements, each position with a hash has its element at its rank in the
    batch, the answer at that rank is a risk text that decodes, and the
    position's rate is the rate of that risk; so two positions with the
    same hash have the same rate when their answers are the same. *)
Theorem revert_rates_follow_the_input
    {Node ABI : Type} (client : @Client Node ABI)
    (blockhashs : list (option Hash)) (w : World) :
  BatchGetBlockRevertRates client [] w = (Returned (Ok []), w)
  /\ (forall be, be ∈ elemsFrom 0 blockhashs ->
        exists i h, blockhashs !! i = Some (Some h) /\ be = riskElem h i)
  /\ (forall rates w',
        BatchGetBlockRevertRates client blockhashs w = (Returned (Ok rates), w') ->
        length rates = length blockhashs
        /\ (forall i, blockhashs !! i = Some None ->
              rates !! i = Some (Some 1%Q))
        /\ (blockhashs <> [] ->
            exists resps,
              BatchCallRPC client (elemsFrom 0 blockhashs) w
              = (Returned (Ok resps), w')
              /\ (forall i h,
                    blockhashs !! i = Some (Some h) ->
                    elemsFrom 0 blockhashs !! rank blockhashs i
                    = Some (riskElem h i)
                    /\ exists s b,
                         resps !! rank blockhashs i
                         = Some (ElemResult (JString s))
                         /\ hexutil.DecodeBig s = Ok b
                         /\ rates !! i = Some (Some (CalcBlockRevertRate b)))
              /\ (forall i j h,
                    blockhashs !! i = Some (Some h) ->
                    blockhashs !! j = Some (Some h) ->
                    resps !! rank blockhashs i = resps !! rank blockhashs j ->
                    rates !! i = rates !! j))).
Proof.
  split; [reflexivity|]. split.
  - intros be Hbe. destruct (elemsFrom_positions _ _ _ Hbe) as (i & h & Hi & ->).
    exists i, h. split; [exact Hi|reflexivity].
  - intros rates w' H.
    destruct blockhashs as [|h0 hs] eqn:Ehs.
    { inversion H; subst. split; [reflexivity|].
      split; [intros i Hi; discriminate Hi|congruence]. }
    rewrite <- Ehs in *.
    assert (Hne : blockhashs <> []) by (rewrite Ehs; discriminate).
    destruct (BatchGetBlockRevertRates_ok client _ _ _ _ Hne H)
      as (resps & Hb & Hr).
    pose proof (ratesOf_spec _ _ Hr) as Hrates.
    split; [rewrite Hrates, length_map; apply answeredRisks_length|]. split.
    + intros i Hi. rewrite Hrates, lookup_map.
      rewrite (answeredRisks_placeholder _ _ _ Hi). simpl.
      rewrite rateOf_max. reflexivity.
    + intros _. exists resps. split; [exact Hb|]. split.
      * intros i h Hi.
        destruct (answeredRisks_hash blockhashs 0 resps i h Hi) as [Ei Hrisk].
        split; [exact Ei|].
        unfold ratesOf in Hr.
        destruct (decode_all _ _ [] rates eq_refl Hr
                    (riskText (resps !! rank blockhashs i))) as (b & Hd).
        { apply list_elem_of_lookup. exists i. exact Hrisk. }
        destruct (riskText_decoded _ _ Hd) as (s & Hs & Hds).
        exists s, b. split; [exact Hs|]. split; [exact Hds|].
        rewrite Hrates, lookup_map, Hrisk. simpl.
        unfold rateOf. rewrite Hd. reflexivity.
      * intros i j h Hi Hj Hsame. rewrite Hrates, !lookup_map.
        destruct (answeredRisks_hash blockhashs 0 resps i h Hi) as [_ ->].
        destruct (answeredRisks_hash blockhashs 0 resps j h Hj) as [_ ->].
        rewrite Hsame. reflexivity.
Qed.

Lemma revert_rates_follow_the_input_witness :
  let c := Scenario.client JNull Scenario.zeroRisk Scenario.noSummary None in
  let hs := [Some "0xaa"; None; Some "0xaa"] in
  exists rates w' resps,
    BatchGetBlockRevertRates c hs (Scenario.start 0%nat) = (Returned (Ok rates), w')
    /\ hs <> []
    /\ hs !! 1%nat = Some None
    /\ hs !! 0%nat = Some (Some "0xaa") /\ hs !! 2%nat = Some (Some "0xaa")
    /\ BatchCallRPC c (elemsFrom 0 hs) (Scenario.start 0%nat)
       = (Returned (Ok resps), w')
    /\ resps !! rank hs 0 = resps !! rank hs 2
    /\ length rates = 3%nat
    /\ rates !! 1%nat = Some (Some 1%Q)
    /\ rates !! 2%nat = Some (Some 0%Q)
    /\ rates !! 0%nat = rates !! 2%nat.
Proof.
  intros c hs.
  destruct (BatchGetBlockRevertRates c hs (Scenario.start 0%nat))
    as [[[rates|e]| |] w'] eqn:E;
    [|vm_compute in E; discriminate E|vm_compute in E; discriminate E
     |vm_compute in E; discriminate E].
  assert (Hne : hs <> []) by discriminate.
  destruct (revert_rates_follow_the_input c hs (Scenario.start 0%nat))
    as (_ & _ & H).
  destruct (H rates w' E) as (Hlen & Hnil & Hcall).
  destruct (Hcall Hne) as (resps & Hb & Hpos & Hdup).
  assert (Hsame : resps !! rank hs 0 = resps !! rank hs 2).
  { vm_compute in Hb. inversion Hb; subst. reflexivity. }
  destruct (Hpos 2%nat "0xaa" eq_refl) as (_ & s & b & Hs & Hd & Hrate).
  assert (Hzero : b = 0).
  { vm_compute in Hb. inversion Hb; subst resps. vm_compute in Hs.
    inversion Hs; subst s. vm_compute in Hd. inversion Hd. reflexivity. }
  subst b.
  exists rates, w', resps. split; [reflexivity|]. split; [exact Hne|].
  split; [reflexivity|]. split; [reflexivity|]. split; [reflexivity|].
  split; [exact Hb|]. split; [exact Hsame|].
  split; [exact Hlen|]. split; [exact (Hnil 1%nat eq_refl)|].
  split; [exact Hrate|].
  exact (Hdup 0%nat 2%nat "0xaa" eq_refl eq_refl Hsame).
Defined.

(** C8 as stated fails: the code asks the node once for every position, so
    two positions with the same hash get what the node answers to each, and
    a node whose risk for the hash moves between the two answers of one
    batch gives them different rates. *)
Lemma duplicate_hashes_get_their_own_rates :
  let c : @Client nat unit :=
    {| nodeURL := "http://localhost:12537";
       requester := directRequester (Scenario.chain_call JNull)
                                    Scenario.drifting_batch;
       accountManager := None |} in
  let hs := [Some "0xaa"; Some "0xaa"] in
  exists rates w',
    BatchGetBlockRevertRates c hs (Scenario.start 0%nat) = (Returned (Ok rates), w')
    /\ hs !! 0%nat = Some (Some "0xaa") /\ hs !! 1%nat = Some (Some "0xaa")
    /\ rates !! 0%nat = Some (Some 0%Q)
    /\ rates !! 1%nat = Some (Some (Qmake 1 (Z.to_pos MaxUint256)))
    /\ rates !! 0%nat <> rates !! 1%nat.
Proof.
  intros c hs. do 2 eexists.
  split; [vm_compute; reflexivity|].
  split; [reflexivity|]. split; [reflexivity|].
  split; [vm_compute; reflexivity|]. split; [vm_compute; reflexivity|].
  vm_compute. discriminate.
Qed.

(** ** Batch revert rates: a hash without a risk *)

(** X19: when the risk of a hash comes back empty, no rates are returned:
    the call ends in the fallback, with an error or a panic. *)
Lemma empty_risk_yields_no_rates
    {Node ABI : Type} (client : @Client Node ABI)
    (blockhashs : list (option Hash)) (w w1 : World)
    (resps : list ElemResponse) (i : nat) (h : Hash) :
  BatchCallRPC client (elemsFrom 0 blockhashs) w = (Returned (Ok resps), w1) ->
  blockhashs !! i = Some (Some h) ->
  riskText (resps !! rank blockhashs i) = EmptyString ->
  forall rates w',
    BatchGetBlockRevertRates client blockhashs w <> (Returned (Ok rates), w').
Proof.
  intros Hb Hi Hempty rates w' H.
  assert (Hne : blockhashs <> []) by (intros ->; discriminate Hi).
  destruct (BatchGetBlockRevertRates_ok client _ _ _ _ Hne H)
    as (resps' & Hb' & Hr).
  rewrite Hb in Hb'. inversion Hb'; subst resps' w'.
  destruct (answeredRisks_hash blockhashs 0 resps i h Hi) as [_ Hrisk].
  rewrite Hempty in Hrisk.
  unfold ratesOf in Hr.
  destruct (decode_all _ _ [] rates eq_refl Hr EmptyString) as (b & Hd).
  - apply list_elem_of_lookup. exists i. exact Hrisk.
  - discriminate Hd.
Qed.

(** C1 on the code, at one hash whose risk comes back empty: whether its
    block summary has an epoch number (first run) or none (second run), the
    call makes both batch calls and then panics in the loop over the
    elements of the second batch, which holds twice as many elements as
    there are summaries; no rate is returned. *)
Theorem fallback_panics :
  let onChain := Scenario.client JNull Scenario.noRisk Scenario.onPivot None in
  let offChain := Scenario.client JNull Scenario.noRisk Scenario.offPivot None in
  fst (BatchGetBlockRevertRates onChain [Some "0xaa"] (Scenario.start 0%nat))
  = Panicked "index out of range"
  /\ fst (BatchGetBlockRevertRates offChain [Some "0xaa"] (Scenario.start 0%nat))
     = Panicked "index out of range"
  /\ attempts (trace (snd (BatchGetBlockRevertRates onChain [Some "0xaa"]
                             (Scenario.start 0%nat)))) = 2%nat
  /\ summaryElems [Some "0xaa"]
     = Returned [zeroBatchElem;
                 {| be_Method := "cfx_getBlockByHash";
                    be_Args := [AHash "0xaa"; ABool false];
                    be_Result := SlotSummary 0 |}].
Proof. repeat split; vm_compute; reflexivity. Qed.

(** The risk texts the fallback writes are decimal; the last loop reads
    hexadecimal with a prefix and rejects both. *)
Lemma fallback_risk_text_does_not_decode :
  hexutil.DecodeBig (bigString 0) = Err hexutil.ErrMissingPrefix
  /\ hexutil.DecodeBig (bigString MaxUint256) = Err hexutil.ErrMissingPrefix.
Proof. split; vm_compute; reflexivity. Qed.

(** ** The retrying transport: recovery and pauses *)

Section RetryRecovery.

Context {Node ABI : Type}.
Variable node_call : Request -> Node -> Node * result Json.
Variable node_batch : list Request -> Node -> Node * result (list ElemResponse).
Variable r : rpcClientWithRetry.

Lemma sleeps_emit (ev : Event) (w : @World Node ABI) :
  sleeps (trace (emit ev w))
  = (sleeps (trace w) + (if isSleep ev then 1 else 0))%nat.
Proof.
  unfold sleeps, emit; simpl.
  rewrite filter_app, length_app. simpl.
  destruct (isSleep ev) eqn:E.
  - rewrite filter_cons_True by (rewrite E; exact I). reflexivity.
  - rewrite filter_cons_False by (rewrite E; auto). reflexivity.
Qed.

(** The pause between two attempts keeps the node and sleeps once when the
    interval is positive. *)
Lemma pause_sleeps (w : @World Node ABI) :
  exists w', (if 0 <? interval r then Sleep (interval r) else ret tt) w
             = (Returned tt, w')
             /\ node w' = node w
             /\ attempts (trace w') = attempts (trace w)
             /\ sleeps (trace w')
                = (sleeps (trace w) + (if (0 <? interval r)%Z then 1 else 0))%nat.
Proof.
  destruct (0 <? interval r).
  - eexists; split; [reflexivity|]. split; [reflexivity|].
    rewrite attempts_emit, sleeps_emit. simpl. lia.
  - eexists; split; [reflexivity|]. split; [reflexivity|]. simpl. lia.
Qed.

Section Single.

Variables (method : string) (args : list Arg).

Let req := {| req_Method := method; req_Args := args |}.

Lemma rpcClient_Call_step (w : @World Node ABI) n' res :
  node_call req (node w) = (n', res) ->
  exists w1, rpcClient_Call node_call method args w = (Returned res, w1)
             /\ node w1 = n'
             /\ attempts (trace w1) = S (attempts (trace w))
             /\ sleeps (trace w1) = sleeps (trace w).
Proof.
  intros H. unfold rpcClient_Call. fold req. rewrite H.
  eexists. split; [reflexivity|]. split; [reflexivity|].
  rewrite attempts_emit, sleeps_emit. simpl. unfold attempts, sleeps. simpl. lia.
Qed.

Lemma Call_loop_recovers (k : nat) :
  forall (fuel : nat) (remain : Z) (w : @World Node ABI) (j : Json),
    failsThenAnswers node_call req k (node w) j ->
    Z.of_nat k < remain -> (k < fuel)%nat ->
    exists w',
      Call_loop node_call fuel r method args remain w = (Returned (Ok j), w')
      /\ attempts (trace w') = (attempts (trace w) + k + 1)%nat.
Proof.
  induction k as [|k IH]; intros fuel remain w j Hf Hrem Hfuel;
    (destruct fuel as [|fuel]; [lia|]); simpl.
  - destruct Hf as (n' & Hn).
    destruct (rpcClient_Call_step w _ _ Hn) as (w1 & Hc & _ & Ha & _).
    unfold bind. rewrite Hc. exists w1. split; [reflexivity|]. lia.
  - destruct Hf as (n' & e & Hn & Hf).
    destruct (rpcClient_Call_step w _ _ Hn) as (w1 & Hc & Hn1 & Ha1 & _).
    unfold bind at 1. rewrite Hc.
    destruct (remain - 1 =? 0) eqn:E; [apply Z.eqb_eq in E; lia|].
    destruct (pause_sleeps w1) as (w2 & Hp & Hn2 & Hpa & _).
    unfold bind at 1. rewrite Hp.
    rewrite <- Hn1, <- Hn2 in Hf.
    destruct (IH fuel (remain - 1) w2 j Hf) as (w' & Hr & Ha); [lia|lia|].
    exists w'. split; [exact Hr|]. rewrite Ha, Hpa, Ha1. lia.
Qed.

Lemma Call_recovers (k : nat) (w : @World Node ABI) (j : Json) :
  failsThenAnswers node_call req k (node w) j ->
  Z.of_nat k <= retryCount r ->
  exists w',
    Call node_call r method args w = (Returned (Ok j), w')
    /\ attempts (trace w') = (attempts (trace w) + k + 1)%nat.
Proof.
  intros Hf Hk. destruct k as [|k].
  - destruct Hf as (n' & Hn).
    destruct (rpcClient_Call_step w _ _ Hn) as (w1 & Hc & _ & Ha & _).
    unfold Call, bind. rewrite Hc. exists w1. split; [reflexivity|]. lia.
  - destruct Hf as (n' & e & Hn & Hf).
    destruct (rpcClient_Call_step w _ _ Hn) as (w1 & Hc & Hn1 & Ha1 & _).
    unfold Call, bind. rewrite Hc.
    destruct (retryCount r <=? 0) eqn:E; [apply Z.leb_le in E; lia|].
    rewrite <- Hn1 in Hf.
    destruct (Call_loop_recovers k (Z.to_nat (retryCount r)) (retryCount r) w1 j Hf)
      as (w' & Hr & Ha); [lia|lia|].
    exists w'. split; [exact Hr|]. rewrite Ha, Ha1. lia.
Qed.

Hypothesis always_fails : forall n, exists n' e, node_call req n = (n', Err e).



End Single.

Section Batch.

Variable b : list BatchElem.

Let req := map requestOf b.

Lemma rpcClient_BatchCall_step (w : @World Node ABI) n' res :
  node_batch req (node w) = (n', res) ->
  exists w1, rpcClient_BatchCall node_batch b w = (Returned res, w1)
             /\ node w1 = n'
             /\ attempts (trace w1) = S (attempts (trace w))
             /\ sleeps (trace w1) = sleeps (trace w).
Proof.
  intros H. unfold rpcClient_BatchCall. fold req. rewrite H.
  eexists. split; [reflexivity|]. split; [reflexivity|].
  rewrite attempts_emit, sleeps_emit. simpl. unfold attempts, sleeps. simpl. lia.
Qed.

Lemma BatchCall_loop_recovers (k : nat) :
  forall (fuel : nat) (remain : Z) (w : @World Node ABI) (j : list ElemResponse),
    failsThenAnswers node_batch req k (node w) j ->
    Z.of_nat k < remain -> (k < fuel)%nat ->
    exists w',
      BatchCall_loop node_batch fuel r b remain w = (Returned (Ok j), w')
      /\ attempts (trace w') = (attempts (trace w) + k + 1)%nat.
Proof.
  induction k as [|k IH]; intros fuel remain w j Hf Hrem Hfuel;
    (destruct fuel as [|fuel]; [lia|]); simpl.
  - destruct Hf as (n' & Hn).
    destruct (rpcClient_BatchCall_step w _ _ Hn) as (w1 & Hc & _ & Ha & _).
    unfold bind. rewrite Hc. exists w1. split; [reflexivity|]. lia.
  - destruct Hf as (n' & e & Hn & Hf).
    destruct (rpcClient_BatchCall_step w _ _ Hn) as (w1 & Hc & Hn1 & Ha1 & _).
    unfold bind at 1. rewrite Hc.
    destruct (remain - 1 =? 0) eqn:E; [apply Z.eqb_eq in E; lia|].
    destruct (pause_sleeps w1) as (w2 & Hp & Hn2 & Hpa & _).
    unfold bind at 1. rewrite Hp.
    rewrite <- Hn1, <- Hn2 in Hf.
    destruct (IH fuel (remain - 1) w2 j Hf) as (w' & Hr & Ha); [lia|lia|].
    exists w'. split; [exact Hr|]. rewrite Ha, Hpa, Ha1. lia.
Qed.

Lemma BatchCall_recovers (k : nat) (w : @World Node ABI) (j : list ElemResponse) :
  failsThenAnswers node_batch req k (node w) j ->
  Z.of_nat k <= retryCount r ->
  exists w',
    BatchCall node_batch r b w = (Returned (Ok j), w')
    /\ attempts (trace w') = (attempts (trace w) + k + 1)%nat.
Proof.
  intros Hf Hk. destruct k as [|k].
  - destruct Hf as (n' & Hn).
    destruct (rpcClient_BatchCall_step w _ _ Hn) as (w1 & Hc & _ & Ha & _).
    unfold BatchCall, bind. rewrite Hc. exists w1. split; [reflexivity|]. lia.
  - destruct Hf as (n' & e & Hn & Hf).
    destruct (rpcClient_BatchCall_step w _ _ Hn) as (w1 & Hc & Hn1 & Ha1 & _).
    unfold BatchCall, bind. rewrite Hc.
    destruct (retryCount r <=? 0) eqn:E; [apply Z.leb_le in E; lia|].
    rewrite <- Hn1 in Hf.
    destruct (BatchCall_loop_recovers k (Z.to_nat (retryCount r)) (retryCount r) w1 j Hf)
      as (w' & Hr & Ha); [lia|lia|].
    exists w'. split; [exact Hr|]. rewrite Ha, Ha1. lia.
Qed.

Hypothesis always_fails : forall n, exists n' e, node_batch req n = (n', Err e).



End Batch.

End RetryRecovery.

(** X1: when the inner transport fails [k] times and then answers, and [k]
    is within the retry budget, [Call] and [BatchCall] return that answer
    after exactly [k + 1] attempts. *)
Theorem retry_recovers_within_budget
    {Node ABI : Type}
    (node_call : Request -> Node -> Node * result Json)
    (node_batch : list Request -> Node -> Node * result (list ElemResponse))
    (r : rpcClientWithRetry) (method : string) (args : list Arg)
    (b : list BatchElem) (k : nat) (w : @World Node ABI)
    (j : Json) (rs : list ElemResponse) :
  Z.of_nat k <= retryCount r ->
  (failsThenAnswers node_call {| req_Method := method; req_Args := args |}
                    k (node w) j ->
   exists w',
     Call node_call r method args w = (Returned (Ok j), w')
     /\ attempts (trace w') = (attempts (trace w) + k + 1)%nat)
  /\ (failsThenAnswers node_batch (map requestOf b) k (node w) rs ->
      exists w',
        BatchCall node_batch r b w = (Returned (Ok rs), w')
        /\ attempts (trace w') = (attempts (trace w) + k + 1)%nat).
Proof.
  intros Hk. split; intros Hf.
  - apply Call_recovers; assumption.
  - apply BatchCall_recovers; assumption.
Qed.


Lemma retry_recovers_within_budget_witness :
  let r := {| retryCount := 2; interval := 5 |} in
  let b := [riskElem "0xaa" 0] in
  Z.of_nat 2 <= retryCount r
  /\ failsThenAnswers (Scenario.flaky_call 2)
       {| req_Method := "cfx_gasPrice"; req_Args := [] |} 2 0%nat (JString "0x2a")
  /\ (exists w',
        Call (Scenario.flaky_call 2) r "cfx_gasPrice" [] (Scenario.start 0%nat)
        = (Returned (Ok (JString "0x2a")), w')
        /\ attempts (trace w') = 3%nat)
  /\ (exists w',
        BatchCall (Scenario.flaky_batch 2) r b (Scenario.start 0%nat)
        = (Returned (Ok [ElemResult (JString "0x0")]), w')
        /\ attempts (trace w') = 3%nat).
Proof.
  intros r b.
  assert (Hk : Z.of_nat 2 <= retryCount r) by (simpl; lia).
  assert (Hc : failsThenAnswers (Scenario.flaky_call 2)
                 {| req_Method := "cfx_gasPrice"; req_Args := [] |} 2 0%nat
                 (JString "0x2a")).
  { simpl. do 2 eexists. split; [reflexivity|].
    do 2 eexists. split; [reflexivity|]. eexists. reflexivity. }
  assert (Hb : failsThenAnswers (Scenario.flaky_batch 2) (map requestOf b) 2 0%nat
                 [ElemResult (JString "0x0")]).
  { simpl. do 2 eexists. split; [reflexivity|].
    do 2 eexists. split; [reflexivity|]. eexists. reflexivity. }
  destruct (retry_recovers_within_budget (Scenario.flaky_call 2)
              (Scenario.flaky_batch 2) r "cfx_gasPrice" [] b 2
              (Scenario.start 0%nat) (JString "0x2a")
              [ElemResult (JString "0x0")] Hk) as [H1 H2].
  split; [exact Hk|]. split; [exact Hc|]. split; [exact (H1 Hc)|exact (H2 Hb)].
Defined.


(** ** Clients made by [NewClientWithRetry] *)

Section NewClientProperties.

Context {Node ABI : Type}.
Variable node_call : Request -> Node -> Node * result Json.
Variable node_batch : list Request -> Node -> Node * result (list ElemResponse).
Variable rpc_Dial : string -> option error.
Variables (method : string) (args : list Arg).

Hypothesis always_fails :
  forall n, exists n' e,
    node_call {| req_Method := method; req_Args := args |} n = (n', Err e).


End NewClientProperties.

(** The pauses of the retrying transport last its interval. *)

Section PauseLengths.

Context {Node ABI : Type}.
Variable node_call : Request -> Node -> Node * result Json.
Variable node_batch : list Request -> Node -> Node * result (list ElemResponse).







End PauseLengths.



(** ** Default resolution on the direct transport: the calls it makes *)

Section ResolverTrace.

Context {Node ABI : Type}.
Variable node_call : Request -> Node -> Node * result Json.
Variable node_batch : list Request -> Node -> Node * result (list ElemResponse).
Variable MinGasprice : Z.
Variable ApplyDefault : UnsignedTransaction -> UnsignedTransaction.
Variable client : @Client Node ABI.

Hypothesis direct : requester client = directRequester node_call node_batch.

Lemma Traced_quiet (ms : list string) (m : @M Node ABI Resolved) :
  (forall w out w', m w = (out, w') -> w' = w) -> Traced ms m.
Proof.
  intros Hq w w' out H. apply Hq in H. subst w'.
  exists []. rewrite app_nil_r. split; [reflexivity|].
  split; [apply sublist_nil_l|]. split; [reflexivity|]. left. constructor.
Qed.

Lemma andThen_Traced (ms1 ms2 : list string) (m : @M Node ABI Resolved)
    (k : UnsignedTransaction -> @M Node ABI Resolved) :
  Traced ms1 m -> (forall tx, Traced ms2 (k tx)) ->
  Traced (ms1 ++ ms2) (andThen m k).
Proof.
  intros Hm Hk w w' out H. unfold andThen, bind in H.
  destruct (m w) as [o1 w1] eqn:E.
  destruct (Hm _ _ _ E) as (evs1 & Ht1 & Hs1 & Hl1 & Hok1).
  assert (Hstop : (o1, w1) = (out, w') ->
          exists evs, trace w' = trace w ++ evs
            /\ sublist (callMethods evs) (ms1 ++ ms2)
            /\ length (callMethods evs) = length evs
            /\ (Forall okCall evs
                \/ exists evs0 req e tx err,
                     evs = evs0 ++ [EvCall req (Err e)]
                     /\ Forall okCall evs0
                     /\ out = Returned (tx, Some err)
                     /\ rootCause err = rootCause e)).
  { intros Heq. inversion Heq; subst. exists evs1. split; [exact Ht1|].
    split; [apply sublist_inserts_r; exact Hs1|]. split; assumption. }
  destruct o1 as [q| |]; [|apply Hstop; exact H|apply Hstop; exact H].
  destruct (snd q) as [err|] eqn:Eq.
  - apply Hstop. rewrite <- H. unfold ret. destruct q; simpl in *; subst.
    reflexivity.
  - destruct Hok1 as [Hok1|(evs0 & req & e & tx & err & _ & _ & Hout & _)];
      [|inversion Hout; subst q; discriminate Eq].
    destruct (Hk _ _ _ _ H) as (evs2 & Ht2 & Hs2 & Hl2 & Hok2).
    exists (evs1 ++ evs2). split; [rewrite Ht2, Ht1, app_assoc; reflexivity|].
    unfold callMethods in *. rewrite omap_app.
    split; [apply sublist_app; assumption|].
    split; [rewrite !length_app; lia|].
    destruct Hok2 as [Hok2|(evs0 & req & e & tx & err & He & Hok0 & Hout & Hroot)].
    + left. apply Forall_app. split; assumption.
    + right. exists (evs1 ++ evs0), req, e, tx, err.
      split; [rewrite He, app_assoc; reflexivity|].
      split; [apply Forall_app; split; assumption|]. split; assumption.
Qed.

(** One call on the direct transport. *)
Lemma direct_call (method : string) (args : list Arg) (w : @World Node ABI) :
  exists n r,
    rr_Call (requester client) method args w
    = (Returned r,
       emit (EvCall {| req_Method := method; req_Args := args |} r)
            {| node := n; trace := trace w; deployResult := deployResult w |}).
Proof.
  rewrite direct. simpl. unfold rpcClient_Call.
  destruct (node_call _ (node w)) as [n r]. exists n, r. reflexivity.
Qed.

Ltac one_call H method args w :=
  let n := fresh "n" in let r := fresh "r" in let Hc := fresh "Hc" in
  destruct (direct_call method args w) as (n & r & Hc);
  rewrite Hc in H; simpl in H.

Ltac traced_leaf :=
  first
    [ exists []; split; [rewrite app_nil_r; reflexivity|];
      split; [apply sublist_nil_l|]; split; [reflexivity|]; left; constructor
    | eexists; split; [unfold emit; simpl; reflexivity|];
      split; [reflexivity|]; split; [reflexivity|];
      first [ solve [left; repeat constructor]
            | right; exists []; do 4 eexists;
              split; [reflexivity|]; split; [constructor|];
              split; reflexivity ] ].

Lemma resolveFrom_Traced tx : Traced [] (resolveFrom client tx).
Proof.
  apply Traced_quiet. intros w out w' H. unfold resolveFrom, ret in H.
  branch H; inversion H; reflexivity.
Qed.

Lemma resolveNonce_Traced tx : Traced ["cfx_getNextNonce"] (resolveNonce client tx).
Proof.
  intros w w' out H. unfold resolveNonce in H.
  destruct (tx_Nonce tx); [inversion H; subst; traced_leaf|].
  unfold bind at 1, lift, deref in H.
  destruct (tx_From tx) as [from|]; [|inversion H; subst; traced_leaf].
  unfold GetNextNonce, bind, assertString, ret, panic in H.
  one_call H "cfx_getNextNonce" [AAddress from] w.
  destruct r as [[|s| | |]|e]; simpl in H;
    try (destruct (hexutil.DecodeBig s)); inversion H; subst; traced_leaf.
Qed.

Lemma resolveGasPrice_Traced tx :
  Traced ["cfx_gasPrice"] (resolveGasPrice MinGasprice client tx).
Proof.
  intros w w' out H. unfold resolveGasPrice in H.
  destruct (tx_GasPrice tx); [inversion H; subst; traced_leaf|].
  unfold GetGasPrice, bind, assertString, ret, panic in H.
  one_call H "cfx_gasPrice" (@nil Arg) w.
  destruct r as [[|s| | |]|e]; simpl in H;
    try (destruct (hexutil.DecodeBig s)); inversion H; subst; traced_leaf.
Qed.

Lemma resolveEpochHeight_Traced tx :
  Traced ["cfx_epochNumber"] (resolveEpochHeight client tx).
Proof.
  intros w w' out H. unfold resolveEpochHeight in H.
  destruct (tx_EpochHeight tx); [inversion H; subst; traced_leaf|].
  unfold GetEpochNumber, bind, assertString, ret, panic in H.
  one_call H "cfx_epochNumber" [AEpoch EpochLatestState] w.
  destruct r as [[|s| | |]|e]; simpl in H;
    try (destruct (hexutil.DecodeBig s)); inversion H; subst; traced_leaf.
Qed.

Lemma resolveGasAndStorage_Traced tx :
  Traced ["cfx_estimateGasAndCollateral"] (resolveGasAndStorage client tx).
Proof.
  intros w w' out H. unfold resolveGasAndStorage in H.
  destruct (tx_StorageLimit tx), (tx_Gas tx);
    try (inversion H; subst; traced_leaf);
    unfold EstimateGasAndCollateral, bind, ret in H;
    match type of H with
    | context [rr_Call _ ?m ?a w] => one_call H m a w
    end;
    (destruct r as [[|s| | |]|e]; simpl in H; inversion H; subst; traced_leaf).
Qed.

Lemma ApplyUnsignedTransactionDefault_Traced tx :
  Traced resolverMethods
         (ApplyUnsignedTransactionDefault MinGasprice ApplyDefault (Some client) tx).
Proof.
  unfold ApplyUnsignedTransactionDefault.
  change resolverMethods
    with ([] ++ ["cfx_getNextNonce"] ++ ["cfx_gasPrice"] ++ ["cfx_epochNumber"]
          ++ ["cfx_estimateGasAndCollateral"] ++ []).
  apply andThen_Traced; [apply resolveFrom_Traced|]. intros tx1.
  apply andThen_Traced; [apply resolveNonce_Traced|]. intros tx2.
  apply andThen_Traced; [apply resolveGasPrice_Traced|]. intros tx3.
  apply andThen_Traced; [apply resolveEpochHeight_Traced|]. intros tx4.
  apply andThen_Traced; [apply resolveGasAndStorage_Traced|]. intros tx5.
  apply Traced_quiet. intros w out w' H. inversion H. reflexivity.
Qed.

End ResolverTrace.

(** X4: on the direct transport, whatever the draft and however resolution
    ends (return, error or panic), it appends only calls to the trace, and
    their methods are a sublist of nonce, gas price, epoch number,
    estimate: each is called at most once, in that order, and nothing else
    is called. *)
Theorem resolver_calls_in_order
    {Node ABI : Type}
    (node_call : Request -> Node -> Node * result Json)
    (node_batch : list Request -> Node -> Node * result (list ElemResponse))
    (MinGasprice : Z) (ApplyDefault : UnsignedTransaction -> UnsignedTransaction)
    (client : @Client Node ABI) (tx : UnsignedTransaction)
    (w w' : World) (out : Run Resolved) :
  requester client = directRequester node_call node_batch ->
  ApplyUnsignedTransactionDefault MinGasprice ApplyDefault (Some client) tx w
  = (out, w') ->
  exists evs,
    trace w' = trace w ++ evs
    /\ sublist (callMethods evs) resolverMethods
    /\ length (callMethods evs) = length evs.
Proof.
  intros Hd H.
  destruct (ApplyUnsignedTransactionDefault_Traced node_call node_batch
              MinGasprice ApplyDefault client Hd tx w w' out H)
    as (evs & Ht & Hs & Hl & _).
  exists evs. split; [exact Ht|]. split; assumption.
Qed.

Lemma resolver_calls_in_order_witness :
  let c := Scenario.client JNull Scenario.noRisk Scenario.noSummary
                           (Some Scenario.keystore) in
  exists out w' evs,
    ApplyUnsignedTransactionDefault Scenario.minGasprice Scenario.applyDefault
      (Some c) newUnsignedTransaction (Scenario.start 0%nat) = (out, w')
    /\ trace w' = trace (Scenario.start 0%nat) ++ evs
    /\ sublist (callMethods evs) resolverMethods
    /\ length (callMethods evs) = length evs.
Proof.
  intros c.
  destruct (ApplyUnsignedTransactionDefault Scenario.minGasprice
              Scenario.applyDefault (Some c) newUnsignedTransaction
              (Scenario.start 0%nat)) as [out w'] eqn:E.
  destruct (resolver_calls_in_order (Scenario.chain_call JNull)
              (Scenario.chain_batch Scenario.noRisk Scenario.noSummary)
              Scenario.minGasprice Scenario.applyDefault c
              newUnsignedTransaction (Scenario.start 0%nat) w' out eq_refl E)
    as (evs & H).
  exists out, w', evs. split; [reflexivity|exact H].
Defined.

(** X5: on the direct transport, a call that fails is the last thing
    resolution does: no call follows it, and resolution returns an error
    that has the failed call's error at the bottom of its wrappings. *)
Theorem resolver_stops_at_failed_call
    {Node ABI : Type}
    (node_call : Request -> Node -> Node * result Json)
    (node_batch : list Request -> Node -> Node * result (list ElemResponse))
    (MinGasprice : Z) (ApplyDefault : UnsignedTransaction -> UnsignedTransaction)
    (client : @Client Node ABI) (tx : UnsignedTransaction)
    (w w' : World) (out : Run Resolved)
    (evs : list Event) (i : nat) (req : Request) (e : error) :
  requester client = directRequester node_call node_batch ->
  ApplyUnsignedTransactionDefault MinGasprice ApplyDefault (Some client) tx w
  = (out, w') ->
  trace w' = trace w ++ evs ->
  evs !! i = Some (EvCall req (Err e)) ->
  S i = length evs
  /\ exists tx' err, out = Returned (tx', Some err)
                     /\ rootCause err = rootCause e.
Proof.
  intros Hd H Ht Hi.
  destruct (ApplyUnsignedTransactionDefault_Traced node_call node_batch
              MinGasprice ApplyDefault client Hd tx w w' out H)
    as (evs' & Ht' & _ & _ & Hok).
  rewrite Ht in Ht'. apply app_inv_head in Ht'. subst evs'.
  destruct Hok as [Hok|(evs0 & req0 & e0 & tx' & err & He & Hok0 & Hout & Hroot)].
  - exfalso. rewrite Forall_lookup in Hok. exact (Hok _ _ Hi).
  - subst evs. destruct (decide (i < length evs0)%nat) as [Hlt|Hge].
    + exfalso. rewrite lookup_app_l in Hi by exact Hlt.
      rewrite Forall_lookup in Hok0. exact (Hok0 _ _ Hi).
    + assert (Hlen : (i < length (evs0 ++ [EvCall req0 (Err e0)]))%nat)
        by (apply lookup_lt_is_Some; eexists; exact Hi).
      rewrite length_app in Hlen |- *. simpl in Hlen |- *.
      assert (i = length evs0) by lia. subst i.
      rewrite list_lookup_middle in Hi by reflexivity.
      inversion Hi; subst. split; [lia|]. exists tx', err.
      split; first [assumption|reflexivity].
Qed.

Lemma resolver_stops_at_failed_call_witness :
  let c : @Client nat unit :=
    {| nodeURL := "http://localhost:12537";
       requester := directRequester (Scenario.partial_call "cfx_gasPrice")
                                    Scenario.down_batch;
       accountManager := Some Scenario.keystore |} in
  exists out w' evs req e,
    ApplyUnsignedTransactionDefault Scenario.minGasprice Scenario.applyDefault
      (Some c) newUnsignedTransaction (Scenario.start 0%nat) = (out, w')
    /\ trace w' = trace (Scenario.start 0%nat) ++ evs
    /\ evs !! 1%nat = Some (EvCall req (Err e))
    /\ 2%nat = length evs
    /\ exists tx' err, out = Returned (tx', Some err)
                       /\ rootCause err = rootCause e.
Proof.
  intros c.
  destruct (ApplyUnsignedTransactionDefault Scenario.minGasprice
              Scenario.applyDefault (Some c) newUnsignedTransaction
              (Scenario.start 0%nat)) as [out w'] eqn:E.
  assert (Ht : exists evs req e,
             trace w' = trace (Scenario.start 0%nat) ++ evs
             /\ evs !! 1%nat = Some (EvCall req (Err e))).
  { vm_compute in E. inversion E; subst. do 3 eexists.
    split; reflexivity. }
  destruct Ht as (evs & req & e & Ht & Hi).
  exists out, w', evs, req, e. split; [reflexivity|].
  split; [exact Ht|]. split; [exact Hi|].
  exact (resolver_stops_at_failed_call (Scenario.partial_call "cfx_gasPrice")
           Scenario.down_batch Scenario.minGasprice Scenario.applyDefault c
           newUnsignedTransaction (Scenario.start 0%nat) w' out evs 1%nat req e
           eq_refl E Ht Hi).
Defined.

(** X6: on the direct transport, [SendTransaction] without an account
    manager, or with one whose signing fails, never calls
    cfx_sendRawTransaction and never returns a hash, however it ends: a run
    that returns returns an error, a run that does not return stopped in
    the resolver, and either way the only calls made are the resolver's. *)
Theorem unsigned_transaction_is_never_sent
    {Node ABI : Type}
    (node_call : Request -> Node -> Node * result Json)
    (node_batch : list Request -> Node -> Node * result (list ElemResponse))
    (MinGasprice : Z) (ApplyDefault : UnsignedTransaction -> UnsignedTransaction)
    (client : @Client Node ABI) (tx : UnsignedTransaction)
    (w w' : World) (out : Run (UnsignedTransaction * result Hash)) :
  requester client = directRequester node_call node_batch ->
  (accountManager client = None
   \/ exists am, accountManager client = Some am
                 /\ forall t, exists e, SignTransaction am t = Err e) ->
  SendTransaction MinGasprice ApplyDefault client tx w = (out, w') ->
  (forall p, out = Returned p -> exists err, snd p = Err err)
  /\ ((forall p, out <> Returned p) ->
      exists o1,
        ApplyUnsignedTransactionDefault MinGasprice ApplyDefault
          (Some client) tx w = (o1, w')
        /\ forall q, o1 <> Returned q)
  /\ exists evs,
       trace w' = trace w ++ evs
       /\ sublist (callMethods evs) resolverMethods
       /\ length (callMethods evs) = length evs
       /\ "cfx_sendRawTransaction" ∉ callMethods evs.
Proof.
  intros Hd Hsign H. unfold SendTransaction, bind in H.
  destruct (ApplyUnsignedTransactionDefault MinGasprice ApplyDefault
              (Some client) tx w) as [o1 w1] eqn:E.
  destruct (ApplyUnsignedTransactionDefault_Traced node_call node_batch
              MinGasprice ApplyDefault client Hd tx w w1 _ E)
    as (evs & Ht & Hs & Hl & _).
  assert (Hres : w' = w1
                 /\ (forall p, out = Returned p -> exists err, snd p = Err err)
                 /\ ((forall p, out <> Returned p) -> forall q, o1 <> Returned q)).
  { destruct o1 as [q|reason|].
    - assert (Hq : w' = w1 /\ exists t err, out = Returned (t, Err err)).
      { destruct (snd q).
        - inversion H; subst. split; [reflexivity|]. do 2 eexists. reflexivity.
        - destruct Hsign as [Hnone|(am & Ham & Hfail)].
          + rewrite Hnone in H. inversion H; subst.
            split; [reflexivity|]. do 2 eexists. reflexivity.
          + rewrite Ham in H. destruct (Hfail (fst q)) as (e & He).
            rewrite He in H. inversion H; subst.
            split; [reflexivity|]. do 2 eexists. reflexivity. }
      destruct Hq as (-> & t & err & ->). split; [reflexivity|]. split.
      + intros p Hp. inversion Hp; subst. exists err. reflexivity.
      + intros Hp. exfalso. apply (Hp (t, Err err)). reflexivity.
    - inversion H; subst. split; [reflexivity|]. split.
      + intros p Hp. discriminate Hp.
      + intros _ q Hq. discriminate Hq.
    - inversion H; subst. split; [reflexivity|]. split.
      + intros p Hp. discriminate Hp.
      + intros _ q Hq. discriminate Hq. }
  destruct Hres as (-> & Hret & Hstop).
  split; [exact Hret|]. split.
  { intros Hp. exists o1. split; [reflexivity|exact (Hstop Hp)]. }
  exists evs. split; [exact Ht|]. split; [exact Hs|]. split; [exact Hl|].
  intros Hin. apply sublist_submseteq in Hs.
  pose proof (elem_of_submseteq _ _ _ Hin Hs) as Hin'.
  unfold resolverMethods in Hin'.
  rewrite !elem_of_cons, elem_of_nil in Hin'. intuition discriminate.
Qed.

Lemma unsigned_transaction_is_never_sent_witness :
  let c := Scenario.client JNull Scenario.noRisk Scenario.noSummary None in
  exists out w',
    accountManager c = None
    /\ SendTransaction Scenario.minGasprice Scenario.applyDefault c
         newUnsignedTransaction (Scenario.start 0%nat) = (out, w')
    /\ (exists reason, out = Panicked reason)
    /\ exists evs,
         trace w' = trace (Scenario.start 0%nat) ++ evs
         /\ sublist (callMethods evs) resolverMethods
         /\ length (callMethods evs) = length evs
         /\ "cfx_sendRawTransaction" ∉ callMethods evs.
Proof.
  intros c.
  destruct (SendTransaction Scenario.minGasprice Scenario.applyDefault c
              newUnsignedTransaction (Scenario.start 0%nat)) as [out w'] eqn:E.
  destruct (unsigned_transaction_is_never_sent (Scenario.chain_call JNull)
              (Scenario.chain_batch Scenario.noRisk Scenario.noSummary)
              Scenario.minGasprice Scenario.applyDefault c
              newUnsignedTransaction (Scenario.start 0%nat) w' out eq_refl
              (or_introl eq_refl) E) as (_ & _ & Hevs).
  exists out, w'. split; [reflexivity|]. split; [reflexivity|].
  split; [|exact Hevs].
  vm_compute in E. inversion E; subst. eexists. reflexivity.
Defined.

(** ** Default resolution: what a successful resolution leaves *)

(** X7: a resolution that returns without error returns a draft whose
    nonce, gas price and epoch height are set, and whose [from] is set when
    it was set on entry or an account manager is configured; [ApplyDefault]
    is taken to keep set fields. *)
Theorem resolution_sets_the_fields
    {Node ABI : Type} (MinGasprice : Z)
    (ApplyDefault : UnsignedTransaction -> UnsignedTransaction)
    (client : @Client Node ABI) (tx : UnsignedTransaction)
    (w w' : @World Node ABI) (p : Resolved) :
  (forall t, keeps t (ApplyDefault t)) ->
  ApplyUnsignedTransactionDefault MinGasprice ApplyDefault (Some client) tx w
  = (Returned p, w') ->
  snd p = None ->
  is_Some (tx_Nonce (fst p)) /\ is_Some (tx_GasPrice (fst p))
  /\ is_Some (tx_EpochHeight (fst p))
  /\ (is_Some (tx_From tx) \/ is_Some (accountManager client) ->
      is_Some (tx_From (fst p))).
Proof.
  intros HA H Hp.
  destruct (estimate_after_the_other_fields MinGasprice ApplyDefault client
              tx w w' p H Hp)
    as (tx4 & w4 & q5 & H5 & Hpq & Hn & Hg & He & Hf).
  assert (K : keeps tx4 (fst p)).
  { subst p. simpl. eapply keeps_trans; [|apply HA].
    eapply resolveGasAndStorage_Keeps; exact H5. }
  destruct K as (Kf & Kn & Kg & _ & _ & _ & Ke & _).
  split; [destruct Hn as [v Hv]; exists v; auto|].
  split; [destruct Hg as [v Hv]; exists v; auto|].
  split; [destruct He as [v Hv]; exists v; auto|].
  intros Hcan. destruct (Hf Hcan) as [v Hv]. exists v. auto.
Qed.

Lemma resolution_sets_the_fields_witness :
  let c := Scenario.client JNull Scenario.noRisk Scenario.noSummary
                           (Some Scenario.keystore) in
  exists p w',
    ApplyUnsignedTransactionDefault Scenario.minGasprice Scenario.applyDefault
      (Some c) newUnsignedTransaction (Scenario.start 0%nat) = (Returned p, w')
    /\ snd p = None
    /\ is_Some (tx_Nonce (fst p)) /\ is_Some (tx_GasPrice (fst p))
    /\ is_Some (tx_EpochHeight (fst p)) /\ is_Some (tx_From (fst p)).
Proof.
  intros c.
  destruct (ApplyUnsignedTransactionDefault Scenario.minGasprice
              Scenario.applyDefault (Some c) newUnsignedTransaction
              (Scenario.start 0%nat)) as [[p| |] w'] eqn:E;
    [|vm_compute in E; discriminate E|vm_compute in E; discriminate E].
  assert (Hp : snd p = None).
  { vm_compute in E. inversion E; subst. reflexivity. }
  destruct (resolution_sets_the_fields Scenario.minGasprice Scenario.applyDefault
              c newUnsignedTransaction (Scenario.start 0%nat) w' p
              applyDefault_keeps E Hp) as (Hn & Hg & He & Hf).
  exists p, w'. split; [reflexivity|]. split; [exact Hp|].
  split; [exact Hn|]. split; [exact Hg|]. split; [exact He|].
  apply Hf. right. eexists. reflexivity.
Defined.

(** X8: with an account manager configured and [from] unset, resolution
    reports a keystore without accounts with its own error and an error of
    the account manager wrapped, in both cases before any call (the world
    is as it was); and when the account manager has a default account, a
    resolution that returns without error has put it in [from]. *)
Theorem default_account_is_used_or_reported
    {Node ABI : Type} (MinGasprice : Z)
    (ApplyDefault : UnsignedTransaction -> UnsignedTransaction)
    (client : @Client Node ABI) (am : AccountManagerOperator)
    (tx : UnsignedTransaction) (w : @World Node ABI) :
  (forall t, keeps t (ApplyDefault t)) ->
  accountManager client = Some am ->
  tx_From tx = None ->
  (GetDefault am = Ok None ->
   ApplyUnsignedTransactionDefault MinGasprice ApplyDefault (Some client) tx w
   = (Returned (tx, Some (errorsNew
                            (Sprintf "no account exist in keystore directory" []))),
      w))
  /\ (forall e, GetDefault am = Err e ->
      ApplyUnsignedTransactionDefault MinGasprice ApplyDefault (Some client) tx w
      = (Returned (tx, Some (WrapError e (Sprintf "get default account error" []))),
         w))
  /\ (forall a p w', GetDefault am = Ok (Some a) ->
      ApplyUnsignedTransactionDefault MinGasprice ApplyDefault (Some client) tx w
      = (Returned p, w') ->
      snd p = None -> tx_From (fst p) = Some a).
Proof.
  intros HA Ham Hfrom. split; [|split].
  - intros Hdef. apply empty_keystore_is_reported with (am := am); assumption.
  - intros e Hdef.
    unfold ApplyUnsignedTransactionDefault, andThen, bind, resolveFrom.
    rewrite Hfrom, Ham, Hdef. reflexivity.
  - intros a p w' Hdef H Hp.
    unfold ApplyUnsignedTransactionDefault in H.
    apply andThen_ok in H; [|exact Hp]. destruct H as (q1 & w1 & H1 & E1 & H).
    assert (Hq1 : tx_From (fst q1) = Some a).
    { unfold resolveFrom in H1. rewrite Hfrom, Ham, Hdef in H1.
      inversion H1; subst. reflexivity. }
    assert (K : keeps (fst q1) (fst p)).
    { revert H. generalize w1 w' p. clear -HA. intros w1 w' p.
      apply (andThen_Keeps (fst q1)); [apply resolveNonce_Keeps|].
      intros tx2 K2. apply andThen_Keeps;
        [intros v v' r Hr; eapply keeps_trans; [exact K2|];
         eapply resolveGasPrice_Keeps; exact Hr|].
      intros tx3 K3. apply andThen_Keeps;
        [intros v v' r Hr; eapply keeps_trans; [exact K3|];
         eapply resolveEpochHeight_Keeps; exact Hr|].
      intros tx4 K4. apply andThen_Keeps;
        [intros v v' r Hr; eapply keeps_trans; [exact K4|];
         eapply resolveGasAndStorage_Keeps; exact Hr|].
      intros tx5 K5 v v' r Hr. inversion Hr; subst; simpl.
      eapply keeps_trans; [exact K5|apply HA]. }
    destruct K as (Kf & _). exact (Kf _ Hq1).
Qed.

Lemma default_account_is_used_or_reported_witness :
  let c := Scenario.client JNull Scenario.noRisk Scenario.noSummary
                           (Some Scenario.emptyKeystore) in
  (forall t, keeps t (Scenario.applyDefault t))
  /\ accountManager c = Some Scenario.emptyKeystore
  /\ tx_From newUnsignedTransaction = None
  /\ GetDefault Scenario.emptyKeystore = Ok None
  /\ ApplyUnsignedTransactionDefault Scenario.minGasprice Scenario.applyDefault
       (Some c) newUnsignedTransaction (Scenario.start 0%nat)
     = (Returned (newUnsignedTransaction,
                  Some (errorsNew
                          (Sprintf "no account exist in keystore directory" []))),
        Scenario.start 0%nat).
Proof.
  intros c.
  destruct (default_account_is_used_or_reported Scenario.minGasprice
              Scenario.applyDefault c Scenario.emptyKeystore
              newUnsignedTransaction (Scenario.start 0%nat)
              applyDefault_keeps eq_refl eq_refl) as (H & _).
  split; [exact applyDefault_keeps|]. split; [reflexivity|].
  split; [reflexivity|]. split; [reflexivity|]. exact (H eq_refl).
Defined.

(** ** Draft creation *)

(** X9: [CreateUnsignedTransaction] does not depend on the account manager
    (two clients with the same transport give the same result), and the
    draft it returns has the [from] and [to] it was given, and the amount
    when one was given; [ApplyDefault] is taken to keep set fields. *)
Theorem created_draft_has_its_parties
    {Node ABI : Type} (MinGasprice : Z)
    (ApplyDefault : UnsignedTransaction -> UnsignedTransaction)
    (c1 c2 : @Client Node ABI) (from to : Address) (amount : option Z)
    (data : list Byte.byte) (w : @World Node ABI) :
  (forall t, keeps t (ApplyDefault t)) ->
  requester c1 = requester c2 ->
  CreateUnsignedTransaction MinGasprice ApplyDefault (Some c1) from to amount data w
  = CreateUnsignedTransaction MinGasprice ApplyDefault (Some c2) from to amount data w
  /\ (forall tx' w',
        CreateUnsignedTransaction MinGasprice ApplyDefault (Some c1)
          from to amount data w = (Returned (Ok tx'), w') ->
        tx_From tx' = Some from /\ tx_To tx' = Some to
        /\ (forall v, amount = Some v -> tx_Value tx' = Some v)).
Proof.
  intros HA Hreq. split.
  - destruct c1 as [u1 r1 a1], c2 as [u2 r2 a2]. simpl in Hreq. subst r2.
    reflexivity.
  - intros tx' w' H. unfold CreateUnsignedTransaction, bind in H.
    match type of H with
    | context [ApplyUnsignedTransactionDefault _ _ _ ?t w] =>
        destruct (ApplyUnsignedTransactionDefault MinGasprice ApplyDefault
                    (Some c1) t w) as [[p| |] w1] eqn:E; try discriminate H;
        pose proof (ApplyUnsignedTransactionDefault_Keeps MinGasprice
                      ApplyDefault c1 HA t w w1 p E) as K
    end.
    destruct (snd p); inversion H; subst.
    destruct K as (Kf & _ & _ & _ & Kv & _ & _ & _ & Kt & _).
    split; [apply Kf; reflexivity|]. split; [apply Kt; reflexivity|].
    intros v ->. apply Kv. reflexivity.
Qed.

Lemma created_draft_has_its_parties_witness :
  let c1 := Scenario.client JNull Scenario.noRisk Scenario.noSummary None in
  let c2 := Scenario.client JNull Scenario.noRisk Scenario.noSummary
                            (Some Scenario.emptyKeystore) in
  (forall t, keeps t (Scenario.applyDefault t))
  /\ requester c1 = requester c2
  /\ exists tx' w',
       CreateUnsignedTransaction Scenario.minGasprice Scenario.applyDefault
         (Some c1) "0x19f4" "0x160e" (Some 10) [] (Scenario.start 0%nat)
       = (Returned (Ok tx'), w')
       /\ tx_From tx' = Some "0x19f4" /\ tx_To tx' = Some "0x160e"
       /\ tx_Value tx' = Some 10.
Proof.
  intros c1 c2.
  destruct (created_draft_has_its_parties Scenario.minGasprice
              Scenario.applyDefault c1 c2 "0x19f4" "0x160e" (Some 10) []
              (Scenario.start 0%nat) applyDefault_keeps eq_refl) as [_ H].
  split; [exact applyDefault_keeps|]. split; [reflexivity|].
  destruct (CreateUnsignedTransaction Scenario.minGasprice Scenario.applyDefault
              (Some c1) "0x19f4" "0x160e" (Some 10) [] (Scenario.start 0%nat))
    as [[[tx'|e]| |] w'] eqn:E;
    [|vm_compute in E; discriminate E|vm_compute in E; discriminate E
     |vm_compute in E; discriminate E].
  destruct (H tx' w' eq_refl) as (Hf & Ht & Hv).
  exists tx', w'. split; [reflexivity|]. split; [exact Hf|].
  split; [exact Ht|exact (Hv 10 eq_refl)].
Defined.

(** ** The polling loop on the direct transport *)

Section LoopProperties.

Context {Node ABI : Type}.
Variable node_call : Request -> Node -> Node * result Json.
Variable node_batch : list Request -> Node -> Node * result (list ElemResponse).
Variable client : @Client Node ABI.
Variables (abi : ABI) (txhash : Hash) (timeout ticker : TimerChan).

Hypothesis direct : requester client = directRequester node_call node_batch.

Lemma lookup_direct (w : @World Node ABI) n r :
  node_call (lookupOf txhash) (node w) = (n, r) ->
  rr_Call (requester client) "cfx_getTransactionByHash" [AHash txhash] w
  = (Returned r, afterLookup txhash w n r).
Proof.
  intros H. rewrite direct. simpl. unfold rpcClient_Call.
  change {| req_Method := "cfx_getTransactionByHash";
            req_Args := [AHash txhash] |} with (lookupOf txhash).
  rewrite H. reflexivity.
Qed.

Lemma afterLookup_attempts (w : @World Node ABI) n r :
  attempts (trace (afterLookup txhash w n r)) = S (attempts (trace w)).
Proof.
  unfold afterLookup. rewrite attempts_emit. simpl. unfold attempts. simpl. lia.
Qed.

(** A tick that finds a status ends the goroutine with the result set. *)
Lemma tick_with_status (w : @World Node ABI) n t s :
  node_call (lookupOf txhash) (node w) = (n, Ok (JTransaction t)) ->
  txn_Status t = Some s ->
  exists w',
    onTick client abi txhash w = (Returned true, w')
    /\ node w' = n
    /\ trace w' = trace (afterLookup txhash w n (Ok (JTransaction t)))
    /\ deployResult w' = resultAtStatus abi txhash t s (deployResult w).
Proof.
  intros Hn Hs. apply lookup_direct in Hn.
  unfold onTick, GetTransactionByHash, bind. rewrite Hn. simpl.
  unfold bind, lift. simpl. rewrite Hs. unfold resultAtStatus.
  destruct (Uint64 s =? 1); simpl;
    (eexists; split; [reflexivity|]; split; [reflexivity|];
     split; reflexivity).
Qed.

Lemma deployLoop_pending (k : nat) :
  forall (w : @World Node ABI) (t : Transaction) (n' : Node) (s : Z)
         (rest : list SelectEvent),
    pendingThen node_call (lookupOf txhash) k (node w) t n' ->
    txn_Status t = Some s ->
    exists w',
      deployLoop (replicate (S k) FromTicker ++ rest) client abi txhash
                 timeout ticker w = (Returned tt, w')
      /\ node w' = n'
      /\ attempts (trace w') = (attempts (trace w) + k + 1)%nat
      /\ deployResult w' = resultAtStatus abi txhash t s (deployResult w).
Proof.
  induction k as [|k IH]; intros w t n' s rest Hp Hs.
  - simpl in Hp.
    destruct (tick_with_status w n' t s Hp Hs) as (w' & Ht & Hn & Htr & Hres).
    change (replicate 1 FromTicker ++ rest) with (FromTicker :: rest).
    cbn [deployLoop]. unfold bind at 1. rewrite Ht.
    exists w'. split; [reflexivity|]. split; [exact Hn|].
    split; [rewrite Htr, afterLookup_attempts; lia|exact Hres].
  - destruct Hp as (n1 & t0 & Hn & Hs0 & Hp).
    apply lookup_direct in Hn.
    change (replicate (S (S k)) FromTicker ++ rest)
      with (FromTicker :: (replicate (S k) FromTicker ++ rest)).
    cbn [deployLoop]. unfold bind at 1.
    rewrite (tick_status_unset_continues client abi txhash _ _ t0 Hn Hs0).
    destruct (IH (afterLookup txhash w n1 (Ok (JTransaction t0))) t n' s rest Hp Hs)
      as (w' & Hr & Hnode & Ha & Hres).
    exists w'. split; [exact Hr|]. split; [exact Hnode|].
    split; [rewrite Ha, afterLookup_attempts; lia|exact Hres].
Qed.

Hypothesis never_resolves :
  forall n, exists n' t0,
    node_call (lookupOf txhash) n = (n', Ok (JTransaction t0))
    /\ txn_Status t0 = None.

Lemma deployLoop_times_out (k : nat) :
  forall (w : @World Node ABI) (t : Time) (rest : list SelectEvent),
    exists w',
      deployLoop (replicate k FromTicker ++ FromTimeout t :: rest) client abi
                 txhash timeout ticker w = (Returned tt, w')
      /\ attempts (trace w') = (attempts (trace w) + k)%nat
      /\ deployResult w' = resultAtTimeout txhash t (deployResult w).
Proof.
  induction k as [|k IH]; intros w t rest.
  - simpl. eexists. split; [reflexivity|]. split; [simpl; lia|reflexivity].
  - destruct (never_resolves (node w)) as (n1 & t0 & Hn & Hs0).
    apply lookup_direct in Hn.
    change (replicate (S k) FromTicker ++ FromTimeout t :: rest)
      with (FromTicker :: (replicate k FromTicker ++ FromTimeout t :: rest)).
    cbn [deployLoop]. unfold bind at 1.
    rewrite (tick_status_unset_continues client abi txhash _ _ t0 Hn Hs0).
    destruct (IH (afterLookup txhash w n1 (Ok (JTransaction t0))) t rest)
      as (w' & Hr & Ha & Hres).
    exists w'. split; [exact Hr|].
    split; [rewrite Ha, afterLookup_attempts; lia|exact Hres].
Qed.

End LoopProperties.

(** X10: on the direct transport, when the node has the transaction without
    a status for [k] lookups and then with a status, the polling loop makes
    exactly [k + 1] lookups and ends there, whatever the select would
    receive afterwards: with an error naming the hash when the low 64 bits
    of the status are 1, and otherwise with a contract bound to the
    transaction's created address. *)
Theorem polling_ends_at_the_first_status
    {Node ABI : Type}
    (node_call : Request -> Node -> Node * result Json)
    (node_batch : list Request -> Node -> Node * result (list ElemResponse))
    (client : @Client Node ABI) (abi : ABI) (txhash : Hash)
    (timeout ticker : TimerChan) (k : nat) (w : @World Node ABI)
    (t : Transaction) (n' : Node) (s : Z) (rest : list SelectEvent) :
  requester client = directRequester node_call node_batch ->
  pendingThen node_call (lookupOf txhash) k (node w) t n' ->
  txn_Status t = Some s ->
  exists w',
    deployLoop (replicate (S k) FromTicker ++ rest) client abi txhash
               timeout ticker w = (Returned tt, w')
    /\ node w' = n'
    /\ attempts (trace w') = (attempts (trace w) + k + 1)%nat
    /\ deployResult w' = resultAtStatus abi txhash t s (deployResult w).
Proof.
  intros Hd Hp Hs.
  exact (deployLoop_pending node_call node_batch client abi txhash timeout
           ticker Hd k w t n' s rest Hp Hs).
Qed.

Lemma polling_ends_at_the_first_status_witness :
  let c : @Client nat unit :=
    {| nodeURL := "http://localhost:12537";
       requester := directRequester (Scenario.mining_call 2 0) Scenario.down_batch;
       accountManager := None |} in
  let timeout := {| timer_d := 3600 * Second |} in
  let ticker := {| timer_d := 2000 * Millisecond |} in
  pendingThen (Scenario.mining_call 2 0) (lookupOf "0x1234") 2 0%nat
              (Scenario.minedTx 0) 3%nat
  /\ exists w',
       deployLoop (replicate 3 FromTicker ++ [FromTicker]) c tt "0x1234"
                  timeout ticker (Scenario.start 0%nat) = (Returned tt, w')
       /\ attempts (trace w') = 3%nat
       /\ DeployedContract (deployResult w')
          = Some {| ct_ABI := tt; ct_Address := Some "0x8d10" |}.
Proof.
  intros c timeout ticker.
  assert (Hp : pendingThen (Scenario.mining_call 2 0) (lookupOf "0x1234") 2 0%nat
                 (Scenario.minedTx 0) 3%nat).
  { simpl. do 2 eexists. split; [reflexivity|]. split; [reflexivity|].
    do 2 eexists. split; [reflexivity|]. split; reflexivity. }
  split; [exact Hp|].
  destruct (polling_ends_at_the_first_status (Scenario.mining_call 2 0)
              Scenario.down_batch c tt "0x1234" timeout ticker 2
              (Scenario.start 0%nat) (Scenario.minedTx 0) 3%nat 0 [FromTicker]
              eq_refl Hp eq_refl) as (w' & Hr & _ & Ha & Hres).
  exists w'. split; [exact Hr|]. split; [exact Ha|].
  rewrite Hres. reflexivity.
Defined.

(** X11: on the direct transport, when the node never has a status for the
    transaction, the polling loop goes through every tick it receives, one
    lookup each, and ends when the timeout fires, with a timeout error
    that carries the instant received and the hash and without a contract;
    nothing the select would receive afterwards is looked at. *)
Theorem polling_without_status_times_out
    {Node ABI : Type}
    (node_call : Request -> Node -> Node * result Json)
    (node_batch : list Request -> Node -> Node * result (list ElemResponse))
    (client : @Client Node ABI) (abi : ABI) (txhash : Hash)
    (timeout ticker : TimerChan) (k : nat) (w : @World Node ABI)
    (t : Time) (rest : list SelectEvent) :
  requester client = directRequester node_call node_batch ->
  (forall n, exists n' t0,
      node_call (lookupOf txhash) n = (n', Ok (JTransaction t0))
      /\ txn_Status t0 = None) ->
  exists w',
    deployLoop (replicate k FromTicker ++ FromTimeout t :: rest) client abi
               txhash timeout ticker w = (Returned tt, w')
    /\ attempts (trace w') = (attempts (trace w) + k)%nat
    /\ deployResult w' = resultAtTimeout txhash t (deployResult w).
Proof.
  intros Hd Hnever.
  exact (deployLoop_times_out node_call node_batch client abi txhash timeout
           ticker Hd Hnever k w t rest).
Qed.

Lemma polling_without_status_times_out_witness :
  let c : @Client nat unit :=
    {| nodeURL := "http://localhost:12537";
       requester := directRequester Scenario.pending_call Scenario.down_batch;
       accountManager := None |} in
  let timeout := {| timer_d := 3600 * Second |} in
  let ticker := {| timer_d := 2000 * Millisecond |} in
  exists w',
    deployLoop (replicate 4 FromTicker ++ FromTimeout (UnixNano 9000) :: [FromTicker])
               c tt "0x1234" timeout ticker (Scenario.start 0%nat)
    = (Returned tt, w')
    /\ attempts (trace w') = 4%nat
    /\ deployResult w'
       = resultAtTimeout "0x1234" (UnixNano 9000) Scenario.emptyResult.
Proof.
  intros c timeout ticker.
  exact (polling_without_status_times_out Scenario.pending_call
           Scenario.down_batch c tt "0x1234" timeout ticker 4
           (Scenario.start 0%nat) (UnixNano 9000) [FromTicker] eq_refl
           (fun n => ex_intro _ (S n)
                       (ex_intro _ Scenario.pendingTx (conj eq_refl eq_refl)))).
Defined.

(** X12: the deployment timeout is the one-hour timer when there is no
    option or its timeout is zero, and the option's timeout otherwise
    (a negative one included). *)
Theorem deployment_timeout_choice
    {Node ABI : Type} (option : option ContractDeployOption)
    (w : @World Node ABI) :
  fst (deployTimeout option w)
  = Returned {| timer_d := match option with
                           | Some o => if opt_Timeout o =? 0 then 3600 * Second
                                       else opt_Timeout o
                           | None => 3600 * Second
                           end |}
  /\ last (trace (snd (deployTimeout option w)))
     = Some (EvAfter (match option with
                      | Some o => if opt_Timeout o =? 0 then 3600 * Second
                                  else opt_Timeout o
                      | None => 3600 * Second
                      end)).
Proof.
  split; [apply deployTimeout_choice|].
  unfold deployTimeout, bind, After, emit. simpl.
  destruct option as [o|]; [|apply last_snoc].
  destruct (opt_Timeout o =? 0); simpl; apply last_snoc.
Qed.

Lemma done_is_sent_and_closed_witness :
  let c := Scenario.client JNull Scenario.noRisk Scenario.noSummary None in
  exists out w' evs,
    DeployContract Scenario.abiUnmarshal Scenario.abiPack Scenario.minGasprice
      Scenario.applyDefault c None [] [Byte.x60] [] [FromTicker]
      (Scenario.start 0%nat) = (out, w')
    /\ out <> OutOfFuel
    /\ trace w' = evs ++ [EvDoneSend; EvDoneClose].
Proof.
  intros c.
  destruct (DeployContract Scenario.abiUnmarshal Scenario.abiPack
              Scenario.minGasprice Scenario.applyDefault c None [] [Byte.x60] []
              [FromTicker] (Scenario.start 0%nat)) as [out w'] eqn:E.
  assert (Hout : out <> OutOfFuel).
  { vm_compute in E. inversion E; subst. discriminate. }
  destruct (done_is_sent_and_closed _ _ _ _ _ _ _ _ _ _ _ _ _ E Hout) as (evs & H).
  exists out, w', evs. split; [reflexivity|]. split; [exact Hout|exact H].
Defined.

(** ** Batch revert rates: when rates are returned, and their range *)

Lemma forRange_unchanged {St} (body : nat -> St -> Run St) (s : St) :
  forall n i,
    (forall j, (i <= j < i + n)%nat -> body j s = Returned s) ->
    forRange body i n s = Returned s.
Proof.
  induction n as [|n IH]; intros i Hb; [reflexivity|].
  simpl. rewrite Hb by lia. simpl. apply IH. intros j Hj. apply Hb. lia.
Qed.

(** When every risk text is there, no hash is left for the fallback. *)
Lemma noRiskOf_none (hs : list (option Hash)) (risks : list string) :
  length risks = length hs ->
  Forall (fun r => r <> EmptyString) risks ->
  noRiskOf hs risks = Returned ([], ∅).
Proof.
  intros Hlen Hall. unfold noRiskOf. apply forRange_unchanged.
  intros j Hj. unfold index.
  destruct (risks !! j) as [r|] eqn:E.
  - simpl. rewrite Forall_lookup in Hall. specialize (Hall _ _ E).
    destruct r; [congruence|reflexivity].
  - apply lookup_ge_None in E. lia.
Qed.

Lemma ratesOf_decoded (risks : list string) :
  forall suf pre,
    risks = pre ++ suf ->
    Forall (fun r => exists b, hexutil.DecodeBig r = Ok b) suf ->
    forRangeErr (fun i rates =>
        r <~ index risks i ;;
        match hexutil.DecodeBig r with
        | Err err =>
            Returned (Err (WrapError err
                             (Sprintf "create big int by risk value %v error"
                                      [VString r])))
        | Ok b =>
            rates <~ assign rates i (Some (CalcBlockRevertRate b)) ;;
            Returned (Ok rates)
        end)
      (length pre) (length suf)
      (map rateOf pre ++ replicate (length suf) None)
    = Returned (Ok (map rateOf (pre ++ suf))).
Proof.
  induction suf as [|r suf IH]; intros pre Hr Hall.
  - simpl. rewrite !app_nil_r. reflexivity.
  - apply Forall_cons in Hall. destruct Hall as [(b & Hb) Hall'].
    simpl forRangeErr. rewrite Hr at 1. rewrite index_middle. simpl bindR.
    rewrite Hb. simpl replicate.
    rewrite (assign_at _ _ _ _ _ (length_map rateOf pre)). simpl bindR.
    assert (Hrate : rateOf r = Some (CalcBlockRevertRate b))
      by (unfold rateOf; rewrite Hb; reflexivity).
    rewrite <- Hrate.
    specialize (IH (pre ++ [r])).
    rewrite length_app, map_app in IH. simpl in IH. rewrite Nat.add_1_r in IH.
    rewrite <- !app_assoc in IH. simpl in IH.
    apply IH; [exact Hr|exact Hall'].
Qed.

Lemma ratesOf_all (risks : list string) :
  Forall (fun r => exists b, hexutil.DecodeBig r = Ok b) risks ->
  ratesOf risks = Returned (Ok (map rateOf risks)).
Proof. intros Hall. exact (ratesOf_decoded risks risks [] eq_refl Hall). Qed.

Lemma decoded_not_empty (r : string) (b : Z) :
  hexutil.DecodeBig r = Ok b -> r <> EmptyString.
Proof. intros H ->. discriminate H. Qed.

Section GoodPath.

Context {Node ABI : Type}.
Variable client : @Client Node ABI.

Lemma BatchGetBlockRevertRates_decoded (hs : list (option Hash))
    (w w1 : @World Node ABI) (resps : list ElemResponse) :
  hs <> [] ->
  BatchCallRPC client (elemsFrom 0 hs) w = (Returned (Ok resps), w1) ->
  Forall (fun r => exists b, hexutil.DecodeBig r = Ok b) (answeredRisks hs resps) ->
  BatchGetBlockRevertRates client hs w
  = (Returned (Ok (map rateOf (answeredRisks hs resps))), w1).
Proof.
  intros Hne Hb Hall. unfold BatchGetBlockRevertRates.
  destruct (length hs =? 0)%nat eqn:E0.
  { apply Nat.eqb_eq in E0. destruct hs; [congruence|discriminate E0]. }
  rewrite riskElems_spec. unfold bind at 1, lift at 1.
  unfold bind at 1. rewrite Hb.
  pose proof (storeAll_risks hs [] resps) as Hst. simpl in Hst. rewrite Hst.
  unfold bind at 1, lift at 1.
  rewrite noRiskOf_none.
  - unfold bind, ret, lift. cbn -[ratesOf answeredRisks].
    rewrite (ratesOf_all _ Hall). reflexivity.
  - apply answeredRisks_length.
  - eapply Forall_impl; [exact Hall|].
    intros r (b & Hd). exact (decoded_not_empty _ _ Hd).
Qed.

End GoodPath.

(** X14: when the risk batch is answered and every risk text it leaves
    decodes, the call returns, after that one batch call, the rates of
    those texts in the order of the input. *)
Theorem rates_are_returned_for_decodable_risks
    {Node ABI : Type} (client : @Client Node ABI)
    (blockhashs : list (option Hash)) (w w1 : @World Node ABI)
    (resps : list ElemResponse) :
  blockhashs <> [] ->
  BatchCallRPC client (elemsFrom 0 blockhashs) w = (Returned (Ok resps), w1) ->
  Forall (fun r => exists b, hexutil.DecodeBig r = Ok b)
         (answeredRisks blockhashs resps) ->
  BatchGetBlockRevertRates client blockhashs w
  = (Returned (Ok (map rateOf (answeredRisks blockhashs resps))), w1).
Proof. apply BatchGetBlockRevertRates_decoded. Qed.

Lemma rates_are_returned_for_decodable_risks_witness :
  let c := Scenario.client JNull Scenario.zeroRisk Scenario.noSummary None in
  let hs := [Some "0xaa"; None] in
  exists resps w1,
    hs <> []
    /\ BatchCallRPC c (elemsFrom 0 hs) (Scenario.start 0%nat)
       = (Returned (Ok resps), w1)
    /\ Forall (fun r => exists b, hexutil.DecodeBig r = Ok b)
              (answeredRisks hs resps)
    /\ BatchGetBlockRevertRates c hs (Scenario.start 0%nat)
       = (Returned (Ok (map rateOf (answeredRisks hs resps))), w1).
Proof.
  intros c hs.
  assert (Hne : hs <> []) by discriminate.
  destruct (BatchCallRPC c (elemsFrom 0 hs) (Scenario.start 0%nat))
    as [[[resps|e]| |] w1] eqn:E;
    [|vm_compute in E; discriminate E|vm_compute in E; discriminate E
     |vm_compute in E; discriminate E].
  assert (Hall : Forall (fun r => exists b, hexutil.DecodeBig r = Ok b)
                        (answeredRisks hs resps)).
  { vm_compute in E. inversion E; subst.
    repeat constructor; eexists; vm_compute; reflexivity. }
  exists resps, w1. split; [exact Hne|]. split; [reflexivity|].
  split; [exact Hall|].
  exact (rates_are_returned_for_decodable_risks c hs (Scenario.start 0%nat) w1
           resps Hne E Hall).
Defined.

Lemma decodeNibble_range (c : ascii) (n : Z) :
  hexutil.decodeNibble c = Some n -> 0 <= n < 16.
Proof.
  unfold hexutil.decodeNibble.
  set (m := Z.of_nat (nat_of_ascii c)).
  destruct (48 <=? m) eqn:A1, (m <=? 57) eqn:A2; simpl;
    try (intros H; inversion H; apply Z.leb_le in A1; apply Z.leb_le in A2; lia);
    (destruct (65 <=? m) eqn:B1, (m <=? 70) eqn:B2; simpl;
     try (intros H; inversion H; apply Z.leb_le in B1; apply Z.leb_le in B2; lia);
     (destruct (97 <=? m) eqn:C1, (m <=? 102) eqn:C2; simpl;
      try discriminate;
      intros H; inversion H; apply Z.leb_le in C1; apply Z.leb_le in C2; lia)).
Qed.

Lemma parseNibbles_range (raw : string) :
  forall acc z,
    0 <= acc -> hexutil.parseNibbles raw acc = Some z ->
    acc * 16 ^ Z.of_nat (String.length raw) <= z
    < (acc + 1) * 16 ^ Z.of_nat (String.length raw).
Proof.
  induction raw as [|c raw IH]; intros acc z Hacc H.
  - simpl in H. inversion H; subst. simpl. lia.
  - simpl in H. destruct (hexutil.decodeNibble c) as [n|] eqn:E; [|discriminate H].
    apply decodeNibble_range in E.
    apply IH in H; [|lia].
    change (String.length (String c raw)) with (S (String.length raw)).
    rewrite Nat2Z.inj_succ, Z.pow_succ_r by lia.
    assert (0 < 16 ^ Z.of_nat (String.length raw)) by (apply Z.pow_pos_nonneg; lia).
    nia.
Qed.

(** A risk text that decodes is a number from 0 to 2^256 - 1. *)
Lemma DecodeBig_range (s : string) (b : Z) :
  hexutil.DecodeBig s = Ok b -> 0 <= b <= MaxUint256.
Proof.
  unfold hexutil.DecodeBig.
  destruct (hexutil.checkNumber s) as [raw|e]; [|discriminate].
  destruct (64 <? String.length raw)%nat eqn:E; [discriminate|].
  destruct (hexutil.parseNibbles raw 0) as [z|] eqn:P; [|discriminate].
  intros H. inversion H; subst z. apply Nat.ltb_ge in E.
  apply parseNibbles_range in P; [|lia].
  assert (Hpow : 16 ^ Z.of_nat (String.length raw) <= 16 ^ 64)
    by (apply Z.pow_le_mono_r; lia).
  assert (H64 : 16 ^ 64 = MaxUint256 + 1) by reflexivity.
  lia.
Qed.

Lemma rate_range (b : Z) :
  0 <= b <= MaxUint256 ->
  (0 <= CalcBlockRevertRate b)%Q /\ (CalcBlockRevertRate b <= 1)%Q.
Proof.
  intros [H0 H1]. unfold CalcBlockRevertRate.
  assert (Hpos : (0 < inject_Z MaxUint256)%Q)
    by (change 0%Q with (inject_Z 0); rewrite <- Zlt_Qlt; reflexivity).
  split; rewrite Qred_correct.
  - apply Qle_shift_div_l; [exact Hpos|]. rewrite Qmult_0_l.
    change 0%Q with (inject_Z 0). rewrite <- Zle_Qle. exact H0.
  - apply Qle_shift_div_r; [exact Hpos|]. rewrite Qmult_1_l.
    rewrite <- Zle_Qle. exact H1.
Qed.

(** X15: when rates are returned, every position has a rate (no nil in the
    result), and it lies between 0 and 1. *)
Theorem returned_rates_are_probabilities
    {Node ABI : Type} (client : @Client Node ABI)
    (blockhashs : list (option Hash)) (w w' : @World Node ABI)
    (rates : list (option Q)) (i : nat) :
  BatchGetBlockRevertRates client blockhashs w = (Returned (Ok rates), w') ->
  (i < length blockhashs)%nat ->
  exists q, rates !! i = Some (Some q) /\ (0 <= q)%Q /\ (q <= 1)%Q.
Proof.
  intros H Hi.
  assert (Hne : blockhashs <> []) by (intros ->; simpl in Hi; lia).
  destruct (BatchGetBlockRevertRates_ok client _ _ _ _ Hne H)
    as (resps & Hb & Hr).
  pose proof (ratesOf_spec _ _ Hr) as ->.
  rewrite <- (answeredRisks_length blockhashs resps) in Hi.
  destruct (lookup_lt_is_Some_2 _ _ Hi) as [r Hri].
  unfold ratesOf in Hr.
  destruct (decode_all _ _ [] _ eq_refl Hr r) as (b & Hd).
  { apply list_elem_of_lookup. exists i. exact Hri. }
  exists (CalcBlockRevertRate b). rewrite lookup_map, Hri. simpl.
  unfold rateOf. rewrite Hd. split; [reflexivity|].
  apply rate_range. exact (DecodeBig_range _ _ Hd).
Qed.

Lemma returned_rates_are_probabilities_witness :
  let c := Scenario.client JNull Scenario.zeroRisk Scenario.noSummary None in
  let hs := [Some "0xaa"; None] in
  exists rates w' q,
    BatchGetBlockRevertRates c hs (Scenario.start 0%nat) = (Returned (Ok rates), w')
    /\ (1 < length hs)%nat
    /\ rates !! 1%nat = Some (Some q) /\ (0 <= q)%Q /\ (q <= 1)%Q.
Proof.
  intros c hs.
  destruct (BatchGetBlockRevertRates c hs (Scenario.start 0%nat))
    as [[[rates|e]| |] w'] eqn:E;
    [|vm_compute in E; discriminate E|vm_compute in E; discriminate E
     |vm_compute in E; discriminate E].
  assert (Hi : (1 < length hs)%nat) by (simpl; lia).
  destruct (returned_rates_are_probabilities c hs (Scenario.start 0%nat) w'
              rates 1%nat E Hi) as (q & H).
  exists rates, w', q. split; [reflexivity|]. split; [exact Hi|exact H].
Defined.

Lemma map_replicate {A B} (f : A -> B) (n : nat) (x : A) :
  map f (replicate n x) = replicate n (f x).
Proof. induction n as [|n IH]; simpl; [reflexivity|rewrite IH; reflexivity]. Qed.

Lemma elemsFrom_placeholders (n i : nat) : elemsFrom i (replicate n None) = [].
Proof. revert i. induction n as [|n IH]; intros i; simpl; [reflexivity|apply IH]. Qed.

Lemma answeredRisks_placeholders (n : nat) (resps : list ElemResponse) :
  answeredRisks (replicate n None) resps
  = replicate n (hexutil.EncodeBig MaxUint256).
Proof. induction n as [|n IH]; simpl; [reflexivity|rewrite IH; reflexivity]. Qed.

(** X16: an input of nil placeholders only (at least one) still goes to
    the transport, with a batch of no elements: when that batch call
    succeeds every rate is 1, and when it fails the call returns its error
    wrapped, without rates. *)
Theorem placeholders_only_still_call_the_transport
    {Node ABI : Type} (client : @Client Node ABI) (n : nat)
    (w w1 : @World Node ABI) (res : result (list ElemResponse)) :
  BatchCallRPC client [] w = (Returned res, w1) ->
  BatchGetBlockRevertRates client (replicate (S n) None) w
  = (Returned
       match res with
       | Ok _ => Ok (replicate (S n) (Some 1%Q))
       | Err err =>
           Err (WrapError err
                  (Sprintf
                     "batch call cfx_getConfirmationRiskByHash with BatchItem %v error"
                     [VBatch []]))
       end, w1).
Proof.
  intros Hb. destruct res as [resps|err].
  - rewrite (BatchGetBlockRevertRates_decoded client _ w w1 resps).
    + rewrite answeredRisks_placeholders.
      rewrite map_replicate, rateOf_max. reflexivity.
    + discriminate.
    + rewrite elemsFrom_placeholders. exact Hb.
    + rewrite answeredRisks_placeholders. apply Forall_replicate.
      exists MaxUint256. vm_compute. reflexivity.
  - unfold BatchGetBlockRevertRates.
    change (length (replicate (S n) None) =? 0)%nat with false.
    rewrite riskElems_spec. unfold bind at 1, lift at 1. unfold bind at 1.
    rewrite elemsFrom_placeholders, Hb. reflexivity.
Qed.

Lemma placeholders_only_still_call_the_transport_witness :
  let c := Scenario.client JNull Scenario.noRisk Scenario.noSummary None in
  exists res w1,
    BatchCallRPC c [] (Scenario.start 0%nat) = (Returned res, w1)
    /\ attempts (trace w1) = 1%nat
    /\ BatchGetBlockRevertRates c [None; None] (Scenario.start 0%nat)
       = (Returned (Ok [Some 1%Q; Some 1%Q]), w1).
Proof.
  intros c.
  destruct (BatchCallRPC c [] (Scenario.start 0%nat))
    as [[res| |] w1] eqn:E;
    [|vm_compute in E; discriminate E|vm_compute in E; discriminate E].
  pose proof (placeholders_only_still_call_the_transport c 1
                (Scenario.start 0%nat) w1 res E) as H.
  exists res, w1. split; [reflexivity|].
  assert (Hres : exists rs, res = Ok rs /\ attempts (trace w1) = 1%nat).
  { vm_compute in E. inversion E; subst. eexists. split; reflexivity. }
  destruct Hres as (rs & -> & Ha). split; [exact Ha|exact H].
Defined.

Lemma empty_risk_yields_no_rates_witness :
  let c := Scenario.client JNull Scenario.noRisk Scenario.onPivot None in
  let hs := [Some "0xaa"] in
  exists resps w1,
    BatchCallRPC c (elemsFrom 0 hs) (Scenario.start 0%nat)
    = (Returned (Ok resps), w1)
    /\ hs !! 0%nat = Some (Some "0xaa")
    /\ riskText (resps !! rank hs 0) = EmptyString
    /\ forall rates w',
         BatchGetBlockRevertRates c hs (Scenario.start 0%nat)
         <> (Returned (Ok rates), w').
Proof.
  intros c hs.
  destruct (BatchCallRPC c (elemsFrom 0 hs) (Scenario.start 0%nat))
    as [[[resps|e]| |] w1] eqn:E;
    [|vm_compute in E; discriminate E|vm_compute in E; discriminate E
     |vm_compute in E; discriminate E].
  assert (Hempty : riskText (resps !! rank hs 0) = EmptyString).
  { vm_compute in E. inversion E; subst. reflexivity. }
  exists resps, w1. split; [reflexivity|]. split; [reflexivity|].
  split; [exact Hempty|].
  exact (empty_risk_yields_no_rates c hs (Scenario.start 0%nat) w1 resps 0%nat
           "0xaa" E eq_refl Hempty).
Defined.

(** ** The revert rate of one hash, and lookups that find nothing *)

Lemma BitLen_pos (b : Z) :
  0 < b -> 2 ^ (big.BitLen b - 1) <= b < 2 ^ big.BitLen b /\ 0 < big.BitLen b.
Proof.
  intros Hb. unfold big.BitLen.
  destruct (b =? 0) eqn:E; [apply Z.eqb_eq in E; lia|].
  rewrite Z.abs_eq by lia.
  pose proof (Z.log2_spec b Hb) as H. pose proof (Z.log2_nonneg b).
  replace (Z.log2 b + 1 - 1) with (Z.log2 b) by lia.
  replace (Z.log2 b + 1) with (Z.succ (Z.log2 b)) by lia.
  split; [exact H|lia].
Qed.

Lemma BitLen_max : big.BitLen MaxUint256 = 256.
Proof. vm_compute. reflexivity. Qed.

Lemma BitLen_le (b : Z) : 0 < b <= MaxUint256 -> big.BitLen b <= 256.
Proof.
  intros [Hb Hm]. destruct (BitLen_pos b Hb) as [[Hlo _] Hl].
  destruct (Z_le_gt_dec (big.BitLen b) 256) as [H|H]; [exact H|exfalso].
  assert (2 ^ 256 <= 2 ^ (big.BitLen b - 1)) by (apply Z.pow_le_mono_r; lia).
  unfold MaxUint256 in Hm. lia.
Qed.

Lemma round_quotient (prec b : Z) :
  0 < b ->
  big.round prec (Qdiv (inject_Z b) (inject_Z MaxUint256))
  = big.roundPos prec b MaxUint256.
Proof.
  intros Hb. destruct b as [|p|p]; try lia.
  assert (E : Qdiv (inject_Z (Z.pos p)) (inject_Z MaxUint256)
              = Qmake (Z.pos p) (Z.to_pos MaxUint256)).
  { unfold Qdiv, Qmult, Qinv, inject_Z. cbn [Qnum Qden].
    change (Qnum (Z.pos 1 # Z.to_pos MaxUint256)) with 1.
    rewrite Z.mul_1_r. reflexivity. }
  rewrite E. reflexivity.
Qed.

(** The quotient of a risk by the maximum risk, rounded to 256 bits: the
    risk scaled to 256 bits, and one more in the last place. *)
Lemma roundPos_by_max (b : Z) :
  0 < b <= MaxUint256 ->
  big.roundPos 256 b MaxUint256
  = big.scaled (b * 2 ^ (256 - big.BitLen b) + 1) (512 - big.BitLen b).
Proof.
  intros [Hb Hm].
  destruct (Z.eq_dec b MaxUint256) as [->|Hne]; [vm_compute; reflexivity|].
  destruct (BitLen_pos b Hb) as [[Hlo Hhi] Hl].
  pose proof (BitLen_le b (conj Hb Hm)) as Hle.
  unfold big.roundPos. rewrite BitLen_max.
  set (L := big.BitLen b) in *.
  replace (256 + 256 - L) with (512 - L) by lia.
  rewrite (Z.max_l (512 - L) 0), (Z.max_r (- (512 - L)) 0) by lia.
  set (P := 2 ^ (256 - L)).
  assert (HP : 0 < P) by (apply Z.pow_pos_nonneg; lia).
  assert (Hs : 2 ^ (512 - L) = P * 2 ^ 256).
  { unfold P. rewrite <- Z.pow_add_r by lia. f_equal. lia. }
  assert (HPL : P * 2 ^ (L - 1) = 2 ^ 255).
  { unfold P. rewrite <- Z.pow_add_r by lia. f_equal. lia. }
  assert (Hlo' : 2 ^ 255 <= b * P) by nia.
  assert (Hhi' : b * P < MaxUint256).
  { destruct (Z.eq_dec L 256) as [E|E].
    - assert (P = 1) by (unfold P; rewrite E; reflexivity). lia.
    - assert (HPL' : P * 2 ^ L = 2 ^ 256).
      { unfold P. rewrite <- Z.pow_add_r by lia. f_equal. lia. }
      assert (2 <= P).
      { unfold P. change 2 with (2 ^ 1) at 1. apply Z.pow_le_mono_r; lia. }
      unfold MaxUint256. nia. }
  change (2 ^ 0) with 1. rewrite Z.mul_1_r.
  assert (Hnum : b * 2 ^ (512 - L) = MaxUint256 * (b * P) + b * P).
  { rewrite Hs. unfold MaxUint256. ring. }
  destruct (2 ^ 256 * MaxUint256 <=? b * 2 ^ (512 - L)) eqn:T.
  { apply Z.leb_le in T. rewrite Hs in T. exfalso. nia. }
  rewrite (Z.max_l (512 - L) 0), (Z.max_r (- (512 - L)) 0) by lia.
  change (2 ^ 0) with 1. rewrite Z.mul_1_r.
  assert (Hq : b * 2 ^ (512 - L) / MaxUint256 = b * P).
  { symmetry. apply (Z.div_unique _ _ _ (b * P)); [lia|exact Hnum]. }
  assert (Hr : b * 2 ^ (512 - L) mod MaxUint256 = b * P).
  { symmetry. apply (Z.mod_unique _ _ (b * P)); [lia|exact Hnum]. }
  rewrite Hq, Hr.
  replace (MaxUint256 <? 2 * (b * P)) with true
    by (symmetry; apply Z.ltb_lt; unfold MaxUint256; lia).
  reflexivity.
Qed.

(** Halves go to the even mantissa: with 3 bits, 9/2 is rounded to 4,
    11/2 to 6, and 1/3 to 5/16. *)
Lemma round_ties_to_even :
  big.roundPos 3 9 2 = 4%Q /\ big.roundPos 3 11 2 = 6%Q
  /\ big.roundPos 3 1 3 = (5 # 16)%Q.
Proof. repeat split; vm_compute; reflexivity. Qed.

Lemma scaled_value (m s : Z) :
  0 <= s -> (big.scaled m s == inject_Z m / inject_Z (2 ^ s))%Q.
Proof.
  intros Hs. unfold big.scaled.
  replace (0 <=? s) with true by (symmetry; apply Z.leb_le; exact Hs).
  rewrite Qred_correct, Qmake_Qdiv.
  rewrite Z2Pos.id by (apply Z.pow_pos_nonneg; lia). reflexivity.
Qed.

(** The rate of a risk: a float of 256 bits; 0 for the risk 0, and for any
    other risk of [L] bits the mantissa risk * 2^(256-L) + 1 at the scale
    2^(512-L), which is risk / (2^256 - 1) rounded. *)
Lemma Quo_by_max (b : Z) :
  0 <= b <= MaxUint256 ->
  big.Prec (big.Quo (big.SetInt b) (big.SetInt MaxUint256)) = 256
  /\ (b = 0 ->
      big.value (big.Quo (big.SetInt b) (big.SetInt MaxUint256)) = 0%Q)
  /\ (0 < b ->
      (big.value (big.Quo (big.SetInt b) (big.SetInt MaxUint256))
       == inject_Z (b * 2 ^ (256 - big.BitLen b) + 1)
          / inject_Z (2 ^ (512 - big.BitLen b)))%Q).
Proof.
  intros [H0 Hm]. unfold big.Quo, big.SetInt. cbn [big.Prec big.value].
  rewrite BitLen_max. split; [|split].
  - destruct (Z.eq_dec b 0) as [->|Hne]; [reflexivity|].
    pose proof (BitLen_le b ltac:(lia)). lia.
  - intros ->. reflexivity.
  - intros Hb. pose proof (BitLen_le b (conj Hb Hm)).
    replace (Z.max (Z.max (big.BitLen b) 64) (Z.max 256 64)) with 256 by lia.
    rewrite round_quotient by exact Hb.
    rewrite roundPos_by_max by (split; assumption).
    apply scaled_value. lia.
Qed.

Lemma rate_at_zero :
  big.Quo (big.SetInt 0) (big.SetInt MaxUint256)
  = {| big.Prec := 256; big.value := 0%Q |}.
Proof. vm_compute. reflexivity. Qed.

Lemma rate_at_max :
  big.Quo (big.SetInt MaxUint256) (big.SetInt MaxUint256)
  = {| big.Prec := 256; big.value := 1%Q |}.
Proof. vm_compute. reflexivity. Qed.

(** X17: [GetBlockRevertRateByHash] on one hash.  A risk text that decodes
    to [b] gives, after that one call, the [big.Float] quotient of [b] by
    2^256 - 1: a float of 256 bits, 0 for the risk 0 and otherwise the
    mantissa b * 2^(256-L) + 1 at the scale 2^(512-L), [L] the bit length
    of [b] (the quotient rounded to 256 bits, not the exact one).  When
    the node has no risk (null), the block summary is fetched: a summary
    with an epoch number gives the rate 0; a summary without one, or no
    block at all, gives the rate 1. *)
Theorem single_hash_revert_rate
    {Node ABI : Type} (client : @Client Node ABI) (blockHash : Hash)
    (w w1 : @World Node ABI) (j : Json) :
  rr_Call (requester client) "cfx_getConfirmationRiskByHash" [AHash blockHash] w
  = (Returned (Ok j), w1) ->
  (forall s b, j = JString s -> hexutil.DecodeBig s = Ok b ->
     exists rate,
       GetBlockRevertRateByHash client blockHash w
       = (Returned (Ok (Some rate)), w1)
       /\ rate = big.Quo (big.SetInt b) (big.SetInt MaxUint256)
       /\ big.Prec rate = 256
       /\ (b = 0 -> big.value rate = 0%Q)
       /\ (0 < b ->
           (big.value rate
            == inject_Z (b * 2 ^ (256 - big.BitLen b) + 1)
               / inject_Z (2 ^ (512 - big.BitLen b)))%Q))
  /\ (j = JNull ->
      forall w2 js,
        rr_Call (requester client) "cfx_getBlockByHash"
                [AHash blockHash; ABool false] w1 = (Returned (Ok js), w2) ->
        (forall b e, js = JBlockSummary b -> bs_EpochNumber b = Some e ->
           GetBlockRevertRateByHash client blockHash w
           = (Returned (Ok (Some {| big.Prec := 256; big.value := 0%Q |})), w2))
        /\ (forall b, js = JBlockSummary b -> bs_EpochNumber b = None ->
              GetBlockRevertRateByHash client blockHash w
              = (Returned (Ok (Some {| big.Prec := 256; big.value := 1%Q |})),
                 w2))
        /\ (js = JNull ->
            GetBlockRevertRateByHash client blockHash w
            = (Returned (Ok (Some {| big.Prec := 256; big.value := 1%Q |})),
               w2))).
Proof.
  intros Hrisk. split.
  - intros s b -> Hd.
    destruct (Quo_by_max b (DecodeBig_range _ _ Hd)) as (Hp & Hz & Hv).
    eexists. split; [|split; [reflexivity|split; [exact Hp|split; assumption]]].
    unfold GetBlockRevertRateByHash, GetBlockConfirmRiskByHash, bind.
    rewrite Hrisk. simpl. rewrite Hd. reflexivity.
  - intros -> w2 js Hsum.
    unfold GetBlockRevertRateByHash, GetBlockConfirmRiskByHash,
      GetBlockSummaryByHash, bind.
    rewrite Hrisk. rewrite Hsum.
    split; [|split].
    + intros b e -> He. simpl. rewrite He. unfold ret.
      rewrite rate_at_zero. reflexivity.
    + intros b -> He. simpl. rewrite He. unfold ret.
      rewrite rate_at_max. reflexivity.
    + intros ->. simpl. unfold ret. rewrite rate_at_max. reflexivity.
Qed.

Lemma single_hash_revert_rate_witness :
  let c : @Client nat unit :=
    {| nodeURL := "http://localhost:12537";
       requester := directRequester
                      (Scenario.risk_call (fun _ => JString "0x1")
                                          Scenario.onPivot)
                      Scenario.down_batch;
       accountManager := None |} in
  exists w1 rate,
    rr_Call (requester c) "cfx_getConfirmationRiskByHash" [AHash "0xaa"]
            (Scenario.start 0%nat) = (Returned (Ok (JString "0x1")), w1)
    /\ hexutil.DecodeBig "0x1" = Ok 1
    /\ GetBlockRevertRateByHash c "0xaa" (Scenario.start 0%nat)
       = (Returned (Ok (Some rate)), w1)
    /\ big.Prec rate = 256
    /\ (big.value rate == inject_Z (2 ^ 255 + 1) / inject_Z (2 ^ 511))%Q.
Proof.
  intros c.
  assert (H1 : rr_Call (requester c) "cfx_getConfirmationRiskByHash"
                 [AHash "0xaa"] (Scenario.start 0%nat)
               = (Returned (Ok (JString "0x1")),
                  snd (rr_Call (requester c) "cfx_getConfirmationRiskByHash"
                         [AHash "0xaa"] (Scenario.start 0%nat))))
    by (vm_compute; reflexivity).
  assert (Hd : hexutil.DecodeBig "0x1" = Ok 1) by (vm_compute; reflexivity).
  destruct (single_hash_revert_rate c "0xaa" _ _ _ H1) as [H _].
  destruct (H "0x1" 1 eq_refl Hd) as (rate & Hrate & _ & Hp & _ & Hv).
  eexists. exists rate. split; [exact H1|]. split; [exact Hd|].
  split; [exact Hrate|]. split; [exact Hp|].
  exact (Hv ltac:(lia)).
Defined.



(** ** The estimation request *)

Section EstimateRequest.

Context {Node ABI : Type}.
Variable node_call : Request -> Node -> Node * result Json.
Variable node_batch : list Request -> Node -> Node * result (list ElemResponse).
Variable MinGasprice : Z.
Variable ApplyDefault : UnsignedTransaction -> UnsignedTransaction.
Variable client : @Client Node ABI.

(** The first four steps leave [gas] and [storageLimit] as they are. *)
Lemma resolveFrom_limits tx (w w' : @World Node ABI) q :
  resolveFrom client tx w = (Returned q, w') ->
  tx_Gas (fst q) = tx_Gas tx /\ tx_StorageLimit (fst q) = tx_StorageLimit tx.
Proof.
  intros H. unfold resolveFrom, ret in H.
  branch H; inversion H; subst; split; reflexivity.
Qed.

Lemma resolveNonce_limits tx (w w' : @World Node ABI) q :
  resolveNonce client tx w = (Returned q, w') ->
  tx_Gas (fst q) = tx_Gas tx /\ tx_StorageLimit (fst q) = tx_StorageLimit tx.
Proof.
  intros H.
  unfold resolveNonce, GetNextNonce, assertString, bind, lift, ret, panic in H.
  branch H; inversion H; subst; split; reflexivity.
Qed.

Lemma resolveGasPrice_limits tx (w w' : @World Node ABI) q :
  resolveGasPrice MinGasprice client tx w = (Returned q, w') ->
  tx_Gas (fst q) = tx_Gas tx /\ tx_StorageLimit (fst q) = tx_StorageLimit tx.
Proof.
  intros H.
  unfold resolveGasPrice, GetGasPrice, assertString, bind, lift, ret, panic in H.
  branch H; inversion H; subst; split; reflexivity.
Qed.

Lemma resolveEpochHeight_limits tx (w w' : @World Node ABI) q :
  resolveEpochHeight client tx w = (Returned q, w') ->
  tx_Gas (fst q) = tx_Gas tx /\ tx_StorageLimit (fst q) = tx_StorageLimit tx.
Proof.
  intros H.
  unfold resolveEpochHeight, GetEpochNumber, assertString, bind, lift, ret, panic in H.
  branch H; inversion H; subst; split; reflexivity.
Qed.

Hypothesis direct : requester client = directRequester node_call node_batch.

(** The estimation step on a draft that lacks [gas] or [storageLimit]
    ends with the estimation call, for the request filled from the
    draft. *)
Lemma resolveGasAndStorage_request tx (w w' : @World Node ABI) q :
  tx_Gas tx = None \/ tx_StorageLimit tx = None ->
  resolveGasAndStorage client tx w = (Returned q, w') ->
  exists r,
    last (trace w')
    = Some (EvCall {| req_Method := "cfx_estimateGasAndCollateral";
                      req_Args := [ACallRequest
                                     (FillByUnsignedTx newCallRequest (Some tx))] |}
                   r).
Proof.
  intros Hlack H. unfold resolveGasAndStorage in H.
  assert (Hrun :
    exists n r,
      rr_Call (requester client) "cfx_estimateGasAndCollateral"
        [ACallRequest (FillByUnsignedTx newCallRequest (Some tx))] w
      = (Returned r,
         emit (EvCall {| req_Method := "cfx_estimateGasAndCollateral";
                         req_Args := [ACallRequest
                                        (FillByUnsignedTx newCallRequest
                                           (Some tx))] |} r)
              {| node := n; trace := trace w; deployResult := deployResult w |})).
  { rewrite direct. simpl. unfold rpcClient_Call.
    destruct (node_call _ (node w)) as [n r]. exists n, r. reflexivity. }
  destruct Hrun as (n & r & Hc).
  destruct (tx_StorageLimit tx) eqn:Es, (tx_Gas tx) eqn:Eg;
    try (destruct Hlack; discriminate);
    unfold EstimateGasAndCollateral, bind, ret in H; rewrite Hc in H;
    (destruct r as [[|s|est| |]|e]; simpl in H; inversion H; subst;
     eexists; apply last_emit).
Qed.

End EstimateRequest.

(** X20: on the direct transport, a resolution of a draft that lacks [gas]
    or [storageLimit] and that returns without error ends with the
    estimation call, and the request of that call carries a nonce and a
    gas price, the very ones the returned draft has, and the [from] of the
    returned draft when the request has one; [ApplyDefault] is taken to
    keep set fields. *)
Theorem estimate_request_mirrors_the_draft
    {Node ABI : Type}
    (node_call : Request -> Node -> Node * result Json)
    (node_batch : list Request -> Node -> Node * result (list ElemResponse))
    (MinGasprice : Z) (ApplyDefault : UnsignedTransaction -> UnsignedTransaction)
    (client : @Client Node ABI) (tx : UnsignedTransaction)
    (w w' : @World Node ABI) (p : Resolved) :
  requester client = directRequester node_call node_batch ->
  (forall t, keeps t (ApplyDefault t)) ->
  tx_Gas tx = None \/ tx_StorageLimit tx = None ->
  ApplyUnsignedTransactionDefault MinGasprice ApplyDefault (Some client) tx w
  = (Returned p, w') ->
  snd p = None ->
  exists callReq r,
    last (trace w')
    = Some (EvCall {| req_Method := "cfx_estimateGasAndCollateral";
                      req_Args := [ACallRequest callReq] |} r)
    /\ is_Some (cr_Nonce callReq) /\ cr_Nonce callReq = tx_Nonce (fst p)
    /\ is_Some (cr_GasPrice callReq) /\ cr_GasPrice callReq = tx_GasPrice (fst p)
    /\ (forall a, cr_From callReq = Some a -> tx_From (fst p) = Some a).
Proof.
  intros Hd HA Hlack H Hp. unfold ApplyUnsignedTransactionDefault in H.
  apply andThen_ok in H; [|exact Hp]. destruct H as (q1 & w1 & H1 & E1 & H).
  apply andThen_ok in H; [|exact Hp]. destruct H as (q2 & w2 & H2 & E2 & H).
  apply andThen_ok in H; [|exact Hp]. destruct H as (q3 & w3 & H3 & E3 & H).
  apply andThen_ok in H; [|exact Hp]. destruct H as (q4 & w4 & H4 & E4 & H).
  apply andThen_ok in H; [|exact Hp]. destruct H as (q5 & w5 & H5 & E5 & H).
  inversion H; subst p w'. clear H. simpl.
  destruct (resolveFrom_limits client _ _ _ _ H1) as [G1 S1].
  destruct (resolveNonce_limits client _ _ _ _ H2) as [G2 S2].
  destruct (resolveGasPrice_limits MinGasprice client _ _ _ _ H3) as [G3 S3].
  destruct (resolveEpochHeight_limits client _ _ _ _ H4) as [G4 S4].
  assert (Hlack4 : tx_Gas (fst q4) = None \/ tx_StorageLimit (fst q4) = None).
  { rewrite G4, G3, G2, G1, S4, S3, S2, S1. exact Hlack. }
  destruct (resolveGasAndStorage_request node_call node_batch client Hd
              _ _ _ _ Hlack4 H5) as (r & Hlast).
  pose proof (resolveGasPrice_Keeps MinGasprice client _ _ _ _ H3) as K3.
  pose proof (resolveEpochHeight_Keeps client _ _ _ _ H4) as K4.
  pose proof (resolveGasAndStorage_Keeps client _ _ _ _ H5) as K5.
  pose proof (HA (fst q5)) as K6.
  pose proof (keeps_trans _ _ _ K5 K6) as K56.
  destruct K56 as (Kf & Kn & Kg & _).
  destruct (resolveNonce_sets client _ _ _ _ H2 E2) as [vn Hvn].
  destruct (resolveGasPrice_sets MinGasprice client _ _ _ _ H3 E3) as [vg Hvg].
  assert (Hn4 : tx_Nonce (fst q4) = Some vn).
  { destruct (keeps_trans _ _ _ K3 K4) as (_ & Kn34 & _). exact (Kn34 _ Hvn). }
  assert (Hg4 : tx_GasPrice (fst q4) = Some vg).
  { destruct K4 as (_ & _ & Kg4 & _). exact (Kg4 _ Hvg). }
  exists (FillByUnsignedTx newCallRequest (Some (fst q4))), r.
  split; [exact Hlast|]. simpl. rewrite Hn4, Hg4.
  split; [eexists; reflexivity|]. split; [symmetry; exact (Kn _ Hn4)|].
  split; [eexists; reflexivity|]. split; [symmetry; exact (Kg _ Hg4)|].
  intros a Ha. exact (Kf _ Ha).
Qed.

Lemma estimate_request_mirrors_the_draft_witness :
  let c := Scenario.client JNull Scenario.noRisk Scenario.noSummary
                           (Some Scenario.keystore) in
  exists p w' callReq r,
    tx_Gas newUnsignedTransaction = None
    /\ ApplyUnsignedTransactionDefault Scenario.minGasprice Scenario.applyDefault
         (Some c) newUnsignedTransaction (Scenario.start 0%nat) = (Returned p, w')
    /\ snd p = None
    /\ last (trace w')
       = Some (EvCall {| req_Method := "cfx_estimateGasAndCollateral";
                         req_Args := [ACallRequest callReq] |} r)
    /\ cr_Nonce callReq = tx_Nonce (fst p)
    /\ cr_GasPrice callReq = tx_GasPrice (fst p).
Proof.
  intros c.
  destruct (ApplyUnsignedTransactionDefault Scenario.minGasprice
              Scenario.applyDefault (Some c) newUnsignedTransaction
              (Scenario.start 0%nat)) as [[p| |] w'] eqn:E;
    [|vm_compute in E; discriminate E|vm_compute in E; discriminate E].
  assert (Hp : snd p = None).
  { vm_compute in E. inversion E; subst. reflexivity. }
  destruct (estimate_request_mirrors_the_draft (Scenario.chain_call JNull)
              (Scenario.chain_batch Scenario.noRisk Scenario.noSummary)
              Scenario.minGasprice Scenario.applyDefault c
              newUnsignedTransaction (Scenario.start 0%nat) w' p eq_refl
              applyDefault_keeps (or_introl eq_refl) E Hp)
    as (callReq & r & Hlast & _ & Hn & _ & Hg & _).
  exists p, w', callReq, r. split; [reflexivity|]. split; [reflexivity|].
  split; [exact Hp|]. split; [exact Hlast|]. split; [exact Hn|exact Hg].
Defined.
